(** * create-discord-bot: the scaffolding pipeline of [src/index.js]

    A shallow embedding of the command-line entry point: the credential
    probe [getApplicationId], the two step catalogs, the dry-run loop and
    the top-level promise chain, over an explicit model of the collaborators
    the script calls (the [prompts] answers, a file-system tree for
    [fs]/[fs-extra], [child_process.execSync], [JSON.parse] and
    [JSON.stringify]). *)

From Stdlib Require Import ZArith Ascii String Floats.SpecFloat.
From stdpp Require Import base option list strings.

Set Warnings "-register-all".
Local Open Scope string_scope.
Local Open Scope list_scope.

(** ** JavaScript values

    The values the script handles: what [JSON.parse] can return, plus
    [undefined] (a missing property, a cancelled prompt).  Numbers are IEEE
    doubles, kept as [spec_float].  The fields of an object are listed in
    property-enumeration order.  Strings stand for their UTF-8 bytes. *)

Inductive value : Type :=
| VUndefined
| VNull
| VBool (b : bool)
| VNumber (x : spec_float)
| VString (s : string)
| VArray (items : list value)
| VObject (fields : list (string * value)).

(** ToBoolean: what [v || w] and [v ? a : b] test. *)
Definition truthy (v : value) : bool :=
  match v with
  | VUndefined | VNull => false
  | VBool b => b
  | VNumber (S754_zero _) | VNumber S754_nan => false
  | VNumber _ => true
  | VString s => negb (String.eqb s EmptyString)
  | VArray _ | VObject _ => true
  end.

(** [a || b] *)
Definition js_or (a b : value) : value := if truthy a then a else b.

(** The first binding of a key in an association list. *)
Fixpoint assoc {A} (k : string) (l : list (string * A)) : option A :=
  match l with
  | [] => None
  | (k', v) :: l' => if String.eqb k k' then Some v else assoc k l'
  end.

(** Assignment to a key: an existing key keeps its place, a new one is
    appended (the order in which JavaScript enumerates non-index keys). *)
Fixpoint assoc_set {A} (k : string) (v : A) (l : list (string * A)) : list (string * A) :=
  match l with
  | [] => [(k, v)]
  | (k', v') :: l' =>
      if String.eqb k k' then (k, v) :: l' else (k', v') :: assoc_set k v l'
  end.

(** Values thrown: a bare string ([throw "Quitting..."]) or an [Error]
    object, of which the model keeps the class and the message. *)
Inductive thrown : Type :=
| ThrownString (s : string)
| ThrownError (class message : string).

(** [v.key] for a key that no prototype defines ([id] is such a key):
    a [TypeError] on [null] and [undefined], the own property on an
    object, [undefined] everywhere else. *)
Definition get_prop (v : value) (key : string) : thrown + value :=
  match v with
  | VUndefined | VNull =>
      inl (ThrownError "TypeError" ("Cannot read property '" +:+ key +:+ "' of null"))
  | VObject fields => inr (default VUndefined (assoc key fields))
  | _ => inr VUndefined
  end.

(** ** Strings

    The characters that the literals of this file do not hold, and the
    joining of pieces with a separator ([Array.prototype.join]). *)

Definition nl : string := String (Ascii.ascii_of_nat 10) EmptyString.
Definition dquote : string := String (Ascii.ascii_of_nat 34) EmptyString.
Definition tab : string := String (Ascii.ascii_of_nat 9) EmptyString.

Fixpoint join (sep : string) (parts : list string) : string :=
  match parts with
  | [] => EmptyString
  | [p] => p
  | p :: rest => p +:+ sep +:+ join sep rest
  end.

(** ** [JSON.stringify]

    QuoteJSONString: the short escapes, [\u00xx] for the other control
    characters, every other character as it is. *)

Definition hex_digit (n : N) : string :=
  match n with
  | 0 => "0" | 1 => "1" | 2 => "2" | 3 => "3" | 4 => "4" | 5 => "5"
  | 6 => "6" | 7 => "7" | 8 => "8" | 9 => "9" | 10 => "a" | 11 => "b"
  | 12 => "c" | 13 => "d" | 14 => "e" | _ => "f"
  end%N.

Definition quote_char (c : ascii) : string :=
  match Ascii.N_of_ascii c with
  | 8 => "\b"
  | 9 => "\t"
  | 10 => "\n"
  | 12 => "\f"
  | 13 => "\r"
  | 34 => "\" +:+ dquote
  | 92 => "\\"
  | n => if (n <? 32)%N
         then "\u00" +:+ hex_digit (n / 16) +:+ hex_digit (n mod 16)
         else String c EmptyString
  end%N.

Fixpoint quote_body (s : string) : string :=
  match s with
  | EmptyString => EmptyString
  | String c s' => quote_char c +:+ quote_body s'
  end.

Definition quote (s : string) : string := dquote +:+ quote_body s +:+ dquote.

Definition is_finite (x : spec_float) : bool :=
  match x with
  | S754_zero _ | S754_finite _ _ _ => true
  | S754_infinity _ | S754_nan => false
  end.

Section Serialize.
(** [Number.prototype.toString], which the script never calls on a
    number of its own making, is left to the engine. *)
Variable number_to_string : spec_float -> string.

(** The [gap] of SerializeJSONProperty: [JSON.stringify(v, null, 2)]
    runs with a gap of two spaces. *)
Variable gap : string.

Definition layout (open close indent : string) (parts : list string) : string :=
  match parts with
  | [] => open +:+ close
  | _ =>
      if String.eqb gap EmptyString
      then open +:+ join "," parts +:+ close
      else
        let inner := indent +:+ gap in
        open +:+ nl +:+ inner +:+ join ("," +:+ nl +:+ inner) parts
             +:+ nl +:+ indent +:+ close
  end.

Definition member (key text : string) : string :=
  quote key +:+ ":" +:+ (if String.eqb gap EmptyString then EmptyString else " ") +:+ text.

(** The pieces of an array and of an object, given the serialization
    [ser] of a value: an element that has none is written [null], a
    property that has none is left out. *)
Section Pieces.
Variable ser : value -> option string.

Fixpoint elements (items : list value) : list string :=
  match items with
  | [] => []
  | x :: items' => default "null" (ser x) :: elements items'
  end.

Fixpoint members (fields : list (string * value)) : list string :=
  match fields with
  | [] => []
  | (k, x) :: fields' =>
      match ser x with
      | Some text => member k text :: members fields'
      | None => members fields'
      end
  end.
End Pieces.

(** SerializeJSONProperty; [None] is its [undefined]. *)
Fixpoint serialize (indent : string) (v : value) : option string :=
  match v with
  | VUndefined => None
  | VNull => Some "null"
  | VBool b => Some (if b then "true" else "false")
  | VNumber x => Some (if is_finite x then number_to_string x else "null")
  | VString s => Some (quote s)
  | VArray items =>
      Some (layout "[" "]" indent (elements (serialize (indent +:+ gap)) items))
  | VObject fields =>
      Some (layout "{" "}" indent (members (serialize (indent +:+ gap)) fields))
  end.

(** ToString, as a template literal applies it.  An object is
    converted by its [toString], then by its [valueOf]: a property
    [toString] of its own (in a value that is data, never a function)
    hides [Object.prototype.toString], [Object.prototype.valueOf] gives
    the object back, and the conversion ends in a [TypeError]; without
    such a property the text is [[object Object]].  An array is joined
    by [Array.prototype.join], which converts its elements in turn and
    writes nothing for [null] and [undefined]. *)
Fixpoint to_string (v : value) : thrown + string :=
  match v with
  | VUndefined => inr "undefined"
  | VNull => inr "null"
  | VBool b => inr (if b then "true" else "false")
  | VNumber x => inr (number_to_string x)
  | VString s => inr s
  | VArray items =>
      match
        (fix elements (l : list value) : thrown + list string :=
           match l with
           | [] => inr []
           | x :: l' =>
               match
                 match x with
                 | VUndefined | VNull => inr EmptyString
                 | _ => to_string x
                 end
               with
               | inl e => inl e
               | inr text =>
                   match elements l' with
                   | inl e => inl e
                   | inr texts => inr (text :: texts)
                   end
               end
           end) items
      with
      | inl e => inl e
      | inr texts => inr (join "," texts)
      end
  | VObject fields =>
      match assoc "toString" fields with
      | Some _ => inl (ThrownError "TypeError" "Cannot convert object to primitive value")
      | None => inr "[object Object]"
      end
  end.
End Serialize.

(** [JSON.stringify(v, null, 2)] inside a template literal. *)
Definition JSON_stringify2 (number_to_string : spec_float -> string) (v : value) : string :=
  default "undefined" (serialize number_to_string "  " EmptyString v).

(** ** The file system

    A tree of regular files and directories (no links, devices or
    permissions); a path is the list of its components from the root.
    The entries of a directory are listed in [readdir] order. *)

Inductive node : Type :=
| File (data : string)
| Dir (entries : list (string * node)).

Definition path : Type := list string.

Inductive kind : Type := KFile | KDir.

Definition kind_of (n : node) : kind :=
  match n with File _ => KFile | Dir _ => KDir end.

Fixpoint find (p : path) (n : node) : option node :=
  match p with
  | [] => Some n
  | k :: p' =>
      match n with
      | File _ => None
      | Dir entries =>
          match assoc k entries with
          | Some c => find p' c
          | None => None
          end
      end
  end.

(** [fs.existsSync], [fs.lstatSync] (reduced to the kind of the entry)
    and [fs.readFileSync]. *)
Definition existsSync (p : path) (root : node) : bool :=
  match find p root with Some _ => true | None => false end.

Definition stat (p : path) (root : node) : option kind :=
  kind_of <$> find p root.

Definition read_file (p : path) (root : node) : option string :=
  match find p root with
  | Some (File data) => Some data
  | _ => None
  end.

Definition fs_error (code syscall : string) (p : path) : thrown :=
  ThrownError "Error" (code +:+ ": " +:+ syscall +:+ " '/" +:+ join "/" p +:+ "'").

(** What an operation leaves in the slot it was applied to, and what it
    threw if it did: a copy that fails half-way keeps what it wrote. *)
Definition written : Type := (node * option thrown)%type.

(** Applies [f] to the slot at [p], under directories that must exist;
    [fail] makes the error of the calling operation from its code. *)
Fixpoint update_at (fail : string -> thrown) (p : path)
    (f : option node -> option node * option thrown)
    (slot : option node) : option node * option thrown :=
  match p with
  | [] => f slot
  | k :: p' =>
      match slot with
      | None => (None, Some (fail "ENOENT"))
      | Some (File _) => (slot, Some (fail "ENOTDIR"))
      | Some (Dir entries) =>
          match update_at fail p' f (assoc k entries) with
          | (Some c, e) => (Some (Dir (assoc_set k c entries)), e)
          | (None, e) => (slot, e)
          end
      end
  end.

Definition fs_update (syscall : string) (p : path)
    (f : option node -> option node * option thrown) (root : node) : written :=
  match update_at (fun code => fs_error code syscall p) p f (Some root) with
  | (Some root', e) => (root', e)
  | (None, e) => (root, e)
  end.

(** [fs.mkdirSync(p)]: the entry must be new, its parent a directory. *)
Definition mkdirSync (p : path) : node -> written :=
  fs_update "mkdir" p (fun slot =>
    match slot with
    | None => (Some (Dir []), None)
    | Some _ => (slot, Some (fs_error "EEXIST" "mkdir" p))
    end).

(** [fs.writeFileSync(p, data)]: creates or replaces a regular file. *)
Definition writeFileSync (p : path) (data : string) : node -> written :=
  fs_update "open" p (fun slot =>
    match slot with
    | Some (Dir _) => (slot, Some (fs_error "EISDIR" "open" p))
    | _ => (Some (File data), None)
    end).

(** fs-extra's [mkdirsSync]: creates the missing directories of [p];
    fails, having created nothing, when a component is a regular file. *)
Fixpoint mkdirs_at (whole p : path) (slot : option node) : thrown + node :=
  match slot with
  | Some (File _) => inl (fs_error "ENOTDIR" "mkdir" whole)
  | _ =>
      let entries := match slot with Some (Dir entries) => entries | _ => [] end in
      match p with
      | [] => inr (Dir entries)
      | k :: p' =>
          match mkdirs_at whole p' (assoc k entries) with
          | inl e => inl e
          | inr c => inr (Dir (assoc_set k c entries))
          end
      end
  end.

Definition mkdirs (p : path) (root : node) : thrown + node :=
  mkdirs_at p p (Some root).

(** fs-extra's [copyDir]: the items of the source directory, in
    [readdir] order, each copied onto the entry of its name; stops at the
    first item that fails, keeping what was written. *)
Section CopyItems.
Variable copy : node -> option node -> node * option thrown.

Fixpoint copy_items (items entries : list (string * node))
    : list (string * node) * option thrown :=
  match items with
  | [] => (entries, None)
  | (k, n) :: items' =>
      match copy n (assoc k entries) with
      | (c, None) => copy_items items' (assoc_set k c entries)
      | (c, Some e) => (assoc_set k c entries, Some e)
      end
  end.
End CopyItems.

(** fs-extra's copy of one entry onto a slot ([getStats], [onFile],
    [onDir]) with the default options: a file replaces a file, a
    directory is merged into a directory entry by entry, a file and a
    directory never replace one another. *)
Fixpoint copy_node (src : node) (dest : option node) : node * option thrown :=
  match src with
  | File data =>
      match dest with
      | Some (Dir entries) =>
          (Dir entries, Some (ThrownError "Error" "EISDIR: illegal operation on a directory"))
      | _ => (File data, None)
      end
  | Dir items =>
      match dest with
      | Some (File data) =>
          (File data, Some (ThrownError "Error" "Cannot overwrite non-directory with directory."))
      | _ =>
          let entries := match dest with Some (Dir entries) => entries | _ => [] end in
          let '(entries', e) := copy_items copy_node items entries in
          (Dir entries', e)
      end
  end.

(** Whether the copy of an entry onto a slot meets no clash: nowhere a
    file where the slot has a directory, nor a directory where it has a
    file. *)
Fixpoint fits (src : node) (dest : option node) : bool :=
  match src with
  | File _ =>
      match dest with
      | Some (Dir _) => false
      | _ => true
      end
  | Dir items =>
      match dest with
      | Some (File _) => false
      | _ =>
          let entries := match dest with Some (Dir entries) => entries | _ => [] end in
          forallb (fun kn => fits (snd kn) (assoc (fst kn) entries)) items
      end
  end.

(** No two entries of a directory bear the same name, at any depth: the
    trees that stand for a file system. *)
Fixpoint unique (names : list string) : bool :=
  match names with
  | [] => true
  | k :: names' => negb (existsb (String.eqb k) names') && unique names'
  end.

Fixpoint well_formed (n : node) : bool :=
  match n with
  | File _ => true
  | Dir entries =>
      unique (map fst entries) && forallb (fun kc => well_formed (snd kc)) entries
  end.

Definition is_dir (n : node) : bool :=
  match n with Dir _ => true | File _ => false end.

Definition parent (p : path) : path := removelast p.

(** [fs.copySync(src, dest)]: [checkPathsSync] (the source exists, is not
    the destination and does not contain it), the parent of the
    destination made if it is missing, then the copy onto [dest]. *)
Definition copySync (src dest : path) (root : node) : written :=
  match find src root with
  | None => (root, Some (fs_error "ENOENT" "lstat" src))
  | Some s =>
      if bool_decide (src = dest) then
        (root, Some (ThrownError "Error" "Source and destination must not be the same."))
      else if is_dir s && bool_decide (src `prefix_of` dest) then
        (root, Some (ThrownError "Error" "Cannot copy to a subdirectory of itself."))
      else
        match (if existsSync (parent dest) root then inr root
               else mkdirs (parent dest) root) with
        | inl e => (root, Some e)
        | inr root1 =>
            fs_update "lstat" dest (fun slot =>
              let '(c, e) := copy_node s slot in (Some c, e)) root1
        end
  end.

(** ** The process: state, events and control

    What a run can be observed to do, in order: lines on the console, the
    questions put to the user and the commands spawned; and the state it
    changes: the file system and the working directory. *)

Inductive event : Type :=
| Stdout (line : string)
| Stderr (v : thrown)
| Asked (type name message : string)
| Spawned (command : string).

Record world : Type := World {
  fs : node;
  cwd : path;
  trace : list event;
}.

Definition emit (ev : event) (w : world) : world :=
  {| fs := fs w; cwd := cwd w; trace := trace w ++ [ev] |}.

Definition set_fs (root : node) (w : world) : world :=
  {| fs := root; cwd := cwd w; trace := trace w |}.

Definition set_cwd (p : path) (w : world) : world :=
  {| fs := fs w; cwd := p; trace := trace w |}.

(** How a computation ends: with a value, with a thrown value, or by
    [process.exit], which no handler catches. *)
Inductive outcome (A : Type) : Type :=
| Ret (a : A)
| Throw (e : thrown)
| Exit (code : Z).

Arguments Ret {A} a.
Arguments Throw {A} e.
Arguments Exit {A} code.

Definition M (A : Type) : Type := world -> world * outcome A.

Definition ret {A} (a : A) : M A := fun w => (w, Ret a).

Definition throw {A} (e : thrown) : M A := fun w => (w, Throw e).

Definition bind {A B} (m : M A) (k : A -> M B) : M B :=
  fun w =>
    match m w with
    | (w', Ret a) => k a w'
    | (w', Throw e) => (w', Throw e)
    | (w', Exit code) => (w', Exit code)
    end.

(** [try { body } catch { handler }] and [promise.catch(handler)]. *)
Definition try_catch {A} (body : M A) (handler : thrown -> M A) : M A :=
  fun w =>
    match body w with
    | (w', Throw e) => handler e w'
    | r => r
    end.

Declare Scope js_scope.
Delimit Scope js_scope with js.
Notation "x <- m ;; k" := (bind m (fun x => k))
  (at level 100, m at next level, right associativity) : js_scope.
Notation "m ;; k" := (bind m (fun _ => k))
  (at level 100, right associativity) : js_scope.
Local Open Scope js_scope.

Definition lift_throw {A} (r : thrown + A) : M A :=
  match r with
  | inl e => throw e
  | inr a => ret a
  end.

(** [list.forEach(f)] *)
Fixpoint forEach {A} (f : A -> M unit) (l : list A) : M unit :=
  match l with
  | [] => ret tt
  | x :: l' => f x ;; forEach f l'
  end.

Definition console_log (line : string) : M unit :=
  fun w => (emit (Stdout line) w, Ret tt).

Definition console_error (v : thrown) : M unit :=
  fun w => (emit (Stderr v) w, Ret tt).

Definition process_exit {A} (code : Z) : M A :=
  fun w => (w, Exit code).

(** A synchronous [fs] call: the file system it leaves, then its throw. *)
Definition fs_call (op : node -> written) : M unit :=
  fun w =>
    match op (fs w) with
    | (root, None) => (set_fs root w, Ret tt)
    | (root, Some e) => (set_fs root w, Throw e)
    end.

Definition fs_existsSync (p : path) : M bool :=
  fun w => (w, Ret (existsSync p (fs w))).

(** [process.chdir(p)] *)
Definition process_chdir (p : path) : M unit :=
  fun w =>
    match stat p (fs w) with
    | Some KDir => (set_cwd p w, Ret tt)
    | Some KFile => (w, Throw (fs_error "ENOTDIR" "chdir" p))
    | None => (w, Throw (fs_error "ENOENT" "chdir" p))
    end.

Definition path_string (p : path) : string := "/" +:+ join "/" p.

(** The tool's own [package.json], read by [require] when the script
    loads. *)
Module Package.
Definition name : string := "create-discord-bot".
Definition version : string := "3.10.2".
End Package.

(** ** The surroundings of a run

    What the script is given and what answers it: the command line, the
    bundled template, the user at the prompts, the network behind [curl],
    [npm] and the engine's own [JSON.parse] and number printing. *)
Record env : Type := Env {
  (* [process.argv] *)
  argv : list string;
  (* [path.join(__dirname, "../app")] *)
  appDir : path;
  (* [require] of the template's [package.json]: its fields *)
  appPackage : list (string * value);
  (* [path.resolve], from the directory the tool is started in *)
  resolve : string -> path;
  (* the answer the user ends up giving to the question of that name,
     [undefined] when the question is cancelled *)
  answers : string -> value;
  (* what a [curl] command line prints, or the error of [execSync] when
     the command fails *)
  curl : string -> thrown + string;
  (* what the shell that [execSync] hands that command line to leaves of
     the file system, from a working directory: [/bin/sh] expands the
     line, also between double quotes, before [curl] runs *)
  shell : string -> path -> node -> node;
  (* [JSON.parse]: the value, or the [SyntaxError] *)
  JSON_parse : string -> thrown + value;
  (* what [npm ci] does to the file system from a working directory *)
  npm_ci : path -> node -> written;
  (* [Number.prototype.toString] *)
  number_to_string : spec_float -> string;
}.

(** ** The script *)

Record Step : Type := {
  message : string;
  ignoreDry : bool;
  action : M unit;
}.

Section Script.
Variable E : env.

(** A template literal around the name or the token, values whose
    ToString returns: the name has gone through [path.resolve] and is a
    string, the token is the answer to a password question, a string or
    [undefined].  (On a value whose ToString throws, which neither of
    them is, [str] is the empty string.) *)
Definition str (v : value) : string :=
  match to_string (number_to_string E) v with
  | inr text => text
  | inl _ => EmptyString
  end.

(** [prompts([{ type, name, message }])], destructured on [name]: the
    answer, or [undefined] when the user cancels.  The initial value and
    the validation loop of a question are the prompt library's: the
    answer is the one it lets through. *)
Definition prompts (type name message : string) : M value :=
  fun w => (emit (Asked type name message) w, Ret (answers E name)).

(** [path.resolve(name)] throws on anything but a string. *)
Definition path_resolve (name : value) : M path :=
  match name with
  | VString s => ret (resolve E s)
  | _ =>
      throw (ThrownError "TypeError"
               "The 'path' argument must be of type string.")
  end.

(** [execSync] of the [curl] command line: the line goes to a shell,
    which may write the file system; then the standard output of the
    command, or the error of a command that could not run or failed. *)
Definition execSync_curl (command : string) : M string :=
  fun w =>
    let w' := set_fs (shell E command (cwd w) (fs w)) (emit (Spawned command) w) in
    match curl E command with
    | inl e => (w', Throw e)
    | inr out => (w', Ret out)
    end.

(** [execSync("npm ci")], in the working directory. *)
Definition execSync_npm_ci : M unit :=
  fun w =>
    let w' := emit (Spawned "npm ci") w in
    match npm_ci E (cwd w') (fs w') with
    | (root, None) => (set_fs root w', Ret tt)
    | (root, Some e) => (set_fs root w', Throw e)
    end.

(** The command line of the probe, a template literal around [token]. *)
Definition curl_command (token : value) : string :=
  "curl -s -X GET -H " +:+ dquote +:+ "Authorization: Bot " +:+ str token
    +:+ dquote +:+ " " +:+ dquote
    +:+ "https://discordapp.com/api/oauth2/applications/@me" +:+ dquote.

Definition getApplicationId (token : value) : M value :=
  try_catch
    (response <- execSync_curl (curl_command token) ;;
     parsedResponse <- lift_throw (JSON_parse E response) ;;
     id <- lift_throw (get_prop parsedResponse "id") ;;
     ret (js_or id VNull))
    (fun _ => ret VNull).

Definition utilityNameAndVersion : string :=
  Package.name +:+ " v" +:+ Package.version.

Definition banner : string :=
  "This utility will walk you through creating a " +:+ Package.name
    +:+ " application." +:+ nl +:+ nl
    +:+ "Press ENTER to use the default." +:+ nl
    +:+ "Press ^C at any time to quit." +:+ nl +:+ nl
    +:+ utilityNameAndVersion.

(** [{ ...appPackage, name, description }] *)
Definition newPackage (name : value) : value :=
  let description := "Generated by " +:+ utilityNameAndVersion +:+ "." in
  VObject (assoc_set "description" (VString description)
             (assoc_set "name" name (appPackage E))).

Definition update_steps (name : value) (dir : path) : list Step :=
  [ {| message := "Updating core files in '" +:+ str name +:+ "'...";
       ignoreDry := false;
       action :=
         fs_call (copySync (appDir E ++ ["src"; "core"]) (dir ++ ["src"; "core"])) ;;
         fs_call (copySync (appDir E ++ ["src"; "index.js"]) (dir ++ ["src"; "index.js"])) |} ].

Definition create_steps (name : value) (dir : path) (token : value) : list Step :=
  [ {| message := "Creating directory '" +:+ str name +:+ "'...";
       ignoreDry := false;
       action := fs_call (mkdirSync dir) |};
    {| message := "Creating boilerplate...";
       ignoreDry := false;
       action :=
         fs_call (copySync (appDir E) dir) ;;
         fs_call (writeFileSync (dir ++ [".gitignore"])
                    ("node_modules/" +:+ nl +:+ "token.json" +:+ nl)) |};
    {| message := "Updating package.json...";
       ignoreDry := false;
       action :=
         fs_call (writeFileSync (dir ++ ["package.json"])
                    (JSON_stringify2 (number_to_string E) (newPackage name) +:+ nl)) |};
    {| message := "Writing token.json...";
       ignoreDry := false;
       action :=
         fs_call (writeFileSync (dir ++ ["token.json"])
                    (JSON_stringify2 (number_to_string E) (VObject [("token", token)])
                       +:+ nl)) |};
    {| message := "Installing modules...";
       ignoreDry := false;
       action := process_chdir dir ;; execSync_npm_ci |};
    {| message := nl +:+ "Generating bot invite link...";
       ignoreDry := true;
       action :=
         applicationId <- getApplicationId token ;;
         line <-
           (if truthy applicationId
            then
              id <- lift_throw (to_string (number_to_string E) applicationId) ;;
              ret ("Invite your bot: https://discordapp.com/oauth2/authorize?scope=bot&client_id="
                     +:+ id)
            else ret "The given bot token was invalid so no link was generated.") ;;
         console_log line |} ].

(** [const [, , ...args] = process.argv; args[0] === "--dry-run"] *)
Definition isDryRun : bool :=
  match argv E with
  | _ :: _ :: arg :: _ => String.eqb arg "--dry-run"
  | _ => false
  end.

(** The body of [steps.forEach]. *)
Definition run_step (dry : bool) (s : Step) : M unit :=
  console_log (message s) ;;
  if ignoreDry s || negb dry then action s else ret tt.

Definition run_steps (dry : bool) (steps : list Step) : M unit :=
  forEach (run_step dry) steps.

(** The steps of the run, once the mode is settled. *)
Definition build_steps (name : value) (dir : path) : M (list Step) :=
  isUpdate <- fs_existsSync dir ;;
  if isUpdate then
    update <-
      prompts "confirm" "update"
        ("Directory '" +:+ path_string dir +:+ "' already exists. Do you want to update it?") ;;
    if negb (truthy update) then
      console_log EmptyString ;;
      throw (ThrownString "Quitting...")
    else ret (update_steps name dir)
  else
    token <- prompts "password" "token" "Discord bot token?" ;;
    ret (create_steps name dir token).

(** The callback of [.then]. *)
Definition scaffold (name : value) : M unit :=
  dir <- path_resolve name ;;
  steps <- build_steps name dir ;;
  console_log EmptyString ;;
  run_steps isDryRun steps ;;
  console_log EmptyString ;;
  console_log
    ("Done!" +:+ nl +:+ nl +:+ "Start by running:" +:+ nl
       +:+ tab +:+ "$ cd " +:+ str name +:+ "/" +:+ nl +:+ tab +:+ "$ npm start") ;;
  process_exit 0.

(** The whole script: the banner, the first question, the callback and
    [.catch(console.error)]. *)
Definition main : M unit :=
  console_log banner ;;
  name <- prompts "text" "name" "Application name?" ;;
  try_catch (scaffold name) console_error.

(** The status the process ends with: that of [process.exit], 0 when
    the script runs out of work, 1 on an exception nobody caught. *)
Definition exit_status (r : outcome unit) : Z :=
  match r with
  | Exit code => code
  | Ret _ => 0
  | Throw _ => 1
  end.

Definition run (w : world) : world * Z :=
  let '(w', r) := main w in (w', exit_status r).
End Script.

(** ** A sample run

    A template of four files, a user who answers the questions, a service
    that knows the token [s3cret] and an [npm] that creates
    [node_modules]; used to evaluate the script on concrete inputs. *)
Module Sample.
Definition manifest : list (string * value) :=
  [ ("name", VString "discord-bot");
    ("version", VString "1.0.0");
    ("description", VString "A bot.");
    ("scripts", VObject [ ("start", VString "node src/index.js") ]);
    ("dependencies", VObject [ ("discord.js", VString "^12.3.1") ]) ].

(** The double 123. *)
Definition d123 : spec_float := S754_finite false 8655355533852672 (-46).

Definition print_number (x : spec_float) : string :=
  match x with
  | S754_zero _ => "0"
  | S754_finite false 8655355533852672 (-46) => "123"
  | _ => "NaN"
  end.

Definition template : node :=
  Dir [ ("package.json", File (JSON_stringify2 print_number (VObject manifest) +:+ nl));
        ("README.md", File "# bot");
        ("src", Dir [ ("index.js", File "require('./core');");
                      ("core", Dir [ ("client.js", File "module.exports = {};") ]) ]) ].

(** A disk with the tool installed under [/opt/tool] and an empty
    working directory [/home/me]. *)
Definition disk : node :=
  Dir [ ("opt", Dir [ ("tool", Dir [ ("app", template) ]) ]);
        ("home", Dir [ ("me", Dir []) ]) ].

(** The same disk after an earlier run created [/home/me/my-bot], to
    which the user added a file of their own. *)
Definition disk_with_project : node :=
  Dir [ ("opt", Dir [ ("tool", Dir [ ("app", template) ]) ]);
        ("home", Dir [ ("me", Dir [ ("my-bot",
           Dir [ ("notes.txt", File "mine");
                 ("src", Dir [ ("index.js", File "old");
                               ("widgets", Dir [ ("hello.js", File "mine too") ]) ]) ]) ]) ]) ].

Definition start (root : node) : world :=
  {| fs := root; cwd := ["home"; "me"]; trace := [] |}.

Definition id_response : string :=
  "{" +:+ dquote +:+ "id" +:+ dquote +:+ ": " +:+ dquote +:+ "42" +:+ dquote +:+ "}".

Definition numeric_id_response : string :=
  "{" +:+ dquote +:+ "id" +:+ dquote +:+ ": 123}".

Definition unauthorized_response : string :=
  "{" +:+ dquote +:+ "message" +:+ dquote +:+ ": " +:+ dquote +:+ "401: Unauthorized"
    +:+ dquote +:+ ", " +:+ dquote +:+ "code" +:+ dquote +:+ ": 0}".

(** [JSON.parse] on the bodies above; anything else is taken for a
    body that is not JSON. *)
Definition parse (body : string) : thrown + value :=
  if String.eqb body id_response then inr (VObject [("id", VString "42")])
  else if String.eqb body numeric_id_response then inr (VObject [("id", VNumber d123)])
  else if String.eqb body unauthorized_response then
    inr (VObject [("message", VString "401: Unauthorized"); ("code", VNumber (S754_zero false))])
  else if String.eqb body "null" then inr VNull
  else inl (ThrownError "SyntaxError" "Unexpected token in JSON").

Definition install (dir : path) (root : node) : written :=
  fs_update "mkdir" (dir ++ ["node_modules"]) (fun _ => (Some (Dir []), None)) root.

(** The surroundings, by what the service answers. *)
Definition surroundings (args : list string) (update : value)
    (service : string -> thrown + string) : env :=
  {| argv := "node" :: "index.js" :: args;
     appDir := ["opt"; "tool"; "app"];
     appPackage := manifest;
     resolve := fun name => ["home"; "me"; name];
     answers := fun question =>
       if String.eqb question "name" then VString "my-bot"
       else if String.eqb question "update" then update
       else if String.eqb question "token" then VString "s3cret"
       else VUndefined;
     curl := service;
     shell := fun _ _ root => root;
     JSON_parse := parse;
     npm_ci := install;
     number_to_string := print_number |}.

Definition accepting : string -> thrown + string := fun _ => inr id_response.
Definition rejecting : string -> thrown + string := fun _ => inr unauthorized_response.
Definition numeric : string -> thrown + string := fun _ => inr numeric_id_response.
Definition offline : string -> thrown + string :=
  fun _ => inl (ThrownError "Error" "Command failed: curl").
Definition garbled : string -> thrown + string := fun _ => inr "<html>".
End Sample.

(** ** What is observed of a file system *)

(** What one sees of an entry without descending into it. *)
Inductive entry : Type :=
| EFile (data : string)
| EDir.

Definition shallow (n : node) : entry :=
  match n with File data => EFile data | Dir _ => EDir end.

Definition find_in (p : path) (slot : option node) : option node :=
  match slot with Some n => find p n | None => None end.

Definition look (p : path) (root : node) : option entry := shallow <$> find p root.

(** The directories above [p] exist. *)
Fixpoint reachable (p : path) (slot : option node) : bool :=
  match p with
  | [] => true
  | k :: p' =>
      match slot with
      | Some (Dir entries) => reachable p' (assoc k entries)
      | _ => false
      end
  end.

(** ** What is observed of a computation *)

(** What the specification calls a CredentialProbeResult: [null] or a
    string. *)
Definition probe_result (v : value) : Prop :=
  v = VNull \/ exists s, v = VString s.

(** What the probe returns, by what the command, the parser and the
    property access give. *)
Definition probe (E : env) (token : value) : value :=
  match curl E (curl_command E token) with
  | inl _ => VNull
  | inr response =>
      match JSON_parse E response with
      | inl _ => VNull
      | inr parsed =>
          match get_prop parsed "id" with
          | inl _ => VNull
          | inr id => js_or id VNull
          end
      end
  end.

(** The world the probe leaves: its command line spawned, and the file
    system as the shell of that line left it. *)
Definition after_probe (E : env) (token : value) (w : world) : world :=
  {| fs := shell E (curl_command E token) (cwd w) (fs w);
     cwd := cwd w;
     trace := trace w ++ [Spawned (curl_command E token)] |}.

(** A computation is calm for a relation [R] on worlds when it never
    calls [process.exit] and takes every world to an [R]-related one. *)
Definition calm {A} (R : world -> world -> Prop) (m : M A) : Prop :=
  forall w w' r, m w = (w', r) -> R w w' /\ forall code, r <> Exit code.

(** A relation [R] that a computation keeps however it ends, also by
    [process.exit]. *)
Definition keeps {A} (R : world -> world -> Prop) (m : M A) : Prop :=
  forall w w' r, m w = (w', r) -> R w w'.

(** The only status a computation exits with. *)
Definition exits_only {A} (code0 : Z) (m : M A) : Prop :=
  forall w w' code, m w = (w', Exit code) -> code = code0.

(** The questions in a trace. *)
Definition is_question (ev : event) : bool :=
  match ev with Asked _ _ _ => true | _ => false end.

Definition asked (t : list event) : list event := List.filter is_question t.

(** The questions put so far are the same. *)
Definition same_questions (w w' : world) : Prop :=
  asked (trace w') = asked (trace w).

Definition anything (w w' : world) : Prop := True.

(** The world in which the callback of [.then] starts. *)
Definition after_first_question (w : world) : world :=
  emit (Asked "text" "name" "Application name?") (emit (Stdout banner) w).

(** ** The specification's own words *)

(** The policy in the words of the specification: in the order of the
    list, each step prints its message, then performs its action only if
    [!dryRun || step.ignoreDry]. *)
Inductive command : Type :=
| Print (line : string)
| Perform (a : M unit).

Definition spec_plan (dryRun : bool) (steps : list Step) : list command :=
  flat_map
    (fun step =>
       Print (message step)
         :: (if negb dryRun || ignoreDry step then [Perform (action step)] else []))
    steps.

Definition perform (c : command) : M unit :=
  match c with
  | Print line => console_log line
  | Perform a => a
  end.

Definition spec_pipeline (dryRun : bool) (steps : list Step) : M unit :=
  forEach perform (spec_plan dryRun steps).

Definition printed (plan : list command) : list string :=
  flat_map (fun c => match c with Print line => [line] | Perform _ => [] end) plan.

Definition performed (plan : list command) : list (M unit) :=
  flat_map (fun c => match c with Print _ => [] | Perform a => [a] end) plan.

(** The text of the ignore-file, by its lines. *)
Definition ignore_lines : list string := ["node_modules/"; "token.json"].

(** ** The check of the name question

    The [validate] callback of the first question.  What
    [validate-npm-package-name] answers is a record of a flag and two
    lists of messages, each present only when it has a message. *)

Record validation : Type := {
  validForNewPackages : bool;
  errors : option (list string);
  warnings : option (list string);
}.

(** [validForNewPackages || `Error: ${(errors || warnings).join(", ")}.`]:
    [true], or the message; an array, even an empty one, is truthy, and
    [join] on [undefined] is a [TypeError]. *)
Definition validate (validateName : string -> validation) (name : string)
    : thrown + value :=
  let result := validateName name in
  if validForNewPackages result then inr (VBool true)
  else
    match (match errors result with Some l => Some l | None => warnings result end) with
    | Some l => inr (VString ("Error: " +:+ join ", " l +:+ "."))
    | None =>
        inl (ThrownError "TypeError" "Cannot read property 'join' of undefined")
    end.

(** What the library answers on three kinds of names: the empty name is
    an error, the name of a core module a warning, and [my-bot] and the
    like are fine. *)
Definition validateName_sample (name : string) : validation :=
  if String.eqb name EmptyString then
    {| validForNewPackages := false;
       errors := Some ["name length must be greater than zero"];
       warnings := None |}
  else if String.eqb name "http" then
    {| validForNewPackages := false;
       errors := None;
       warnings := Some ["http is a core module name"] |}
  else {| validForNewPackages := true; errors := None; warnings := None |}.

(** ** More to observe *)

(** The last line of a run that succeeds. *)
Definition done_message (name : string) : string :=
  "Done!" +:+ nl +:+ nl +:+ "Start by running:" +:+ nl
    +:+ tab +:+ "$ cd " +:+ name +:+ "/" +:+ nl +:+ tab +:+ "$ npm start".

(** The line the invite-link step prints for what the probe returned,
    or what the template literal throws. *)
Definition invite_line (E : env) (applicationId : value) : thrown + string :=
  if truthy applicationId
  then
    match to_string (number_to_string E) applicationId with
    | inr id =>
        inr ("Invite your bot: https://discordapp.com/oauth2/authorize?scope=bot&client_id="
               +:+ id)
    | inl e => inl e
    end
  else inr "The given bot token was invalid so no link was generated.".

(** The events of a run up to its steps: the banner and the two
    questions of a new project, or of an update. *)
Definition create_prelude : list event :=
  [ Stdout banner;
    Asked "text" "name" "Application name?";
    Asked "password" "token" "Discord bot token?";
    Stdout EmptyString ].

Definition update_prelude (dir : path) : list event :=
  [ Stdout banner;
    Asked "text" "name" "Application name?";
    Asked "confirm" "update"
      ("Directory '" +:+ path_string dir +:+ "' already exists. Do you want to update it?");
    Stdout EmptyString ].

(** What a new project's first five steps leave on the trace when each
    of them is run. *)
Definition create_progress (name : string) : list event :=
  [ Stdout ("Creating directory '" +:+ name +:+ "'...");
    Stdout "Creating boilerplate...";
    Stdout "Updating package.json...";
    Stdout "Writing token.json...";
    Stdout "Installing modules...";
    Spawned "npm ci" ].

(** Neither path leads to the other. *)
Definition apart (p q : path) : Prop := ~ p `prefix_of` q /\ ~ q `prefix_of` p.

(** More surroundings for the sample: another [npm], other answers. *)
Definition with_npm_ci (npm : path -> node -> written) (E : env) : env :=
  {| argv := argv E;
     appDir := appDir E;
     appPackage := appPackage E;
     resolve := resolve E;
     answers := answers E;
     curl := curl E;
     shell := shell E;
     JSON_parse := JSON_parse E;
     npm_ci := npm;
     number_to_string := number_to_string E |}.

Definition with_answers (user : string -> value) (E : env) : env :=
  {| argv := argv E;
     appDir := appDir E;
     appPackage := appPackage E;
     resolve := resolve E;
     answers := user;
     curl := curl E;
     shell := shell E;
     JSON_parse := JSON_parse E;
     npm_ci := npm_ci E;
     number_to_string := number_to_string E |}.

(** Another service, parser and shell behind the probe. *)
Definition with_probe (service : string -> thrown + string)
    (parser : string -> thrown + value) (sh : string -> path -> node -> node)
    (E : env) : env :=
  {| argv := argv E;
     appDir := appDir E;
     appPackage := appPackage E;
     resolve := resolve E;
     answers := answers E;
     curl := service;
     shell := sh;
     JSON_parse := parser;
     npm_ci := npm_ci E;
     number_to_string := number_to_string E |}.

(** The answer [{"id": {"toString": 123}}] of a service, parsed: an
    [id] that is truthy and has no text. *)
Definition textless_id : value :=
  VObject [("id", VObject [("toString", VNumber Sample.d123)])].

(** A user whose token holds a command substitution, and the shell on
    the command line made from it: the directory is made before [curl]
    runs. *)
Definition substituting_user (question : string) : value :=
  if String.eqb question "name" then VString "my-bot"
  else if String.eqb question "token" then VString "$(mkdir made-by-token)"
  else VUndefined.

Definition substituting_shell (command : string) (dir : path) (root : node) : node :=
  fst (mkdirSync (dir ++ ["made-by-token"]) root).

(** An [npm ci] that fails. *)
Definition failing_npm_ci (dir : path) (root : node) : written :=
  (root, Some (ThrownError "Error" "Command failed: npm ci")).


(** * Properties of the model *)

(** ** Association lists and paths *)

(** Membership in a list that is written out. *)
Ltac in_list := repeat first [apply list_elem_of_here | apply list_elem_of_further].

Lemma assoc_set_eq {A} k (v : A) l : assoc k (assoc_set k v l) = Some v.
Proof.
  induction l as [| [k' v'] l IH]; cbn.
  - by rewrite String.eqb_refl.
  - destruct (String.eqb k k') eqn:Hk; cbn; rewrite ?String.eqb_refl, ?Hk; done.
Qed.

Lemma assoc_set_ne {A} k k' (v : A) l : k <> k' -> assoc k' (assoc_set k v l) = assoc k' l.
Proof.
  intros Hne. induction l as [| [k0 v0] l IH]; cbn.
  - destruct (String.eqb_spec k' k); [congruence | done].
  - destruct (String.eqb_spec k k0) as [-> | Hk0]; cbn.
    + destruct (String.eqb_spec k' k0); [congruence | done].
    + destruct (String.eqb_spec k' k0); [done | apply IH].
Qed.

Lemma assoc_app {A} k (l1 l2 : list (string * A)) :
  assoc k (l1 ++ l2) = match assoc k l1 with Some v => Some v | None => assoc k l2 end.
Proof.
  induction l1 as [| [k' v'] l1 IH]; cbn; [done |].
  by destruct (String.eqb k k').
Qed.

Lemma assoc_set_fresh {A} k (v : A) l : assoc k l = None -> assoc_set k v l = l ++ [(k, v)].
Proof.
  induction l as [| [k' v'] l IH]; cbn; [done |].
  destruct (String.eqb k k'); [discriminate |]. intros H. by rewrite IH.
Qed.

Lemma assoc_elem {A} k (v : A) l : assoc k l = Some v -> (k, v) ∈ l.
Proof.
  induction l as [| [k' v'] l IH]; cbn; [discriminate |].
  destruct (String.eqb_spec k k') as [-> | _].
  - intros [= ->]. apply list_elem_of_here.
  - intros H. apply list_elem_of_further, IH, H.
Qed.

Lemma assoc_set_keys {A} k (v : A) l :
  is_Some (assoc k l) -> map fst (assoc_set k v l) = map fst l.
Proof.
  induction l as [| [k' v'] l IH]; cbn; [by intros [? ?] |].
  destruct (String.eqb_spec k k') as [-> | Hne]; [done |].
  intros H. cbn. by rewrite IH.
Qed.

Lemma unique_cons k names :
  unique (k :: names) = true ->
  unique names = true /\ Forall (fun k' => k' <> k) names.
Proof.
  cbn. intros [Hk Hu]%andb_prop. split; [done |].
  apply negb_true_iff in Hk. apply List.Forall_forall. intros k' Hin ->.
  assert (existsb (String.eqb k) names = true); [| congruence].
  apply existsb_exists. exists k. split; [done | apply String.eqb_refl].
Qed.

Lemma removelast_snoc {A} (l : list A) (a b : A) : removelast (l ++ [a; b]) = l ++ [a].
Proof. rewrite removelast_app by discriminate. reflexivity. Qed.

Lemma removelast_snoc1 {A} (l : list A) (a : A) : removelast (l ++ [a]) = l.
Proof. rewrite removelast_app by discriminate. cbn. apply app_nil_r. Qed.

Lemma parent_prefix (p : path) : parent p `prefix_of` p.
Proof.
  unfold parent. destruct p as [| k p] using rev_ind; [done |].
  rewrite removelast_snoc1. by apply prefix_app_r.
Qed.

Lemma prefix_snoc_cases {A} (q l : list A) (a : A) :
  q `prefix_of` l ++ [a] -> q `prefix_of` l \/ q = l ++ [a].
Proof.
  intros [k Hk]. destruct k as [| x k _] using rev_ind.
  - right. by rewrite app_nil_r in Hk.
  - left. rewrite app_assoc in Hk. apply app_inj_tail in Hk as [-> _].
    by apply prefix_app_r.
Qed.

Lemma prefix_diverge (l r : path) (a b c : string) :
  b <> c -> ~ (l ++ [a; b]) `prefix_of` (l ++ [a; c] ++ r).
Proof.
  intros Hne H. apply prefix_app_inv, prefix_cons_inv_2, prefix_cons_inv_1 in H. done.
Qed.

Lemma not_prefix_sibling (l r : path) (b c : string) :
  b <> c -> ~ (l ++ [b]) `prefix_of` (l ++ [c] ++ r).
Proof. intros Hne H. apply prefix_app_inv, prefix_cons_inv_1 in H. done. Qed.

Lemma not_prefix_outside (l : path) (b : string) (q : path) :
  ~ l `prefix_of` q -> ~ (l ++ [b]) `prefix_of` q.
Proof. intros Hq H. apply Hq. by eapply prefix_app_l. Qed.

(** ** The text of [JSON.stringify] *)

Lemma append_assoc (a b c : string) : (a +:+ b) +:+ c = a +:+ b +:+ c.
Proof. induction a as [| x a IH]; [done |]. cbv [String.append] in *. by rewrite IH. Qed.

Lemma join_indented (sep indent : string) (parts : list string) :
  parts <> [] ->
  indent +:+ join (sep +:+ indent) parts = join sep (map (String.append indent) parts).
Proof.
  induction parts as [| p [| q rest] IH]; intros Hne; [done | done |].
  change (join (sep +:+ indent) (p :: q :: rest))
    with (p +:+ (sep +:+ indent) +:+ join (sep +:+ indent) (q :: rest)).
  change (join sep (map (String.append indent) (p :: q :: rest)))
    with ((indent +:+ p) +:+ sep +:+ join sep (map (String.append indent) (q :: rest))).
  rewrite <- IH by done. by rewrite !append_assoc.
Qed.

(** With a gap of two spaces, the pieces of a top-level object or array
    that has some stand one per line, each behind two spaces. *)
Lemma layout_two_spaces (open close : string) (parts : list string) :
  parts <> [] ->
  layout "  " open close EmptyString parts =
    open +:+ nl +:+ join ("," +:+ nl) (map (String.append "  ") parts) +:+ nl +:+ close.
Proof.
  intros Hne. unfold layout. destruct parts as [| p rest]; [done |].
  change (String.eqb "  " EmptyString) with false. cbv iota.
  change (EmptyString +:+ "  ") with "  ".
  change (EmptyString +:+ close) with close.
  rewrite <- (join_indented ("," +:+ nl) "  " (p :: rest)) by done.
  by rewrite !append_assoc.
Qed.

Lemma members_nonempty gap ser fields k v :
  assoc k fields = Some v -> is_Some (ser v) -> members gap ser fields <> [].
Proof.
  induction fields as [| [k' v'] fields IH]; cbn; [discriminate |].
  destruct (String.eqb k k').
  - intros [= ->] [text ->]. discriminate.
  - intros Hk Hv. destruct (ser v'); [discriminate | by apply IH].
Qed.

(** The text of the token file. *)
Lemma token_text (number_to_string : spec_float -> string) (token : string) :
  JSON_stringify2 number_to_string (VObject [("token", VString token)]) +:+ nl =
    "{" +:+ nl +:+ "  " +:+ quote "token" +:+ ": " +:+ quote token +:+ nl +:+ "}" +:+ nl.
Proof.
  unfold JSON_stringify2. cbn [serialize members default].
  unfold layout, member.
  change (String.eqb "  " EmptyString) with false. cbv iota.
  change (EmptyString +:+ "  ") with "  ". cbn [join].
  change (EmptyString +:+ "}") with "}". unfold id.
  rewrite !append_assoc. reflexivity.
Qed.

(** ** The file system: looking up *)

Lemma node_ind' (P : node -> Prop) :
  (forall data, P (File data)) ->
  (forall entries, Forall (fun kc => P kc.2) entries -> P (Dir entries)) ->
  forall n, P n.
Proof.
  intros HF HD. fix IH 1. intros [data | entries]; [apply HF | apply HD].
  induction entries as [| kc entries IHentries]; constructor; [apply IH | exact IHentries].
Qed.

Lemma find_cons k p entries : find (k :: p) (Dir entries) = find_in p (assoc k entries).
Proof. cbn. by destruct (assoc k entries). Qed.

Lemma find_app p r root : find (p ++ r) root = find_in r (find p root).
Proof.
  revert root. induction p as [| k p IH]; intros root; [done |].
  destruct root as [data | entries]; cbn; [done |].
  destruct (assoc k entries); [apply IH | done].
Qed.

Lemma find_in_nil slot : find_in [] slot = slot.
Proof. by destruct slot. Qed.

Lemma find_child dir k root entries :
  find dir root = Some (Dir entries) -> find (dir ++ [k]) root = assoc k entries.
Proof. intros H. rewrite find_app, H. cbn. by destruct (assoc k entries). Qed.

Lemma find_file_below p r root data :
  find p root = Some (File data) -> r <> [] -> find (p ++ r) root = None.
Proof. intros H Hr. rewrite find_app, H. by destruct r. Qed.

Lemma read_file_look p root :
  read_file p root = match look p root with Some (EFile data) => Some data | _ => None end.
Proof. unfold read_file, look. by destruct (find p root) as [[] |]. Qed.

Lemma stat_look p root :
  stat p root = (fun e => match e with EFile _ => KFile | EDir => KDir end) <$> look p root.
Proof. unfold stat, look. by destruct (find p root) as [[] |]. Qed.

Lemma existsSync_look p root : existsSync p root = true <-> is_Some (look p root).
Proof.
  unfold existsSync, look. destruct (find p root); cbn; split; eauto.
  - intros; discriminate.
  - by intros [? ?].
Qed.

Lemma stat_dir p root :
  stat p root = Some KDir -> exists entries, find p root = Some (Dir entries).
Proof. unfold stat. destruct (find p root) as [[data | entries] |]; try done. eauto. Qed.

Lemma stat_find_dir p root entries : find p root = Some (Dir entries) -> stat p root = Some KDir.
Proof. unfold stat. by intros ->. Qed.

Lemma stat_by_look p root root' : look p root' = look p root -> stat p root' = stat p root.
Proof. intros H. by rewrite !stat_look, H. Qed.

Lemma read_by_look p root root' :
  look p root' = look p root -> read_file p root' = read_file p root.
Proof. intros H. by rewrite !read_file_look, H. Qed.

Lemma stat_child_of dir k root items :
  find dir root = Some (Dir items) ->
  (forall entries, assoc k items <> Some (Dir entries)) ->
  stat (dir ++ [k]) root <> Some KDir.
Proof.
  intros Hdir Hk. unfold stat. rewrite (find_child _ _ _ _ Hdir).
  destruct (assoc k items) as [[data | entries] |]; try done. by destruct (Hk entries).
Qed.

Lemma look_prefix p q root :
  is_Some (look p root) -> q `prefix_of` p -> is_Some (look q root).
Proof.
  unfold look. intros Hp [k ->]. rewrite find_app in Hp.
  destruct (find q root); [by eexists | by destruct Hp].
Qed.

Lemma well_formed_child k c entries :
  well_formed (Dir entries) = true -> assoc k entries = Some c -> well_formed c = true.
Proof.
  cbn. intros [_ Hall]%andb_prop Hk.
  rewrite forallb_forall in Hall. apply (Hall (k, c)).
  apply list_elem_of_In, assoc_elem, Hk.
Qed.

Lemma well_formed_find p root s :
  well_formed root = true -> find p root = Some s -> well_formed s = true.
Proof.
  revert root. induction p as [| k p IH]; intros root Hwf H; cbn in H.
  - by injection H as <-.
  - destruct root as [data | entries]; [discriminate |].
    destruct (assoc k entries) as [c |] eqn:Hk; [| discriminate].
    apply (IH c); [by eapply well_formed_child | done].
Qed.

(** ** The file system: what an operation leaves alone *)

(** An update at [p] is seen only at [p] and below. *)
Lemma update_at_frame fail p f slot slot' e q :
  update_at fail p f slot = (slot', e) ->
  ~ p `prefix_of` q ->
  shallow <$> find_in q slot' = shallow <$> find_in q slot.
Proof.
  revert slot slot' e q. induction p as [| k p IH]; intros slot slot' e q H Hq.
  { destruct Hq. apply prefix_nil. }
  cbn in H. destruct slot as [[data | entries] |]; try by injection H as <- <-.
  destruct (update_at fail p f (assoc k entries)) as [[c |] e'] eqn:Hu;
    injection H as <- <-; [| done].
  destruct q as [| k' q]; [done |]. cbn [find_in]. rewrite !find_cons.
  destruct (decide (k = k')) as [<- | Hne].
  - rewrite assoc_set_eq. apply (IH _ _ _ _ Hu).
    intros Hp. apply Hq. by apply prefix_cons.
  - by rewrite assoc_set_ne.
Qed.

Lemma fs_update_frame syscall p f root root' e q :
  fs_update syscall p f root = (root', e) ->
  ~ p `prefix_of` q ->
  look q root' = look q root.
Proof.
  unfold fs_update. intros H Hq.
  destruct (update_at _ p f (Some root)) as [[r |] e'] eqn:Hu; injection H as <- <-; [| done].
  apply (update_at_frame _ _ _ _ _ _ _ Hu Hq).
Qed.

Lemma update_at_apart fail p f slot slot' e q :
  update_at fail p f slot = (slot', e) ->
  ~ p `prefix_of` q -> ~ q `prefix_of` p ->
  find_in q slot' = find_in q slot.
Proof.
  revert slot slot' e q. induction p as [| k p IH]; intros slot slot' e q H Hpq Hqp.
  { destruct Hpq. apply prefix_nil. }
  cbn in H. destruct slot as [[data | entries] |]; try by injection H as <- <-.
  destruct (update_at fail p f (assoc k entries)) as [[c |] e'] eqn:Hu;
    injection H as <- <-; [| done].
  destruct q as [| k' q]; [destruct Hqp; apply prefix_nil |].
  cbn [find_in]. rewrite !find_cons.
  destruct (decide (k = k')) as [<- | Hne].
  - rewrite assoc_set_eq. apply (IH _ _ _ _ Hu).
    + intros Hp. apply Hpq. by apply prefix_cons.
    + intros Hp. apply Hqp. by apply prefix_cons.
  - by rewrite assoc_set_ne.
Qed.

Lemma fs_update_apart syscall p f root root' e q :
  fs_update syscall p f root = (root', e) ->
  ~ p `prefix_of` q -> ~ q `prefix_of` p ->
  find q root' = find q root.
Proof.
  unfold fs_update. intros H Hpq Hqp.
  destruct (update_at _ p f (Some root)) as [[r |] e'] eqn:Hu; injection H as <- <-; [| done].
  apply (update_at_apart _ _ _ _ _ _ _ Hu Hpq Hqp).
Qed.

(** [mkdirs] adds directories along its path and changes nothing else. *)
Lemma mkdirs_at_frame whole p slot n q :
  mkdirs_at whole p slot = inr n ->
  shallow <$> find q n = shallow <$> find_in q slot
  \/ (find_in q slot = None /\ shallow <$> find q n = Some EDir /\ q `prefix_of` p).
Proof.
  revert slot n q. induction p as [| k p IH]; intros slot n q H.
  - destruct slot as [[data | entries] |]; cbn in H; [discriminate | |];
      injection H as <-.
    + by left.
    + destruct q as [| k' q]; [right | by left].
      split; [done |]. split; [done | apply prefix_nil].
  - destruct slot as [[data | entries] |]; cbn in H; [discriminate | |].
    + destruct (mkdirs_at whole p (assoc k entries)) as [e | c] eqn:Hm; [discriminate |].
      injection H as <-. destruct q as [| k' q]; [by left |].
      cbn [find_in]. rewrite !find_cons.
      destruct (decide (k = k')) as [<- | Hne].
      * rewrite assoc_set_eq. cbn [find_in].
        destruct (IH _ _ q Hm) as [Heq | (Hnone & Hdir & Hpre)]; [by left | right].
        split; [done |]. split; [done | by apply prefix_cons].
      * rewrite assoc_set_ne by done. by left.
    + destruct (mkdirs_at whole p None) as [e | c] eqn:Hm; [discriminate |].
      injection H as <-. change [(k, c)] with (assoc_set k c []).
      destruct q as [| k' q].
      { right. split; [done |]. split; [done | apply prefix_nil]. }
      cbn [find_in]. rewrite find_cons.
      destruct (decide (k = k')) as [<- | Hne].
      * rewrite assoc_set_eq. cbn [find_in].
        destruct (IH _ _ q Hm) as [Heq | (Hnone & Hdir & Hpre)]; [by left | right].
        split; [done |]. split; [done | by apply prefix_cons].
      * rewrite assoc_set_ne by done. by left.
Qed.

Lemma mkdirs_frame p root root' q :
  mkdirs p root = inr root' ->
  look q root' = look q root
  \/ (look q root = None /\ look q root' = Some EDir /\ q `prefix_of` p).
Proof.
  unfold mkdirs, look. intros H.
  destruct (mkdirs_at_frame _ _ _ _ q H) as [Heq | (Hnone & Hdir & Hpre)]; [by left | right].
  cbn in Hnone. rewrite Hnone. done.
Qed.

(** [copySync] is seen only at its destination and below, but for the
    directories it makes on the way there. *)
Lemma copySync_frame src dest root root' e q :
  copySync src dest root = (root', e) ->
  ~ dest `prefix_of` q ->
  look q root' = look q root
  \/ (look q root = None /\ look q root' = Some EDir /\ q `prefix_of` parent dest).
Proof.
  unfold copySync. intros H Hq.
  destruct (find src root) as [s |]; [| injection H as <- <-; by left].
  destruct (bool_decide (src = dest)); [injection H as <- <-; by left |].
  destruct (is_dir s && bool_decide (src `prefix_of` dest));
    [injection H as <- <-; by left |].
  destruct (existsSync (parent dest) root).
  - left. by eapply fs_update_frame.
  - destruct (mkdirs (parent dest) root) as [e' | root1] eqn:Hm;
      [injection H as <- <-; by left |].
    rewrite (fs_update_frame _ _ _ _ _ _ q H Hq).
    apply (mkdirs_frame _ _ _ _ Hm).
Qed.

(** ** The file system: what an operation brings *)

(** An update that does not fail is seen at its path. *)
Lemma update_at_hit fail p f slot slot' :
  (forall x, is_Some (f x).1) ->
  update_at fail p f slot = (slot', None) ->
  find_in p slot' = (f (find_in p slot)).1 /\ (f (find_in p slot)).2 = None.
Proof.
  intros Hf. revert slot slot'. induction p as [| k p IH]; intros slot slot' H.
  - cbn in H. rewrite !find_in_nil, H. done.
  - cbn in H. destruct slot as [[data | entries] |]; try discriminate.
    destruct (update_at fail p f (assoc k entries)) as [[c |] e] eqn:Hu;
      injection H as <- ->.
    + cbn [find_in]. rewrite !find_cons, assoc_set_eq. apply (IH _ _ Hu).
    + destruct (IH _ _ Hu) as [Hnone _]. destruct (Hf (find_in p (assoc k entries))) as [c Hc].
      rewrite Hc in Hnone. destruct p; discriminate.
Qed.

Lemma reachable_child dir k slot entries :
  find_in dir slot = Some (Dir entries) -> reachable (dir ++ [k]) slot = true.
Proof.
  revert slot. induction dir as [| k0 dir IH]; intros slot H.
  - rewrite find_in_nil in H. by subst slot.
  - destruct slot as [[data | es] |]; try discriminate.
    cbn [find_in] in H. rewrite find_cons in H. by apply IH.
Qed.

Lemma reachable_found p slot : is_Some (find_in p slot) -> reachable p slot = true.
Proof.
  revert slot. induction p as [| k p IH]; intros slot [n H]; [done |].
  destruct slot as [[data | es] |]; try discriminate.
  cbn [find_in] in H. rewrite find_cons in H. apply IH. by eexists.
Qed.

Lemma update_at_ok fail p f slot c :
  reachable p slot = true ->
  f (find_in p slot) = (Some c, None) ->
  exists n, update_at fail p f slot = (Some n, None).
Proof.
  revert slot. induction p as [| k p IH]; intros slot Hr Hf.
  - rewrite find_in_nil in Hf. cbn. eauto.
  - destruct slot as [[data | es] |]; try discriminate.
    cbn [find_in] in Hf. rewrite find_cons in Hf.
    destruct (IH _ Hr Hf) as [n Hn]. cbn. rewrite Hn. eauto.
Qed.

Lemma fs_update_ok syscall p f root c :
  reachable p (Some root) = true ->
  (forall x, is_Some (f x).1) ->
  f (find p root) = (Some c, None) ->
  exists root',
    fs_update syscall p f root = (root', None)
    /\ find p root' = Some c
    /\ forall q, ~ p `prefix_of` q -> look q root' = look q root.
Proof.
  intros Hr Hsome Hf. unfold fs_update.
  destruct (update_at_ok (fun code => fs_error code syscall p) p f (Some root) c Hr Hf)
    as [n Hn].
  exists n. rewrite Hn. split; [done |].
  destruct (update_at_hit _ _ _ _ _ Hsome Hn) as [Hfind _]. cbn [find_in] in Hfind.
  split; [by rewrite Hfind, Hf |].
  intros q Hq. apply (update_at_frame _ _ _ _ _ _ q Hn Hq).
Qed.

(** Writing a file in an existing directory, over anything but a
    directory: the file is there, every other file reads as before. *)
Lemma writeFileSync_child dir k data root :
  stat dir root = Some KDir ->
  stat (dir ++ [k]) root <> Some KDir ->
  exists root',
    writeFileSync (dir ++ [k]) data root = (root', None)
    /\ read_file (dir ++ [k]) root' = Some data
    /\ (forall q, q <> dir ++ [k] -> read_file q root' = read_file q root)
    /\ (forall q, ~ (dir ++ [k]) `prefix_of` q -> look q root' = look q root).
Proof.
  intros Hdir Hk. destruct (stat_dir _ _ Hdir) as [entries Hentries].
  unfold writeFileSync.
  match goal with
  | |- context [fs_update _ _ ?f _] =>
      destruct (fs_update_ok "open" (dir ++ [k]) f root (File data))
        as (root' & Hw & Hfind & Hframe)
  end.
  - by eapply (reachable_child dir k (Some root)).
  - intros [[] |]; by eexists.
  - unfold stat in Hk. by destruct (find (dir ++ [k]) root) as [[] |].
  - exists root'. split; [exact Hw |].
    split; [unfold read_file; by rewrite Hfind |]. split; [| exact Hframe].
    intros q Hq. destruct (decide ((dir ++ [k]) `prefix_of` q)) as [[r ->] | Hpre].
    + assert (r <> []) by (intros ->; by rewrite app_nil_r in Hq).
      unfold read_file. rewrite (find_file_below _ r _ _ Hfind) by done.
      rewrite find_app. unfold stat in Hk.
      destruct (find (dir ++ [k]) root) as [[] |]; try done; by destruct r.
    + by rewrite !read_file_look, Hframe.
Qed.

(** Making a directory that does not exist in one that does. *)
Lemma mkdirSync_child dir k root :
  stat dir root = Some KDir ->
  existsSync (dir ++ [k]) root = false ->
  exists root',
    mkdirSync (dir ++ [k]) root = (root', None)
    /\ find (dir ++ [k]) root' = Some (Dir [])
    /\ (forall q, ~ (dir ++ [k]) `prefix_of` q -> look q root' = look q root)
    /\ (forall q, ~ (dir ++ [k]) `prefix_of` q -> ~ q `prefix_of` (dir ++ [k]) ->
          find q root' = find q root).
Proof.
  intros Hdir Hnew. destruct (stat_dir _ _ Hdir) as [entries Hentries].
  unfold mkdirSync.
  match goal with
  | |- context [fs_update _ _ ?f _] =>
      destruct (fs_update_ok "mkdir" (dir ++ [k]) f root (Dir []))
        as (root' & Hw & Hfind & Hframe)
  end.
  - by eapply (reachable_child dir k (Some root)).
  - intros [n |]; by eexists.
  - unfold existsSync in Hnew. by destruct (find (dir ++ [k]) root).
  - exists root'. repeat split; try done.
    intros q Hq1 Hq2. by eapply fs_update_apart.
Qed.

(** ** The file system: copies *)

Lemma copy_items_other copy items entries entries' e k :
  copy_items copy items entries = (entries', e) ->
  existsb (String.eqb k) (map fst items) = false ->
  assoc k entries' = assoc k entries.
Proof.
  revert entries. induction items as [| [k0 n0] items IH]; intros entries H Hk; cbn in *.
  - by injection H as <- _.
  - apply orb_false_elim in Hk as [Hk0 Hk].
    assert (k0 <> k) by (intros ->; by rewrite String.eqb_refl in Hk0).
    destruct (copy n0 (assoc k0 entries)) as [c [e0 |]].
    + injection H as <- _. by apply assoc_set_ne.
    + rewrite (IH _ H Hk). by apply assoc_set_ne.
Qed.

Lemma copy_items_hit copy items entries entries' k n :
  copy_items copy items entries = (entries', None) ->
  unique (map fst items) = true ->
  assoc k items = Some n ->
  exists c slot, assoc k entries' = Some c /\ copy n slot = (c, None).
Proof.
  revert entries. induction items as [| [k0 n0] items IH]; intros entries H Hu Hk; cbn in *.
  - discriminate.
  - apply andb_prop in Hu as [Hk0 Hu]. apply negb_true_iff in Hk0.
    destruct (copy n0 (assoc k0 entries)) as [c [e0 |]] eqn:Hc; [discriminate |].
    destruct (String.eqb_spec k k0) as [-> | Hne].
    + injection Hk as <-. exists c, (assoc k0 entries). split; [| done].
      rewrite (copy_items_other _ _ _ _ _ _ H Hk0). apply assoc_set_eq.
    + by apply (IH _ H).
Qed.

(** A copy that does not fail leaves at the destination every file of
    the source, under the same relative path. *)
Lemma copy_node_keeps s :
  well_formed s = true ->
  forall slot c, copy_node s slot = (c, None) ->
  forall r data, find r s = Some (File data) -> find r c = Some (File data).
Proof.
  induction s as [data0 | items IH] using node_ind'; intros Hwf slot c Hc r data Hr.
  - cbn in Hc. destruct slot as [[] |]; injection Hc as <-; try discriminate; done.
  - cbn [copy_node] in Hc.
    destruct r as [| k r]; [discriminate |].
    rewrite find_cons in Hr.
    destruct (assoc k items) as [n |] eqn:Hk; [| discriminate]. cbn [find_in] in Hr.
    assert (exists entries entries',
               copy_items copy_node items entries = (entries', None) /\ c = Dir entries')
      as (entries & entries' & Hitems & ->).
    { destruct slot as [[data1 | entries] |]; [discriminate | |].
      - destruct (copy_items copy_node items entries) as [entries' e] eqn:Hi.
        injection Hc as <- ->. eauto.
      - destruct (copy_items copy_node items []) as [entries' e] eqn:Hi.
        injection Hc as <- ->. eauto. }
    pose proof Hwf as Hwf'. cbn in Hwf'. apply andb_prop in Hwf' as [Hu _].
    destruct (copy_items_hit _ _ _ _ _ _ Hitems Hu Hk) as (ck & slot0 & Hck & Hcopy).
    rewrite find_cons, Hck. cbn [find_in].
    rewrite List.Forall_forall in IH.
    apply (IH (k, n)) with (slot := slot0); try done.
    + apply list_elem_of_In, assoc_elem, Hk.
    + by eapply well_formed_child.
Qed.

Lemma copySync_brings src dest root root' s r data :
  copySync src dest root = (root', None) ->
  find src root = Some s ->
  well_formed s = true ->
  find r s = Some (File data) ->
  read_file (dest ++ r) root' = Some data.
Proof.
  unfold copySync. intros H Hs Hwf Hr. rewrite Hs in H.
  destruct (bool_decide (src = dest)); [discriminate |].
  destruct (is_dir s && bool_decide (src `prefix_of` dest)); [discriminate |].
  destruct (if existsSync (parent dest) root then inr root else mkdirs (parent dest) root)
    as [e | root1]; [discriminate |].
  unfold fs_update in H.
  destruct (update_at _ dest _ (Some root1)) as [[r' |] e] eqn:Hu; injection H as <- ->.
  - apply update_at_hit in Hu as [Hfind Hnone].
    + cbn [find_in] in Hfind, Hnone. unfold read_file. rewrite find_app, Hfind.
      destruct (copy_node s (find dest root1)) as [c e] eqn:Hc. cbn in Hnone. subst e.
      cbn [fst find_in]. by rewrite (copy_node_keeps s Hwf _ _ Hc r data Hr).
    + intros x. destruct (copy_node s x). by eexists.
  - apply update_at_hit in Hu as [Hfind Hnone].
    + destruct (copy_node s (find_in dest (Some root1))). discriminate.
    + intros x. destruct (copy_node s x). by eexists.
Qed.

Lemma copy_items_fresh items :
  Forall (fun kc => copy_node kc.2 None = (kc.2, None)) items ->
  unique (map fst items) = true ->
  forall acc,
    Forall (fun kc => assoc kc.1 acc = None) items ->
    copy_items copy_node items acc = (acc ++ items, None).
Proof.
  induction items as [| [k n] items IH]; intros Hcopy Hu acc Hacc; cbn.
  - by rewrite app_nil_r.
  - apply List.Forall_cons_iff in Hcopy as [Hn Hcopy].
    apply List.Forall_cons_iff in Hacc as [Hk Hacc]. cbn in Hn, Hk.
    apply unique_cons in Hu as [Hu Hne].
    rewrite Hk, Hn, (assoc_set_fresh _ _ _ Hk).
    rewrite IH; [by rewrite <- app_assoc | done | done |].
    rewrite List.Forall_forall in Hacc, Hne. apply List.Forall_forall.
    intros [k' n'] Hin. pose proof (Hacc _ Hin) as Hk'. cbn in Hk' |- *.
    rewrite assoc_app, Hk'. cbn.
    assert (k' <> k) as Hkk by (apply Hne, (in_map fst _ _ Hin)).
    by destruct (String.eqb_spec k' k).
Qed.

(** Onto nothing, and onto an empty directory, a well-formed tree is
    copied as it is and the copy does not fail. *)
Lemma copy_node_fresh s :
  well_formed s = true -> copy_node s None = (s, None).
Proof.
  induction s as [data | items IH] using node_ind'; intros Hwf; [done |].
  cbn in Hwf. apply andb_prop in Hwf as [Hu Hall]. cbn [copy_node].
  rewrite copy_items_fresh; [done | | done |].
  - rewrite List.Forall_forall in IH. rewrite forallb_forall in Hall.
    apply List.Forall_forall. intros kc Hin. apply (IH kc Hin), (Hall kc Hin).
  - apply List.Forall_forall. by intros kc _.
Qed.

Lemma copy_node_empty items :
  well_formed (Dir items) = true -> copy_node (Dir items) (Some (Dir [])) = (Dir items, None).
Proof. intros Hwf. apply (copy_node_fresh (Dir items) Hwf). Qed.

(** Copying a well-formed directory onto an empty one. *)
Lemma copySync_empty src dest root items :
  find src root = Some (Dir items) ->
  well_formed (Dir items) = true ->
  find dest root = Some (Dir []) ->
  src <> dest ->
  ~ src `prefix_of` dest ->
  exists root',
    copySync src dest root = (root', None)
    /\ find dest root' = Some (Dir items)
    /\ (forall q, ~ dest `prefix_of` q -> look q root' = look q root).
Proof.
  intros Hsrc Hwf Hdest Hne Hpre. unfold copySync. rewrite Hsrc.
  rewrite bool_decide_eq_false_2 by done.
  rewrite (bool_decide_eq_false_2 (src `prefix_of` dest)) by done.
  rewrite andb_false_r.
  assert (existsSync (parent dest) root = true) as ->.
  { apply existsSync_look. apply (look_prefix dest); [| apply parent_prefix].
    unfold look. rewrite Hdest. by eexists. }
  match goal with
  | |- context [fs_update _ _ ?f _] =>
      destruct (fs_update_ok "lstat" dest f root (Dir items))
        as (root' & Hw & Hfind & Hframe)
  end.
  - apply reachable_found. cbn. rewrite Hdest. by eexists.
  - intros x. destruct (copy_node (Dir items) x). by eexists.
  - by rewrite Hdest, copy_node_empty.
  - exists root'. by repeat split.
Qed.

(** ** The file system: what an operation leaves whole *)

Lemma find_in_none (p : path) : find_in p None = None.
Proof. done. Qed.

Lemma find_under_empty (p : path) : p <> [] -> find p (Dir []) = None.
Proof. destruct p; [done |]. by rewrite find_cons. Qed.

Lemma mkdirs_at_apart whole p slot n q :
  mkdirs_at whole p slot = inr n ->
  ~ q `prefix_of` p ->
  find q n = find_in q slot.
Proof.
  revert slot n q. induction p as [| k p IH]; intros slot n q H Hq.
  - assert (q <> []) by (intros ->; apply Hq, prefix_nil).
    destruct slot as [[data | entries] |]; cbn in H; [discriminate | |];
      injection H as <-; [done |].
    by apply find_under_empty.
  - destruct q as [| k' q]; [destruct Hq; apply prefix_nil |].
    destruct slot as [[data | entries] |]; cbn in H; [discriminate | |].
    + destruct (mkdirs_at whole p (assoc k entries)) as [e | c] eqn:Hm; [discriminate |].
      injection H as <-. cbn [find_in]. rewrite !find_cons.
      destruct (decide (k = k')) as [<- | Hne].
      * rewrite assoc_set_eq. cbn [find_in]. apply (IH _ _ _ Hm).
        intros Hpre. apply Hq. by apply prefix_cons.
      * by rewrite assoc_set_ne.
    + destruct (mkdirs_at whole p None) as [e | c] eqn:Hm; [discriminate |].
      injection H as <-. change [(k, c)] with (assoc_set k c []).
      cbn [find_in]. rewrite find_cons.
      destruct (decide (k = k')) as [<- | Hne].
      * rewrite assoc_set_eq. cbn [find_in]. rewrite (IH _ _ _ Hm); [done |].
        intros Hpre. apply Hq. by apply prefix_cons.
      * by rewrite assoc_set_ne.
Qed.

(** [copySync] leaves every entry as it is, with all it holds, that
    neither leads to its destination nor lies under it. *)
Lemma copySync_apart src dest root root' e q :
  copySync src dest root = (root', e) ->
  apart q dest ->
  find q root' = find q root.
Proof.
  unfold copySync. intros H [Hqd Hdq].
  destruct (find src root) as [s |]; [| by injection H as <- <-].
  destruct (bool_decide (src = dest)); [by injection H as <- <- |].
  destruct (is_dir s && bool_decide (src `prefix_of` dest)); [by injection H as <- <- |].
  destruct (existsSync (parent dest) root).
  - by eapply fs_update_apart.
  - destruct (mkdirs (parent dest) root) as [e' | root1] eqn:Hm; [by injection H as <- <- |].
    rewrite (fs_update_apart _ _ _ _ _ _ q H Hdq Hqd).
    apply (mkdirs_at_apart _ _ _ _ _ Hm).
    intros Hpre. apply Hqd. etrans; [exact Hpre | apply parent_prefix].
Qed.

Lemma apart_siblings (l : path) (b c : string) : b <> c -> apart (l ++ [b]) (l ++ [c]).
Proof.
  intros Hne. split.
  - rewrite <- (app_nil_r (l ++ [c])), <- app_assoc. by apply not_prefix_sibling.
  - rewrite <- (app_nil_r (l ++ [b])), <- app_assoc. by apply not_prefix_sibling.
Qed.

Lemma apart_app (p q r r' : path) : apart p q -> apart (p ++ r) (q ++ r').
Proof.
  intros [Hpq Hqp]. split; intros H.
  - destruct (prefix_weak_total p q (q ++ r')) as [? | ?]; try done.
    + etrans; [by apply prefix_app_r | exact H].
    + by apply prefix_app_r.
  - destruct (prefix_weak_total p q (p ++ r)) as [? | ?]; try done.
    + by apply prefix_app_r.
    + etrans; [by apply prefix_app_r | exact H].
Qed.

(** ** The file system: when a copy goes through *)

Lemma copy_items_fits items :
  Forall (fun kn => forall dest, fits kn.2 dest = true ->
                                 exists c, copy_node kn.2 dest = (c, None)) items ->
  unique (map fst items) = true ->
  forall entries acc,
    forallb (fun kn => fits (snd kn) (assoc (fst kn) entries)) items = true ->
    (forall k, k ∈ map fst items -> assoc k acc = assoc k entries) ->
    exists entries', copy_items copy_node items acc = (entries', None).
Proof.
  induction items as [| [k n] items IH]; intros Hall Hu entries acc Hfits Hsame;
    [by eexists |].
  apply List.Forall_cons_iff in Hall as [Hn Hall]. cbn [snd] in Hn.
  cbn [forallb fst snd] in Hfits. apply andb_prop in Hfits as [Hfit Hfits].
  cbn [map fst unique] in Hu. apply andb_prop in Hu as [Hk Hu].
  apply negb_true_iff in Hk.
  cbn [copy_items]. rewrite Hsame by apply list_elem_of_here.
  destruct (Hn _ Hfit) as [c ->].
  apply (IH Hall Hu entries); [done |].
  intros k' Hk'. rewrite assoc_set_ne.
  - apply Hsame. by apply list_elem_of_further.
  - intros <-. rewrite <- not_true_iff_false in Hk. apply Hk.
    apply existsb_exists. exists k. split; [| apply String.eqb_refl].
    by apply list_elem_of_In.
Qed.

(** A well-formed entry is copied without a throw onto a slot it fits. *)
Lemma copy_node_fits s :
  well_formed s = true ->
  forall dest, fits s dest = true -> exists c, copy_node s dest = (c, None).
Proof.
  induction s as [data | items IH] using node_ind'; intros Hwf dest Hfits.
  - destruct dest as [[data' | entries] |]; [by eexists | discriminate | by eexists].
  - cbn in Hwf. apply andb_prop in Hwf as [Hu Hall].
    assert (Hitems : Forall (fun kn => forall dest, fits kn.2 dest = true ->
                               exists c, copy_node kn.2 dest = (c, None)) items).
    { rewrite List.Forall_forall in IH. rewrite forallb_forall in Hall.
      apply List.Forall_forall. intros kn Hin. apply (IH kn Hin), Hall, Hin. }
    destruct dest as [[data' | entries] |]; [discriminate | |]; cbn [fits] in Hfits.
    + destruct (copy_items_fits items Hitems Hu entries entries Hfits) as [es Hes]; [done |].
      cbn [copy_node]. rewrite Hes. by eexists.
    + destruct (copy_items_fits items Hitems Hu [] [] Hfits) as [es Hes]; [done |].
      cbn [copy_node]. rewrite Hes. by eexists.
Qed.

(** [mkdirs] makes the one directory that is missing under a
    directory. *)
Lemma mkdirs_at_child whole dir k slot entries :
  find_in dir slot = Some (Dir entries) ->
  find_in (dir ++ [k]) slot = None ->
  exists n, mkdirs_at whole (dir ++ [k]) slot = inr n
            /\ find (dir ++ [k]) n = Some (Dir []).
Proof.
  revert slot. induction dir as [| k0 dir IH]; intros slot Hdir Hnew.
  - rewrite find_in_nil in Hdir. subst slot. cbn [app find_in] in Hnew |- *.
    rewrite find_cons in Hnew. cbn [mkdirs_at].
    destruct (assoc k entries) as [c |]; [by rewrite find_in_nil in Hnew |].
    cbn [mkdirs_at]. eexists. split; [reflexivity |].
    by rewrite find_cons, assoc_set_eq.
  - destruct slot as [[data | es] |]; try discriminate.
    cbn [find_in app] in Hdir, Hnew. rewrite find_cons in Hdir, Hnew.
    destruct (IH _ Hdir Hnew) as (n & Hn & Hfound).
    cbn [app mkdirs_at]. rewrite Hn. eexists. split; [reflexivity |].
    by rewrite find_cons, assoc_set_eq.
Qed.

(** A well-formed entry is copied without a throw to a place two levels
    under a directory, apart from the entry, when nothing stands in the
    way: no file at the level between, no clash where it lands. *)
Lemma copySync_into src dir a b root s :
  find src root = Some s ->
  well_formed s = true ->
  apart src (dir ++ [a; b]) ->
  stat dir root = Some KDir ->
  stat (dir ++ [a]) root <> Some KFile ->
  fits s (find (dir ++ [a; b]) root) = true ->
  exists root',
    copySync src (dir ++ [a; b]) root = (root', None)
    /\ stat dir root' = Some KDir
    /\ stat (dir ++ [a]) root' = Some KDir.
Proof.
  intros Hs Hwf [Hsd Hds] Hdir Hmid Hfits. unfold copySync. rewrite Hs.
  rewrite bool_decide_eq_false_2 by (intros ->; by apply Hsd).
  rewrite (bool_decide_eq_false_2 (src `prefix_of` dir ++ [a; b])) by done.
  rewrite andb_false_r. unfold parent. rewrite removelast_snoc.
  destruct (stat_dir _ _ Hdir) as [entries Hentries].
  assert (Hlonger : ~ (dir ++ [a; b]) `prefix_of` (dir ++ [a])).
  { intros Hpre. apply prefix_length in Hpre. rewrite !length_app in Hpre. cbn in Hpre. lia. }
  assert (Hlonger' : ~ (dir ++ [a; b]) `prefix_of` dir).
  { intros Hpre. apply prefix_length in Hpre. rewrite !length_app in Hpre. cbn in Hpre. lia. }
  assert (exists root1 es,
             (if existsSync (dir ++ [a]) root then inr root else mkdirs (dir ++ [a]) root)
               = inr root1
             /\ find (dir ++ [a]) root1 = Some (Dir es)
             /\ find (dir ++ [a; b]) root1 = find (dir ++ [a; b]) root
             /\ stat dir root1 = Some KDir)
    as (root1 & es & -> & Hmid1 & Hdest1 & Hdir1).
  { unfold existsSync. destruct (find (dir ++ [a]) root) as [[data | es] |] eqn:Hfound.
    - destruct Hmid. unfold stat. by rewrite Hfound.
    - by exists root, es.
    - destruct (mkdirs_at_child (dir ++ [a]) dir a (Some root) entries Hentries Hfound)
        as (root1 & Hm & Hmade).
      exists root1, []. unfold mkdirs. rewrite Hm. split; [done |]. split; [done |].
      split; [by apply (mkdirs_at_apart _ _ _ _ _ Hm) |].
      destruct (mkdirs_at_frame _ _ _ _ dir Hm) as [Heq | (Hnone & _)].
      + rewrite stat_look. unfold look. rewrite Heq. cbn [find_in]. by rewrite Hentries.
      + cbn [find_in] in Hnone. congruence. }
  destruct (copy_node_fits s Hwf _ Hfits) as [c Hc].
  match goal with
  | |- context [fs_update _ _ ?f _] =>
      destruct (fs_update_ok "lstat" (dir ++ [a; b]) f root1 c)
        as (root' & Hw & _ & Hframe)
  end.
  - replace (dir ++ [a; b]) with ((dir ++ [a]) ++ [b]) by (by rewrite <- app_assoc).
    by apply (reachable_child (dir ++ [a]) b (Some root1) es).
  - intros x. destruct (copy_node s x). by eexists.
  - by rewrite Hdest1, Hc.
  - exists root'. split; [done |]. split.
    + by rewrite (stat_by_look _ root1) by (by apply Hframe).
    + rewrite (stat_by_look _ root1) by (by apply Hframe). by eapply stat_find_dir.
Qed.

(** ** Computations

    For a reflexive and transitive relation the combinators of the script
    keep calm. *)

Section Calm.
Variable R : world -> world -> Prop.
Hypothesis R_refl : forall w, R w w.
Hypothesis R_trans : forall w1 w2 w3, R w1 w2 -> R w2 w3 -> R w1 w3.

Lemma calm_ret {A} (a : A) : calm R (ret a).
Proof. intros w w' r [= <- <-]. split; [apply R_refl | discriminate]. Qed.

Lemma calm_throw {A} (e : thrown) : calm R (@throw A e).
Proof. intros w w' r [= <- <-]. split; [apply R_refl | discriminate]. Qed.

Lemma calm_lift_throw {A} (x : thrown + A) : calm R (lift_throw x).
Proof. destruct x; [apply calm_throw | apply calm_ret]. Qed.

Lemma calm_bind {A B} (m : M A) (k : A -> M B) :
  calm R m -> (forall a, calm R (k a)) -> calm R (bind m k).
Proof.
  intros Hm Hk w w' r. unfold bind.
  destruct (m w) as [w1 [a | e | code]] eqn:Hmw; intros H.
  - destruct (Hm _ _ _ Hmw) as [H1 _]. destruct (Hk a _ _ _ H) as [H2 Hx].
    split; [by eapply R_trans | done].
  - injection H as <- <-. destruct (Hm _ _ _ Hmw) as [H1 _]. split; [done | discriminate].
  - destruct (Hm _ _ _ Hmw) as [_ Hx]. by destruct (Hx code).
Qed.

Lemma calm_try_catch {A} (body : M A) (handler : thrown -> M A) :
  calm R body -> (forall e, calm R (handler e)) -> calm R (try_catch body handler).
Proof.
  intros Hb Hh w w' r. unfold try_catch.
  destruct (body w) as [w1 [a | e | code]] eqn:Hbw; intros H.
  - injection H as <- <-. by apply Hb.
  - destruct (Hb _ _ _ Hbw) as [H1 _]. destruct (Hh e _ _ _ H) as [H2 Hx].
    split; [by eapply R_trans | done].
  - injection H as <- <-. by apply Hb.
Qed.

Lemma calm_forEach {A} (f : A -> M unit) (l : list A) :
  Forall (fun x => calm R (f x)) l -> calm R (forEach f l).
Proof.
  induction 1 as [| x l Hx _ IH]; cbn [forEach]; [apply calm_ret |].
  apply calm_bind; [done | intros _; apply IH].
Qed.

Lemma calm_if {A} (b : bool) (m1 m2 : M A) :
  calm R m1 -> calm R m2 -> calm R (if b then m1 else m2).
Proof. by destruct b. Qed.
End Calm.

Lemma calm_keeps {A} R (m : M A) : calm R m -> keeps R m.
Proof. intros H w w' r Hm. by destruct (H _ _ _ Hm). Qed.

Lemma calm_exits_only {A} R code0 (m : M A) : calm R m -> exits_only code0 m.
Proof. intros H w w' code Hm. destruct (H _ _ _ Hm) as [_ Hx]. by destruct (Hx code). Qed.

Lemma keeps_bind {A B} (R : world -> world -> Prop) (m : M A) (k : A -> M B) :
  (forall w1 w2 w3, R w1 w2 -> R w2 w3 -> R w1 w3) ->
  keeps R m -> (forall a, keeps R (k a)) -> keeps R (bind m k).
Proof.
  intros Htrans Hm Hk w w' r. unfold bind.
  destruct (m w) as [w1 [a | e | code]] eqn:Hmw; intros H.
  - eapply Htrans; [by eapply Hm | by eapply Hk].
  - injection H as <- <-. by eapply Hm.
  - injection H as <- <-. by eapply Hm.
Qed.

Lemma keeps_process_exit {A} (R : world -> world -> Prop) code :
  (forall w, R w w) -> keeps R (@process_exit A code).
Proof. intros Hrefl w w' r [= <- <-]. apply Hrefl. Qed.

Lemma exits_only_bind {A B} code0 (m : M A) (k : A -> M B) :
  exits_only code0 m -> (forall a, exits_only code0 (k a)) -> exits_only code0 (bind m k).
Proof.
  intros Hm Hk w w' code. unfold bind.
  destruct (m w) as [w1 [a | e | code1]] eqn:Hmw; intros H.
  - by eapply Hk.
  - discriminate.
  - injection H as <- <-. by eapply Hm.
Qed.

Lemma exits_only_process_exit {A} code : exits_only code (@process_exit A code).
Proof. by intros w w' code' [= <- <-]. Qed.

Lemma same_questions_refl w : same_questions w w.
Proof. reflexivity. Qed.

Lemma same_questions_trans w1 w2 w3 :
  same_questions w1 w2 -> same_questions w2 w3 -> same_questions w1 w3.
Proof. unfold same_questions. congruence. Qed.

Lemma asked_emit (ev : event) (w : world) :
  asked (trace (emit ev w)) = asked (trace w) ++ (if is_question ev then [ev] else []).
Proof. unfold asked. cbn. rewrite List.filter_app. cbn. by destruct (is_question ev). Qed.

Create HintDb calm.
#[local] Hint Resolve same_questions_refl same_questions_trans : calm.

(** *** The primitives *)

Ltac run_probe :=
  unfold getApplicationId, try_catch, bind, execSync_curl, lift_throw, throw, ret.

(** The probe always returns, having spawned its one command. *)
Lemma getApplicationId_cases (E : env) (token : value) (w : world) :
  getApplicationId E token w = (after_probe E token w, Ret (probe E token)).
Proof.
  run_probe. unfold probe.
  destruct (curl E (curl_command E token)) as [e | response]; [reflexivity |].
  destruct (JSON_parse E response) as [e | parsed]; [reflexivity |].
  destruct (get_prop parsed "id") as [e | id]; reflexivity.
Qed.

Lemma js_or_null (v : value) : js_or v VNull = VNull \/ (js_or v VNull = v /\ truthy v = true).
Proof. unfold js_or. destruct (truthy v); auto. Qed.

Lemma console_log_quiet line : calm same_questions (console_log line).
Proof.
  intros w w' r [= <- <-]. split; [| discriminate].
  unfold same_questions. rewrite asked_emit. cbn. by rewrite app_nil_r.
Qed.

Lemma console_error_quiet v : calm same_questions (console_error v).
Proof.
  intros w w' r [= <- <-]. split; [| discriminate].
  unfold same_questions. rewrite asked_emit. cbn. by rewrite app_nil_r.
Qed.

Lemma fs_call_quiet op : calm same_questions (fs_call op).
Proof.
  intros w w' r. unfold fs_call. destruct (op (fs w)) as [root [e |]].
  all: intros [= <- <-]; split; [reflexivity | discriminate].
Qed.

Lemma process_chdir_quiet p : calm same_questions (process_chdir p).
Proof.
  intros w w' r. unfold process_chdir. destruct (stat p (fs w)) as [[|] |].
  all: intros [= <- <-]; split; [reflexivity | discriminate].
Qed.

Lemma execSync_npm_ci_quiet E : calm same_questions (execSync_npm_ci E).
Proof.
  intros w w' r. unfold execSync_npm_ci.
  destruct (npm_ci E _ _) as [root [e |]].
  all: intros [= <- <-]; split; [| discriminate].
  all: unfold same_questions; cbn; unfold asked; rewrite List.filter_app; cbn;
    by rewrite app_nil_r.
Qed.

Lemma getApplicationId_quiet E token : calm same_questions (getApplicationId E token).
Proof.
  intros w w' r. rewrite getApplicationId_cases. intros [= <- <-].
  split; [| discriminate].
  unfold same_questions, after_probe, asked. cbn [trace].
  rewrite List.filter_app. cbn. by rewrite app_nil_r.
Qed.

Lemma path_resolve_cases E name w :
  path_resolve E name w =
    match name with
    | VString s => (w, Ret (resolve E s))
    | _ => (w, Throw (ThrownError "TypeError" "The 'path' argument must be of type string."))
    end.
Proof. by destruct name. Qed.

(** Two calls in a row, by what each leaves and throws. *)
Lemma fs_call_twice (op1 op2 : node -> written) (w : world) :
  (fs_call op1 ;; fs_call op2) w =
    match op1 (fs w) with
    | (root1, Some e) => (set_fs root1 w, Throw e)
    | (root1, None) =>
        match op2 root1 with
        | (root2, Some e) => (set_fs root2 w, Throw e)
        | (root2, None) => (set_fs root2 w, Ret tt)
        end
    end.
Proof.
  unfold bind, fs_call. destruct (op1 (fs w)) as [root1 [e |]]; [done |].
  cbn [fs set_fs]. by destruct (op2 root1) as [root2 [e |]].
Qed.

(** Goes through a computation built from the combinators down to its
    primitives. *)
Ltac calm_steps :=
  lazymatch goal with
  | |- calm _ (bind _ _) =>
      apply calm_bind;
      [ eauto with calm | calm_steps | intros ?; cbn beta; calm_steps ]
  | |- calm _ (try_catch _ _) =>
      apply calm_try_catch;
      [ eauto with calm | calm_steps | intros ?; cbn beta; calm_steps ]
  | |- calm _ (if _ then _ else _) => apply calm_if; calm_steps
  | |- calm _ (ret _) => apply calm_ret; eauto with calm
  | |- calm _ (throw _) => apply calm_throw; eauto with calm
  | |- calm _ (lift_throw _) => apply calm_lift_throw; eauto with calm
  | |- _ => eauto with calm
  end.

#[local] Hint Resolve console_log_quiet console_error_quiet fs_call_quiet
  process_chdir_quiet execSync_npm_ci_quiet getApplicationId_quiet : calm.

Ltac keeps_steps :=
  lazymatch goal with
  | |- keeps _ (bind _ _) =>
      apply keeps_bind; [eauto with calm | keeps_steps | intros ?; cbn beta; keeps_steps]
  | |- keeps _ (process_exit _) => apply keeps_process_exit; eauto with calm
  | |- _ => apply calm_keeps; calm_steps
  end.

Ltac exits_steps :=
  lazymatch goal with
  | |- exits_only _ (bind _ _) =>
      apply exits_only_bind; [exits_steps | intros ?; cbn beta; exits_steps]
  | |- exits_only _ (process_exit _) => apply exits_only_process_exit
  | |- _ => apply (calm_exits_only same_questions); calm_steps
  end.

(** *** The steps and the callback *)

Lemma update_steps_quiet E name dir :
  Forall (fun s => calm same_questions (action s)) (update_steps E name dir).
Proof. unfold update_steps, create_steps; repeat (apply List.Forall_cons; [cbn [action]; calm_steps |]); apply List.Forall_nil. Qed.

Lemma create_steps_quiet E name dir token :
  Forall (fun s => calm same_questions (action s)) (create_steps E name dir token).
Proof. unfold update_steps, create_steps; repeat (apply List.Forall_cons; [cbn [action]; calm_steps |]); apply List.Forall_nil. Qed.

Lemma run_steps_quiet dry steps :
  Forall (fun s => calm same_questions (action s)) steps ->
  calm same_questions (run_steps dry steps).
Proof.
  intros H. apply calm_forEach; eauto with calm.
  eapply Forall_impl; [exact H |]. intros s Hs. unfold run_step.
  calm_steps.
Qed.

Lemma run_steps_cons (dry : bool) (s : Step) (steps : list Step) (w : world) :
  run_steps dry (s :: steps) w =
    let w1 := emit (Stdout (message s)) w in
    if ignoreDry s || negb dry then
      match action s w1 with
      | (w2, Ret _) => run_steps dry steps w2
      | (w2, Throw e) => (w2, Throw e)
      | (w2, Exit code) => (w2, Exit code)
      end
    else run_steps dry steps w1.
Proof.
  unfold run_steps. cbn [forEach]. unfold run_step, bind, console_log, ret.
  destruct (ignoreDry s || negb dry); [| reflexivity].
  destruct (action s _) as [w2 [[] | e | code]]; reflexivity.
Qed.

Lemma spec_pipeline_cons (dry : bool) (s : Step) (steps : list Step) (w : world) :
  spec_pipeline dry (s :: steps) w =
    let w1 := emit (Stdout (message s)) w in
    if negb dry || ignoreDry s then
      match action s w1 with
      | (w2, Ret _) => spec_pipeline dry steps w2
      | (w2, Throw e) => (w2, Throw e)
      | (w2, Exit code) => (w2, Exit code)
      end
    else spec_pipeline dry steps w1.
Proof.
  unfold spec_pipeline, spec_plan. cbn [flat_map].
  destruct (negb dry || ignoreDry s); cbn [app forEach perform];
    unfold bind, console_log; [| reflexivity].
  destruct (action s _) as [w2 [[] | e | code]]; reflexivity.
Qed.

Lemma build_steps_cases (E : env) (name : value) (dir : path) (w : world) :
  build_steps E name dir w =
    if existsSync dir (fs w) then
      let w1 :=
        emit (Asked "confirm" "update"
                ("Directory '" +:+ path_string dir
                   +:+ "' already exists. Do you want to update it?")) w in
      if truthy (answers E "update")
      then (w1, Ret (update_steps E name dir))
      else (emit (Stdout EmptyString) w1, Throw (ThrownString "Quitting..."))
    else
      (emit (Asked "password" "token" "Discord bot token?") w,
       Ret (create_steps E name dir (answers E "token"))).
Proof.
  unfold build_steps, bind, fs_existsSync, prompts, console_log, throw, ret.
  destruct (existsSync dir (fs w)); [| reflexivity].
  destruct (truthy (answers E "update")); reflexivity.
Qed.

Lemma build_steps_never_exits E name dir : calm anything (build_steps E name dir).
Proof.
  intros w w' r. rewrite build_steps_cases.
  destruct (existsSync dir (fs w)); [destruct (truthy _) |].
  all: intros [= <- <-]; split; [exact I | discriminate].
Qed.

Lemma build_steps_quiet_actions E name dir w w' steps :
  build_steps E name dir w = (w', Ret steps) ->
  Forall (fun s => calm same_questions (action s)) steps.
Proof.
  rewrite build_steps_cases.
  destruct (existsSync dir (fs w)); [destruct (truthy _) |]; intros [= <- <-].
  - apply update_steps_quiet.
  - apply create_steps_quiet.
Qed.

Lemma scaffold_exits_zero E name : exits_only 0 (scaffold E name).
Proof.
  intros w w' code. unfold scaffold. unfold bind at 1.
  rewrite path_resolve_cases. destruct name as [| | | | s | |]; try discriminate.
  unfold bind at 1.
  destruct (build_steps E (VString s) (resolve E s) w) as [w1 [steps | e | code1]] eqn:Hb;
    try discriminate.
  - pose proof (build_steps_quiet_actions _ _ _ _ _ _ Hb) as Hsteps.
    clear Hb. revert w1 w' code.
    change (exits_only (A := unit) 0
      (console_log EmptyString ;;
       run_steps (isDryRun E) steps ;;
       console_log EmptyString ;;
       console_log ("Done!" +:+ nl +:+ nl +:+ "Start by running:" +:+ nl
           +:+ tab +:+ "$ cd " +:+ str E (VString s) +:+ "/" +:+ nl +:+ tab +:+ "$ npm start") ;;
       process_exit 0)).
    pose proof (run_steps_quiet (isDryRun E) steps Hsteps).
    exits_steps.
  - intros _. destruct (build_steps_never_exits _ _ _ _ _ _ Hb) as [_ Hx].
    by destruct (Hx code1).
Qed.

Lemma main_cases (E : env) (w : world) :
  main E w =
    try_catch (scaffold E (answers E "name")) console_error (after_first_question w).
Proof. reflexivity. Qed.

(** Whatever the callback does once the steps are built, it asks nothing
    more. *)
Lemma scaffold_questions (E : env) (name : string) (w w1 : world) (rb : outcome (list Step)) :
  build_steps E (VString name) (resolve E name) w = (w1, rb) ->
  asked (trace (try_catch (scaffold E (VString name)) console_error w).1)
    = asked (trace w1).
Proof.
  intros Hb. unfold try_catch, scaffold. unfold bind at 1.
  rewrite path_resolve_cases. unfold bind at 1. rewrite Hb.
  destruct rb as [steps | e | code].
  - pose proof (build_steps_quiet_actions _ _ _ _ _ _ Hb) as Hsteps.
    pose proof (run_steps_quiet (isDryRun E) steps Hsteps) as Hrun.
    assert (keeps (A := unit) same_questions
      (console_log EmptyString ;;
       run_steps (isDryRun E) steps ;;
       console_log EmptyString ;;
       console_log ("Done!" +:+ nl +:+ nl +:+ "Start by running:" +:+ nl
           +:+ tab +:+ "$ cd " +:+ str E (VString name) +:+ "/" +:+ nl +:+ tab
           +:+ "$ npm start") ;;
       process_exit 0)) as Htail by keeps_steps.
    match goal with
    | |- context [match ?t w1 with _ => _ end] => destruct (t w1) as [w2 r2] eqn:Ht
    end.
    specialize (Htail _ _ _ Ht).
    destruct r2 as [[] | e | code]; cbn [fst]; try exact Htail.
    unfold console_error. cbn [fst]. rewrite asked_emit. cbn. by rewrite app_nil_r.
  - unfold console_error. cbn [fst]. rewrite asked_emit. cbn. by rewrite app_nil_r.
  - reflexivity.
Qed.

Lemma world_eq (w1 w2 : world) :
  fs w1 = fs w2 -> cwd w1 = cwd w2 -> trace w1 = trace w2 -> w1 = w2.
Proof. destruct w1, w2. cbn. by intros -> -> ->. Qed.

(** The action of the invite-link step: the probe, then the line, or
    the throw of the template literal, after which nothing is printed. *)
Lemma invite_action (E : env) (token : value) (w : world) :
  (applicationId <- getApplicationId E token ;;
   line <-
     (if truthy applicationId
      then
        id <- lift_throw (to_string (number_to_string E) applicationId) ;;
        ret ("Invite your bot: https://discordapp.com/oauth2/authorize?scope=bot&client_id="
               +:+ id)
      else ret "The given bot token was invalid so no link was generated.") ;;
   console_log line) w =
    match invite_line E (probe E token) with
    | inr line => (emit (Stdout line) (after_probe E token w), Ret tt)
    | inl e => (after_probe E token w, Throw e)
    end.
Proof.
  unfold bind at 1. rewrite getApplicationId_cases. unfold invite_line.
  destruct (truthy (probe E token)); [| reflexivity].
  unfold bind, lift_throw.
  by destruct (to_string (number_to_string E) (probe E token)).
Qed.

(** A dry run of the steps of a new project: the six messages, then the
    one action that ignores the flag. *)
Lemma run_steps_dry_create (E : env) (name : value) (dir : path) (token : value)
    (w : world) :
  run_steps true (create_steps E name dir token) w =
    let w1 :=
      after_probe E token
        {| fs := fs w;
           cwd := cwd w;
           trace := trace w ++ map Stdout (map message (create_steps E name dir token)) |} in
    match invite_line E (probe E token) with
    | inr line => (emit (Stdout line) w1, Ret tt)
    | inl e => (w1, Throw e)
    end.
Proof.
  unfold create_steps.
  repeat (rewrite run_steps_cons; cbn [ignoreDry message action orb negb]; cbn zeta).
  rewrite invite_action. cbn [map].
  destruct (invite_line E (probe E token)) as [e | line].
  - apply (f_equal2 pair); [| reflexivity].
    apply world_eq; unfold after_probe; cbn [fs cwd trace emit]; [reflexivity.. |].
    by rewrite <- !app_assoc.
  - unfold run_steps. cbn [forEach]. unfold ret.
    apply (f_equal2 pair); [| reflexivity].
    apply world_eq; unfold after_probe; cbn [fs cwd trace emit]; [reflexivity.. |].
    by rewrite <- !app_assoc.
Qed.

(** * The claims *)

(** ** The credential probe *)

(** What the code keeps of the claim about the probe: for every token
    and in every surrounding it returns normally, never throwing and
    never exiting, with its one command line spawned, the working
    directory as it was and the file system as the shell of that line
    left it.  It returns [null] when the command fails, when the body is
    not JSON, when the parsed value has no [id] or is [null] itself; it
    returns the application-id string when the [id] is a string other
    than the empty one; and whatever it returns other than [null] is the
    truthy [id] of the parsed response. *)
Lemma getApplicationId_never_throws (E : env) (token : value) (w : world) :
  exists v : value,
    getApplicationId E token w = (after_probe E token w, Ret v)
    /\ (v = VNull \/
        (truthy v = true /\
         exists response parsed,
           curl E (curl_command E token) = inr response /\
           JSON_parse E response = inr parsed /\
           get_prop parsed "id" = inr v))
    /\ (forall e, curl E (curl_command E token) = inl e -> v = VNull)
    /\ (forall response e,
          curl E (curl_command E token) = inr response ->
          JSON_parse E response = inl e -> v = VNull)
    /\ (forall response parsed,
          curl E (curl_command E token) = inr response ->
          JSON_parse E response = inr parsed ->
          (get_prop parsed "id" = inr VUndefined -> v = VNull) /\
          (forall e, get_prop parsed "id" = inl e -> v = VNull) /\
          (forall s, get_prop parsed "id" = inr (VString s) ->
             v = (if String.eqb s EmptyString then VNull else VString s)
             /\ probe_result v)).
Proof.
  rewrite getApplicationId_cases. eexists. split; [reflexivity |]. unfold probe.
  destruct (curl E (curl_command E token)) as [e | response] eqn:Hcurl.
  { repeat split; auto; intros; discriminate. }
  destruct (JSON_parse E response) as [e | parsed] eqn:Hparse.
  { repeat split; auto; intros; congruence. }
  destruct (get_prop parsed "id") as [e | id] eqn:Hid.
  { repeat split; auto; intros; congruence. }
  split.
  { destruct (js_or_null id) as [-> | [-> Ht]]; [by left | right].
    split; [done |]. by exists response, parsed. }
  repeat split; intros; simplify_eq; try congruence.
  - assert (id = VUndefined) as -> by congruence. reflexivity.
  - assert (id = VString s) as -> by congruence.
    unfold js_or. cbn. by destruct (String.eqb s EmptyString).
  - assert (id = VString s) as -> by congruence.
    unfold js_or, probe_result. destruct (truthy (VString s)); eauto.
Qed.

(** C1: the code breaks the claim, and the [@returns {string | null}]
    of its own documentation: the result is [parsedResponse.id || null]
    with no look at the type of [id], so when the service answers
    [{"id": 123}] the probe returns the number 123, which is neither a
    string nor [null]. *)
Lemma getApplicationId_numeric_id :
  exists v : value,
    (getApplicationId (Sample.surroundings [] VUndefined Sample.numeric)
       (VString "s3cret") (Sample.start Sample.disk)).2 = Ret v
    /\ ~ probe_result v.
Proof.
  exists (VNumber Sample.d123). split; [reflexivity |].
  intros [H | [s H]]; discriminate.
Qed.

(** C10: when the body parses and the parsed value gives [id] on property
    access, the probe returns [id] if it is truthy and [null] otherwise: so
    [null] for an absent [id] ([undefined]), for [null], for the empty
    string and for zero, and a value other than [null] only if it is the
    truthy [id]. *)
Theorem getApplicationId_falsy_id (E : env) (token : value) (w : world)
    (response : string) (parsed id : value) :
  curl E (curl_command E token) = inr response ->
  JSON_parse E response = inr parsed ->
  get_prop parsed "id" = inr id ->
  (getApplicationId E token w).2 = Ret (if truthy id then id else VNull)
  /\ (id = VUndefined \/ id = VNull \/ id = VString EmptyString
      \/ (exists s, id = VNumber (S754_zero s)) ->
      (getApplicationId E token w).2 = Ret VNull)
  /\ (forall fields, parsed = VObject fields -> assoc "id" fields = None ->
      (getApplicationId E token w).2 = Ret VNull)
  /\ (forall v, (getApplicationId E token w).2 = Ret v -> v <> VNull ->
      v = id /\ truthy id = true).
Proof.
  intros Hcurl Hparse Hid.
  rewrite getApplicationId_cases. unfold probe. rewrite Hcurl, Hparse, Hid.
  cbn [snd]. unfold js_or.
  split; [reflexivity |]. split; [| split].
  - intros [-> | [-> | [-> | [s ->]]]]; reflexivity.
  - intros fields -> Hnone. cbn in Hid. rewrite Hnone in Hid.
    injection Hid as <-. reflexivity.
  - intros v [= <-] Hv. destruct (truthy id); [done | by destruct Hv].
Qed.

Lemma getApplicationId_falsy_id_witness :
  let E := Sample.surroundings [] VUndefined Sample.rejecting in
  let parsed :=
    VObject [("message", VString "401: Unauthorized"); ("code", VNumber (S754_zero false))] in
  curl E (curl_command E (VString "s3cret")) = inr Sample.unauthorized_response
  /\ JSON_parse E Sample.unauthorized_response = inr parsed
  /\ get_prop parsed "id" = inr VUndefined
  /\ (getApplicationId E (VString "s3cret") (Sample.start Sample.disk)).2 = Ret VNull.
Proof.
  split; [reflexivity |]. split; [reflexivity |]. split; [reflexivity |].
  exact (proj1 (getApplicationId_falsy_id
                  (Sample.surroundings [] VUndefined Sample.rejecting) (VString "s3cret")
                  (Sample.start Sample.disk) Sample.unauthorized_response
                  (VObject [("message", VString "401: Unauthorized");
                            ("code", VNumber (S754_zero false))])
                  VUndefined eq_refl eq_refl eq_refl)).
Defined.

(** The probe on the sample services: a service that knows the token, one
    that refuses it, no network, a body that is not JSON, the body
    [null]. *)
Example getApplicationId_samples :
  let probe_with service :=
    (getApplicationId (Sample.surroundings [] VUndefined service) (VString "s3cret")
       (Sample.start Sample.disk)).2 in
  probe_with Sample.accepting = Ret (VString "42")
  /\ probe_with Sample.rejecting = Ret VNull
  /\ probe_with Sample.offline = Ret VNull
  /\ probe_with Sample.garbled = Ret VNull
  /\ probe_with (fun _ => inr "null") = Ret VNull.
Proof. repeat split. Qed.

(** ** The execution policy *)

(** C2: on every step list and for either value of the dry-run flag,
    the loop of the script does what the policy says: it is the
    sequential execution, stopped by the first action that throws or
    exits, of the plan that holds every message, in the order of the
    list and whatever the flag, each followed by the action of its step
    exactly when the flag is off or the step ignores it.  On the list
    of an update a dry run prints the message and does nothing else.  On
    the list of a new project a dry run prints the six messages and
    performs only the invite-link action: the working directory stays,
    the probe is spawned, the file system changes only as the shell of
    the probe's command line changes it, and then the invite line is
    printed, or, when the [id] the probe returned has no text, the
    [TypeError] is thrown and nothing is printed for it.  On any list
    without a step that ignores the flag, a dry run prints the messages
    and does nothing else. *)
Theorem run_steps_policy (E : env) (name : value) (dir : path) (token : value)
    (dry : bool) (steps : list Step) (w : world) :
  run_steps dry steps w = spec_pipeline dry steps w
  /\ printed (spec_plan dry steps) = map message steps
  /\ performed (spec_plan dry steps) =
       map action (List.filter (fun s => negb dry || ignoreDry s) steps)
  /\ run_steps true (update_steps E name dir) w =
       (emit (Stdout ("Updating core files in '" +:+ str E name +:+ "'...")) w, Ret tt)
  /\ run_steps true (create_steps E name dir token) w =
       (let w1 :=
          {| fs := shell E (curl_command E token) (cwd w) (fs w);
             cwd := cwd w;
             trace :=
               trace w ++
                 map Stdout (map message (create_steps E name dir token)) ++
                 [ Spawned (curl_command E token) ] |} in
        match invite_line E (probe E token) with
        | inr line => (emit (Stdout line) w1, Ret tt)
        | inl e => (w1, Throw e)
        end)
  /\ (Forall (fun s => ignoreDry s = false) steps ->
      run_steps true steps w =
        ({| fs := fs w;
            cwd := cwd w;
            trace := trace w ++ map Stdout (map message steps) |},
         Ret tt)).
Proof.
  split; [| split; [| split; [| split; [| split]]]].
  - revert w. induction steps as [| s steps IH]; intros w; [reflexivity |].
    rewrite run_steps_cons, spec_pipeline_cons. cbn zeta.
    rewrite (orb_comm (ignoreDry s)).
    destruct (negb dry || ignoreDry s); [| apply IH].
    destruct (action s _) as [w2 [[] | e | code]]; [apply IH | reflexivity..].
  - induction steps as [| s steps IH]; [reflexivity |].
    change (spec_plan dry (s :: steps)) with
      ((Print (message s)
          :: (if negb dry || ignoreDry s then [Perform (action s)] else []))
         ++ spec_plan dry steps).
    unfold printed at 1. rewrite flat_map_app. fold (printed (spec_plan dry steps)).
    rewrite IH. by destruct (negb dry || ignoreDry s).
  - induction steps as [| s steps IH]; [reflexivity |].
    change (spec_plan dry (s :: steps)) with
      ((Print (message s)
          :: (if negb dry || ignoreDry s then [Perform (action s)] else []))
         ++ spec_plan dry steps).
    unfold performed at 1. rewrite flat_map_app. fold (performed (spec_plan dry steps)).
    rewrite IH. cbn [List.filter]. by destruct (negb dry || ignoreDry s).
  - reflexivity.
  - rewrite run_steps_dry_create. cbn zeta. unfold after_probe. cbn [fs cwd trace].
    by rewrite <- !app_assoc.
  - revert w. induction steps as [| s steps IH]; intros w Hall.
    + destruct w. cbn. by rewrite app_nil_r.
    + apply List.Forall_cons_iff in Hall as [Hs Hall].
      rewrite run_steps_cons, Hs. cbn [orb negb]. cbn zeta.
      rewrite (IH _ Hall). cbn [emit fs cwd trace map].
      by rewrite <- app_assoc.
Qed.

(** A dry run of the sample: six messages, the probe and its link, and
    a disk that has not changed. *)
Example sample_dry_run :
  let E := Sample.surroundings ["--dry-run"] VUndefined Sample.accepting in
  let '(w, status) := run E (Sample.start Sample.disk) in
  fs w = Sample.disk /\ cwd w = ["home"; "me"] /\ status = 0%Z
  /\ trace w =
       [ Stdout banner;
         Asked "text" "name" "Application name?";
         Asked "password" "token" "Discord bot token?";
         Stdout EmptyString;
         Stdout "Creating directory 'my-bot'...";
         Stdout "Creating boilerplate...";
         Stdout "Updating package.json...";
         Stdout "Writing token.json...";
         Stdout "Installing modules...";
         Stdout (nl +:+ "Generating bot invite link...");
         Spawned (curl_command E (VString "s3cret"));
         Stdout "Invite your bot: https://discordapp.com/oauth2/authorize?scope=bot&client_id=42";
         Stdout EmptyString;
         Stdout ("Done!" +:+ nl +:+ nl +:+ "Start by running:" +:+ nl
                   +:+ tab +:+ "$ cd my-bot/" +:+ nl +:+ tab +:+ "$ npm start") ].
Proof. repeat split. Qed.

(** ** Mode resolution and the declined update *)

(** C6: the steps are built from the existence of the target path alone:
    nothing at the path gives the steps of a new project after the one
    question for the token; an entry of any kind gives, after the
    confirmation question, the update steps or the abort.  Over the whole
    run, the questions asked are the name and the token when the path
    does not exist (never the confirmation), and the name and the
    confirmation when it does. *)
Theorem mode_by_existence (E : env) (w : world) (name : string) :
  answers E "name" = VString name ->
  (forall w0,
     build_steps E (VString name) (resolve E name) w0 =
       if existsSync (resolve E name) (fs w0) then
         let w1 :=
           emit (Asked "confirm" "update"
                   ("Directory '" +:+ path_string (resolve E name)
                      +:+ "' already exists. Do you want to update it?")) w0 in
         if truthy (answers E "update")
         then (w1, Ret (update_steps E (VString name) (resolve E name)))
         else (emit (Stdout EmptyString) w1, Throw (ThrownString "Quitting..."))
       else
         (emit (Asked "password" "token" "Discord bot token?") w0,
          Ret (create_steps E (VString name) (resolve E name) (answers E "token"))))
  /\ asked (trace (main E w).1) =
       asked (trace w) ++
         [ Asked "text" "name" "Application name?";
           if existsSync (resolve E name) (fs w)
           then Asked "confirm" "update"
                  ("Directory '" +:+ path_string (resolve E name)
                     +:+ "' already exists. Do you want to update it?")
           else Asked "password" "token" "Discord bot token?" ].
Proof.
  intros Hname. split; [intros w0; apply build_steps_cases |].
  rewrite main_cases, Hname.
  destruct (build_steps E (VString name) (resolve E name) (after_first_question w))
    as [w1 rb] eqn:Hb.
  rewrite (scaffold_questions _ _ _ _ _ Hb).
  rewrite build_steps_cases in Hb. cbn [fs after_first_question emit] in Hb.
  destruct (existsSync (resolve E name) (fs w));
    [destruct (truthy (answers E "update")) |]; injection Hb as <- _.
  all: unfold after_first_question; rewrite !asked_emit; cbn;
    rewrite ?app_nil_r, <- ?app_assoc; reflexivity.
Qed.

Lemma mode_by_existence_witness :
  let E := Sample.surroundings [] VUndefined Sample.accepting in
  build_steps E (VString "my-bot") ["home"; "me"; "my-bot"] (Sample.start Sample.disk) =
    (emit (Asked "password" "token" "Discord bot token?") (Sample.start Sample.disk),
     Ret (create_steps E (VString "my-bot") ["home"; "me"; "my-bot"] (VString "s3cret")))
  /\ asked (trace (main E (Sample.start Sample.disk)).1) =
       [ Asked "text" "name" "Application name?";
         Asked "password" "token" "Discord bot token?" ].
Proof.
  pose proof (mode_by_existence
                (Sample.surroundings [] VUndefined Sample.accepting)
                (Sample.start Sample.disk) "my-bot" eq_refl) as [H1 H2].
  split; [exact (H1 (Sample.start Sample.disk)) | exact H2].
Defined.

(** C3: when the target path exists and the answer to the confirmation
    is negative or the question is cancelled, the run ends having only
    asked its two questions, printed an empty line and printed the string
    [Quitting...] with [console.error] (a string: no stack trace); the
    file system and the working directory are untouched, no command is
    spawned, no step message is printed, and the script itself returns
    normally: the abort was caught. *)
Theorem declined_update_quits (E : env) (w : world) (name : string) :
  answers E "name" = VString name ->
  existsSync (resolve E name) (fs w) = true ->
  answers E "update" = VBool false \/ answers E "update" = VUndefined ->
  main E w =
    ({| fs := fs w;
        cwd := cwd w;
        trace :=
          trace w ++
            [ Stdout banner;
              Asked "text" "name" "Application name?";
              Asked "confirm" "update"
                ("Directory '" +:+ path_string (resolve E name)
                   +:+ "' already exists. Do you want to update it?");
              Stdout EmptyString;
              Stderr (ThrownString "Quitting...") ] |},
     Ret tt).
Proof.
  intros Hname Hexists Hupdate.
  rewrite main_cases, Hname. unfold try_catch, scaffold. unfold bind at 1.
  rewrite path_resolve_cases. unfold bind at 1. rewrite build_steps_cases.
  cbn [fs after_first_question emit]. rewrite Hexists.
  assert (truthy (answers E "update") = false) as ->
    by (destruct Hupdate as [-> | ->]; reflexivity).
  unfold console_error, after_first_question, emit. cbn [fs cwd trace].
  rewrite <- !app_assoc. reflexivity.
Qed.

Lemma declined_update_quits_witness :
  main (Sample.surroundings [] (VBool false) Sample.accepting)
    (Sample.start Sample.disk_with_project) =
    ({| fs := Sample.disk_with_project;
        cwd := ["home"; "me"];
        trace :=
          [ Stdout banner;
            Asked "text" "name" "Application name?";
            Asked "confirm" "update"
              "Directory '/home/me/my-bot' already exists. Do you want to update it?";
            Stdout EmptyString;
            Stderr (ThrownString "Quitting...") ] |},
     Ret tt).
Proof.
  exact (declined_update_quits
           (Sample.surroundings [] (VBool false) Sample.accepting)
           (Sample.start Sample.disk_with_project) "my-bot"
           eq_refl eq_refl (or_introl eq_refl)).
Defined.

(** ** The step catalogs *)

(** C4, the claim as stated fails: the list built for a new project has
    six steps, not five. *)
Lemma create_steps_not_five :
  length (create_steps (Sample.surroundings [] VUndefined Sample.accepting)
            (VString "my-bot") ["home"; "me"; "my-bot"] (VString "s3cret")) = 6
  /\ length (create_steps (Sample.surroundings [] VUndefined Sample.accepting)
               (VString "my-bot") ["home"; "me"; "my-bot"] (VString "s3cret")) <> 5.
Proof. split; [reflexivity | discriminate]. Qed.

(** C4 (as amended): the list built for a new project has exactly six
    steps, in this order: create the directory, copy the boilerplate, write
    the manifest, write the token file, install the modules, generate the
    invite link; only the last one ignores dry-run. *)
Theorem create_steps_catalog (E : env) (name : value) (dir : path) (token : value) :
  length (create_steps E name dir token) = 6
  /\ map message (create_steps E name dir token) =
       [ "Creating directory '" +:+ str E name +:+ "'...";
         "Creating boilerplate...";
         "Updating package.json...";
         "Writing token.json...";
         "Installing modules...";
         nl +:+ "Generating bot invite link..." ]
  /\ map ignoreDry (create_steps E name dir token) =
       [false; false; false; false; false; true].
Proof. repeat split. Qed.

(** ** The end of a run *)

(** C5, the claim as stated fails: a run that the user ends by declining
    the update, and a run whose first step throws ([/home/me] is missing),
    both print what was thrown and end with status 0. *)
Lemma run_declined_exit_status :
  (exists w',
     run (Sample.surroundings [] (VBool false) Sample.accepting)
       (Sample.start Sample.disk_with_project) = (w', 0%Z)
     /\ last (trace w') = Some (Stderr (ThrownString "Quitting...")))
  /\ (exists w',
        run (Sample.surroundings [] VUndefined Sample.accepting)
          (Sample.start (Dir [])) = (w', 0%Z)
        /\ last (trace w') =
             Some (Stderr (fs_error "ENOENT" "mkdir" ["home"; "me"; "my-bot"]))).
Proof. split; eexists; split; reflexivity. Qed.

(** C5 (as amended): every run ends with status 0.  A run whose callback
    throws (the declined update, a failing step) prints the thrown value
    with [console.error] and then ends with status 0; a run that reaches
    its end exits through [process.exit(0)]. *)
Theorem run_exit_status (E : env) (w : world) :
  (run E w).2 = 0%Z
  /\ (forall w1 e,
        scaffold E (answers E "name") (after_first_question w) = (w1, Throw e) ->
        run E w = (emit (Stderr e) w1, 0%Z))
  /\ (forall w1 code,
        scaffold E (answers E "name") (after_first_question w) = (w1, Exit code) ->
        code = 0%Z /\ run E w = (w1, 0%Z)).
Proof.
  unfold run. rewrite main_cases. unfold try_catch.
  destruct (scaffold E (answers E "name") (after_first_question w))
    as [w1 [[] | e | code]] eqn:Hs.
  - repeat split; intros; discriminate.
  - repeat split; intros; simplify_eq; reflexivity.
  - pose proof (scaffold_exits_zero _ _ _ _ _ Hs) as ->.
    repeat split; intros; simplify_eq; reflexivity.
Qed.

(** ** The update step *)

(** C7: the list built for an update has one step.  However its action
    ends (also when one of its two copies throws half-way), it changes
    neither the working directory nor the console, and on the file system
    it is seen only under [src/core] and at [src/index.js] of the target:
    every regular file elsewhere reads as before, every entry elsewhere
    is as before, except that the directory [src] of the target is made
    if it was missing.  When the action ends normally on a well-formed
    file system, every file of the template's [src/core] is in the
    target's [src/core] under the same relative path, and the target's
    [src/index.js] is the template's (the template not lying under the
    target's [src/core]).  And the action does end normally, on a
    well-formed file system where the template and the target lie apart,
    when the template has its [src/core] and [src/index.js], the target
    is a directory with no regular file for [src], and the two copies
    meet no clash of a file with a directory where they land. *)
Theorem update_step_frame (E : env) (name : value) (dir : path) (w : world) :
  existsSync dir (fs w) = true ->
  exists step : Step,
    update_steps E name dir = [step]
    /\ (forall w' r, action step w = (w', r) ->
         cwd w' = cwd w /\ trace w' = trace w
         /\ (forall q,
               ~ (dir ++ ["src"; "core"]) `prefix_of` q ->
               ~ (dir ++ ["src"; "index.js"]) `prefix_of` q ->
               read_file q (fs w') = read_file q (fs w)
               /\ (q <> dir ++ ["src"] -> look q (fs w') = look q (fs w))
               /\ (look q (fs w') = look q (fs w)
                   \/ (look q (fs w) = None /\ look q (fs w') = Some EDir)))
         /\ (r = Ret tt -> well_formed (fs w) = true ->
             (forall rel data,
                read_file (appDir E ++ ["src"; "core"] ++ rel) (fs w) = Some data ->
                read_file (dir ++ ["src"; "core"] ++ rel) (fs w') = Some data)
             /\ (forall data,
                   read_file (appDir E ++ ["src"; "index.js"]) (fs w) = Some data ->
                   ~ (dir ++ ["src"; "core"]) `prefix_of` (appDir E ++ ["src"; "index.js"]) ->
                   read_file (dir ++ ["src"; "index.js"]) (fs w') = Some data)))
    /\ (forall s1 s2,
          well_formed (fs w) = true ->
          apart (appDir E) dir ->
          find (appDir E ++ ["src"; "core"]) (fs w) = Some s1 ->
          find (appDir E ++ ["src"; "index.js"]) (fs w) = Some s2 ->
          stat dir (fs w) = Some KDir ->
          stat (dir ++ ["src"]) (fs w) <> Some KFile ->
          fits s1 (find (dir ++ ["src"; "core"]) (fs w)) = true ->
          fits s2 (find (dir ++ ["src"; "index.js"]) (fs w)) = true ->
          exists w', action step w = (w', Ret tt)).
Proof.
  intros Hdir. eexists. split; [reflexivity |]. cbn [action]. split; [| clear Hdir].
  2: { intros s1 s2 Hwf Hapart Hs1 Hs2 Hkdir Hmid Hfit1 Hfit2. rewrite fs_call_twice.
       destruct (copySync_into (appDir E ++ ["src"; "core"]) dir "src" "core" (fs w) s1 Hs1)
         as (rootA & H1 & HdirA & HmidA);
         [by eapply well_formed_find | by apply apart_app | done.. |].
       rewrite H1.
       assert (HsA : find (appDir E ++ ["src"; "index.js"]) rootA = Some s2).
       { rewrite <- Hs2. apply (copySync_apart _ _ _ _ _ _ H1). by apply apart_app. }
       destruct (copySync_into (appDir E ++ ["src"; "index.js"]) dir "src" "index.js"
                   rootA s2 HsA) as (rootB & H2 & _).
       - by eapply (well_formed_find _ (fs w)).
       - by apply apart_app.
       - done.
       - by rewrite HmidA.
       - rewrite (copySync_apart _ _ _ _ _ _ H1); [done |].
         replace (dir ++ ["src"; "core"]) with ((dir ++ ["src"]) ++ ["core"])
           by (by rewrite <- app_assoc).
         replace (dir ++ ["src"; "index.js"]) with ((dir ++ ["src"]) ++ ["index.js"])
           by (by rewrite <- app_assoc).
         by apply apart_siblings.
       - rewrite H2. by eexists. }
  intros w' r. rewrite fs_call_twice.
  set (src1 := appDir E ++ ["src"; "core"]). set (dest1 := dir ++ ["src"; "core"]).
  set (src2 := appDir E ++ ["src"; "index.js"]). set (dest2 := dir ++ ["src"; "index.js"]).
  assert (Hparent1 : parent dest1 = dir ++ ["src"]) by apply removelast_snoc.
  assert (Hparent2 : parent dest2 = dir ++ ["src"]) by apply removelast_snoc.
  (* the frame of the two copies, one after the other *)
  assert (Hframe : forall root1 e1 root2 e2 q,
             copySync src1 dest1 (fs w) = (root1, e1) ->
             (root2 = root1 \/ copySync src2 dest2 root1 = (root2, e2)) ->
             ~ dest1 `prefix_of` q -> ~ dest2 `prefix_of` q ->
             look q root2 = look q (fs w)
             \/ (look q (fs w) = None /\ look q root2 = Some EDir /\ q = dir ++ ["src"])).
  { intros root1 e1 root2 e2 q H1 H2 Hq1 Hq2.
    assert (Hnew : forall root, look q (fs w) = None -> look q root = Some EDir ->
                                q `prefix_of` dir ++ ["src"] ->
                                look q (fs w) = None /\ look q root = Some EDir
                                /\ q = dir ++ ["src"]).
    { intros root Hnone Hmade Hpre. split; [done |]. split; [done |].
      apply prefix_snoc_cases in Hpre as [Hpre | ->]; [| done].
      apply existsSync_look in Hdir.
      destruct (look_prefix _ _ _ Hdir Hpre) as [x Hx]. congruence. }
    destruct (copySync_frame _ _ _ _ _ q H1 Hq1) as [Heq1 | (Hnone1 & Hmade1 & Hpre1)].
    - destruct H2 as [-> | H2]; [by left |].
      destruct (copySync_frame _ _ _ _ _ q H2 Hq2) as [Heq2 | (Hnone2 & Hmade2 & Hpre2)].
      + left. congruence.
      + right. rewrite Hparent2 in Hpre2. rewrite Heq1 in Hnone2. by apply Hnew.
    - rewrite Hparent1 in Hpre1.
      destruct H2 as [-> | H2]; [right; by apply Hnew |].
      destruct (copySync_frame _ _ _ _ _ q H2 Hq2) as [Heq2 | (Hnone2 & Hmade2 & Hpre2)].
      + right. rewrite Heq2. by apply Hnew.
      + congruence. }
  assert (Hlook : forall root1 e1 root2 e2,
             copySync src1 dest1 (fs w) = (root1, e1) ->
             (root2 = root1 \/ copySync src2 dest2 root1 = (root2, e2)) ->
             forall q, ~ dest1 `prefix_of` q -> ~ dest2 `prefix_of` q ->
               read_file q root2 = read_file q (fs w)
               /\ (q <> dir ++ ["src"] -> look q root2 = look q (fs w))
               /\ (look q root2 = look q (fs w)
                   \/ (look q (fs w) = None /\ look q root2 = Some EDir))).
  { intros root1 e1 root2 e2 H1 H2 q Hq1 Hq2.
    destruct (Hframe _ _ _ _ q H1 H2 Hq1 Hq2) as [Heq | (Hnone & Hmade & ->)].
    - rewrite !read_file_look, Heq. auto.
    - rewrite !read_file_look, Hnone, Hmade. repeat split; [done | by right]. }
  destruct (copySync src1 dest1 (fs w)) as [root1 [e1 |]] eqn:H1.
  { intros [= <- <-]. cbn [fs cwd trace set_fs]. repeat split; try done.
    1-3: by eapply (Hlook root1 (Some e1) root1 None); eauto. }
  destruct (copySync src2 dest2 root1) as [root2 [e2 |]] eqn:H2.
  { intros [= <- <-]. cbn [fs cwd trace set_fs]. repeat split; try done.
    1-3: by eapply (Hlook root1 None root2 (Some e2)); eauto. }
  intros [= <- <-]. cbn [fs cwd trace set_fs].
  split; [done |]. split; [done |]. split.
  { intros q Hq1 Hq2. by eapply (Hlook root1 None root2 None); eauto. }
  intros _ Hwf. split.
  - intros rel data Hrel. unfold read_file in Hrel.
    rewrite app_assoc, find_app in Hrel. fold src1 in Hrel.
    destruct (find src1 (fs w)) as [s |] eqn:Hs; [| discriminate]. cbn [find_in] in Hrel.
    destruct (find rel s) as [[data' | ] |] eqn:Hfind; try discriminate.
    injection Hrel as ->.
    pose proof (copySync_brings _ _ _ _ _ _ _ H1 Hs (well_formed_find _ _ _ Hwf Hs) Hfind)
      as Hcore.
    rewrite app_assoc. fold dest1.
    destruct (copySync_frame _ _ _ _ _ (dest1 ++ rel) H2) as [Heq | (Hnone & _)].
    + unfold dest1, dest2. rewrite <- app_assoc. by apply prefix_diverge.
    + by rewrite read_file_look, Heq, <- read_file_look.
    + rewrite read_file_look, Hnone in Hcore. discriminate.
  - intros data Hdata Hapart. fold src2 in Hdata, Hapart. fold dest1 in Hapart.
    assert (Hs : find src2 root1 = Some (File data)).
    { destruct (copySync_frame _ _ _ _ _ src2 H1 Hapart) as [Heq | (Hnone & _)].
      - rewrite read_file_look, <- Heq in Hdata. unfold look in Hdata.
        by destruct (find src2 root1) as [[] |]; simplify_eq/=.
      - rewrite read_file_look, Hnone in Hdata. discriminate. }
    pose proof (copySync_brings _ _ _ _ (File data) [] data H2 Hs eq_refl eq_refl) as Hfile.
    by rewrite app_nil_r in Hfile.
Qed.

Lemma update_step_frame_witness :
  exists (step : Step) (w' : world),
    update_steps (Sample.surroundings [] (VBool true) Sample.accepting)
      (VString "my-bot") ["home"; "me"; "my-bot"] = [step]
    /\ action step (Sample.start Sample.disk_with_project) = (w', Ret tt)
    /\ read_file ["home"; "me"; "my-bot"; "notes.txt"] (fs w') = Some "mine"
    /\ read_file ["home"; "me"; "my-bot"; "src"; "widgets"; "hello.js"] (fs w')
         = Some "mine too"
    /\ read_file ["home"; "me"; "my-bot"; "src"; "core"; "client.js"] (fs w')
         = Some "module.exports = {};"
    /\ read_file ["home"; "me"; "my-bot"; "src"; "index.js"] (fs w')
         = Some "require('./core');".
Proof.
  destruct (update_step_frame (Sample.surroundings [] (VBool true) Sample.accepting)
              (VString "my-bot") ["home"; "me"; "my-bot"]
              (Sample.start Sample.disk_with_project) eq_refl)
    as (step & Hstep & Hall & Hends).
  destruct (Hends (Dir [ ("client.js", File "module.exports = {};") ])
              (File "require('./core');") eq_refl) as [w' Hrun].
  - split; intros H; by apply prefix_cons_inv_1 in H.
  - reflexivity.
  - reflexivity.
  - reflexivity.
  - discriminate.
  - reflexivity.
  - reflexivity.
  - destruct (Hall w' (Ret tt) Hrun) as (_ & _ & Hframe & Hcopy).
    destruct (Hcopy eq_refl eq_refl) as [Hcore Hindex].
    exists step, w'. split; [exact Hstep |]. split; [exact Hrun |].
    split; [apply (Hframe ["home"; "me"; "my-bot"; "notes.txt"]); compute_done |].
    split;
      [apply (Hframe ["home"; "me"; "my-bot"; "src"; "widgets"; "hello.js"]); compute_done |].
    split.
    + apply (Hcore ["client.js"]). reflexivity.
    + apply Hindex; [reflexivity | compute_done].
Defined.

(** ** The generated files *)

(** C8: in an existing target directory whose [package.json] is not a
    directory, the third step of a new project ends normally and leaves at
    [package.json] the text of [JSON.stringify(newPackage, null, 2)]
    followed by a newline, every other file reading as before.  The fields
    of [newPackage] are those of the template's manifest, in their order,
    but for [name], which is the project name, and [description], which
    is [Generated by create-discord-bot v3.10.2.]; the text has one
    property per line, each behind two spaces, between the braces. *)
Theorem manifest_step (E : env) (name : string) (dir : path) (token : value) (w : world) :
  stat dir (fs w) = Some KDir ->
  stat (dir ++ ["package.json"]) (fs w) <> Some KDir ->
  exists (step : Step) (fields : list (string * value)) (w' : world),
    create_steps E (VString name) dir token !! 2%nat = Some step
    /\ message step = "Updating package.json..."
    /\ action step w = (w', Ret tt)
    /\ cwd w' = cwd w /\ trace w' = trace w
    /\ read_file (dir ++ ["package.json"]) (fs w') =
         Some (JSON_stringify2 (number_to_string E) (VObject fields) +:+ nl)
    /\ (forall q, q <> dir ++ ["package.json"] ->
          read_file q (fs w') = read_file q (fs w))
    /\ assoc "name" fields = Some (VString name)
    /\ assoc "description" fields = Some (VString "Generated by create-discord-bot v3.10.2.")
    /\ (forall k, k <> "name" -> k <> "description" ->
          assoc k fields = assoc k (appPackage E))
    /\ (is_Some (assoc "name" (appPackage E)) ->
        is_Some (assoc "description" (appPackage E)) ->
        map fst fields = map fst (appPackage E))
    /\ JSON_stringify2 (number_to_string E) (VObject fields) =
         "{" +:+ nl
           +:+ join ("," +:+ nl)
                 (map (String.append "  ")
                    (members "  " (serialize (number_to_string E) "  " "  ") fields))
           +:+ nl +:+ "}".
Proof.
  intros Hdir Hfile.
  set (fields := assoc_set "description"
                   (VString "Generated by create-discord-bot v3.10.2.")
                   (assoc_set "name" (VString name) (appPackage E))).
  assert (Hname : assoc "name" fields = Some (VString name)).
  { unfold fields. rewrite assoc_set_ne by discriminate. apply assoc_set_eq. }
  destruct (writeFileSync_child dir "package.json"
              (JSON_stringify2 (number_to_string E) (VObject fields) +:+ nl)
              (fs w) Hdir Hfile) as (root' & Hw & Hread & Hothers & _).
  eexists _, fields, (set_fs root' w).
  split; [reflexivity |]. split; [reflexivity |].
  split. { cbn [action]. unfold fs_call. change (newPackage E (VString name)) with (VObject fields).
           by rewrite Hw. }
  split; [done |]. split; [done |]. split; [exact Hread |]. split; [exact Hothers |].
  split; [exact Hname |].
  split; [apply assoc_set_eq |].
  split. { intros k Hk1 Hk2. unfold fields. by rewrite !assoc_set_ne. }
  split.
  { intros H1 H2. unfold fields. rewrite !assoc_set_keys; try done.
    destruct H2 as [d Hd]. rewrite assoc_set_ne by discriminate. by eexists. }
  unfold JSON_stringify2. cbn [serialize default].
  change (EmptyString +:+ "  ") with "  ".
  apply layout_two_spaces. eapply members_nonempty; [exact Hname | by eexists].
Qed.

(** The manifest of the sample project, line by line. *)
Example sample_manifest_text :
  JSON_stringify2 Sample.print_number
    (newPackage (Sample.surroundings [] VUndefined Sample.accepting) (VString "my-bot")) =
  join nl
    [ "{";
      "  " +:+ quote "name" +:+ ": " +:+ quote "my-bot" +:+ ",";
      "  " +:+ quote "version" +:+ ": " +:+ quote "1.0.0" +:+ ",";
      "  " +:+ quote "description" +:+ ": "
           +:+ quote "Generated by create-discord-bot v3.10.2." +:+ ",";
      "  " +:+ quote "scripts" +:+ ": {";
      "    " +:+ quote "start" +:+ ": " +:+ quote "node src/index.js";
      "  },";
      "  " +:+ quote "dependencies" +:+ ": {";
      "    " +:+ quote "discord.js" +:+ ": " +:+ quote "^12.3.1";
      "  }";
      "}" ].
Proof. reflexivity. Qed.

Lemma manifest_step_witness :
  exists (step : Step) (fields : list (string * value)) (w' : world),
    create_steps (Sample.surroundings [] VUndefined Sample.accepting)
      (VString "my-bot") ["home"; "me"; "my-bot"] (VString "s3cret") !! 2%nat = Some step
    /\ action step (Sample.start Sample.disk_with_project) = (w', Ret tt)
    /\ read_file ["home"; "me"; "my-bot"; "package.json"] (fs w') =
         Some (JSON_stringify2 Sample.print_number (VObject fields) +:+ nl)
    /\ assoc "name" fields = Some (VString "my-bot")
    /\ assoc "version" fields = Some (VString "1.0.0").
Proof.
  destruct (manifest_step (Sample.surroundings [] VUndefined Sample.accepting)
              "my-bot" ["home"; "me"; "my-bot"] (VString "s3cret")
              (Sample.start Sample.disk_with_project) eq_refl)
    as (step & fields & w' & H1 & _ & H3 & _ & _ & H6 & _ & H8 & _ & H10 & _).
  - discriminate.
  - exists step, fields, w'. repeat split; try assumption.
    rewrite H10 by discriminate. reflexivity.
Defined.

(** C9: a run for a new project, up to the installation.  The target
    does not exist, its parent is a directory, the template is a
    well-formed directory that does not contain the target and has no
    directory named [.gitignore], [package.json] or [token.json].  Then
    the first four steps all end normally; afterwards [.gitignore] lists
    [node_modules/] and [token.json], one per line; [token.json], a file
    other than the manifest [package.json], holds the JSON text of an
    object whose one field [token] is the credential, on two-space
    indentation and ended by a newline; the other files of the template
    are in the target; nothing outside the target has changed. *)
Theorem create_run_files (E : env) (name token : string) (dir : path) (w : world)
    (items : list (string * node)) :
  existsSync dir (fs w) = false ->
  stat (parent dir) (fs w) = Some KDir ->
  find (appDir E) (fs w) = Some (Dir items) ->
  well_formed (Dir items) = true ->
  ~ appDir E `prefix_of` dir ->
  (forall k entries,
     k ∈ [".gitignore"; "package.json"; "token.json"] -> assoc k items <> Some (Dir entries)) ->
  exists w4 : world,
    run_steps false (take 4 (create_steps E (VString name) dir (VString token))) w
      = (w4, Ret tt)
    /\ read_file (dir ++ [".gitignore"]) (fs w4)
         = Some (join EmptyString (map (fun line => line +:+ nl) ignore_lines))
    /\ read_file (dir ++ ["token.json"]) (fs w4)
         = Some ("{" +:+ nl +:+ "  " +:+ quote "token" +:+ ": " +:+ quote token +:+ nl
                   +:+ "}" +:+ nl)
    /\ read_file (dir ++ ["package.json"]) (fs w4)
         = Some (JSON_stringify2 (number_to_string E) (newPackage E (VString name)) +:+ nl)
    /\ dir ++ ["token.json"] <> dir ++ ["package.json"]
    /\ "token.json" ∈ ignore_lines /\ "node_modules/" ∈ ignore_lines
    /\ (forall rel data,
          rel ∉ [[".gitignore"]; ["package.json"]; ["token.json"]] ->
          read_file (appDir E ++ rel) (fs w) = Some data ->
          read_file (dir ++ rel) (fs w4) = Some data)
    /\ (forall q, ~ dir `prefix_of` q -> read_file q (fs w4) = read_file q (fs w))
    /\ cwd w4 = cwd w.
Proof.
  intros Hnew Hparent Htemplate Hwf Hinside Hplain.
  (* the target is a child of its parent *)
  assert (Hdir : exists leaf, dir = parent dir ++ [leaf]).
  { destruct dir as [| k dir] using rev_ind; [discriminate |].
    exists k. unfold parent. by rewrite removelast_snoc1. }
  destruct Hdir as [leaf Hdir]. set (base := parent dir) in *. clearbody base. subst dir.
  set (dir := base ++ [leaf]) in *.
  (* step 1 *)
  destruct (mkdirSync_child base leaf (fs w) Hparent Hnew)
    as (root1 & Hmk & Hdir1 & Hlook1 & Hfind1). fold dir in Hmk, Hdir1, Hlook1, Hfind1.
  assert (Hoff : ~ dir `prefix_of` appDir E).
  { intros Hpre. apply not_true_iff_false in Hnew. apply Hnew, existsSync_look.
    apply (look_prefix (appDir E)); [| done]. unfold look. rewrite Htemplate. by eexists. }
  assert (Htemplate1 : find (appDir E) root1 = Some (Dir items)).
  { by rewrite Hfind1. }
  assert (Hne : appDir E <> dir) by (intros Heq; apply Hoff; by rewrite Heq).
  (* step 2 *)
  destruct (copySync_empty (appDir E) dir root1 items Htemplate1 Hwf Hdir1 Hne Hinside)
    as (root2 & Hcp & Hdir2 & Hlook2).
  destruct (writeFileSync_child dir ".gitignore"
              ("node_modules/" +:+ nl +:+ "token.json" +:+ nl) root2)
    as (root3 & Hw3 & Hread3 & Hothers3 & Hlook3).
  { by eapply stat_find_dir. }
  { apply (stat_child_of _ _ _ _ Hdir2). intros entries. apply Hplain. in_list. }
  (* step 3 *)
  destruct (writeFileSync_child dir "package.json"
              (JSON_stringify2 (number_to_string E) (newPackage E (VString name)) +:+ nl)
              root3)
    as (root4 & Hw4 & Hread4 & Hothers4 & Hlook4).
  { rewrite (stat_by_look _ root2) by (apply Hlook3, prefix_snoc_not).
    by eapply stat_find_dir. }
  { rewrite (stat_by_look _ root2).
    - apply (stat_child_of _ _ _ _ Hdir2). intros entries. apply Hplain. in_list.
    - apply Hlook3. rewrite <- (app_nil_r (dir ++ ["package.json"])), <- app_assoc.
      by apply not_prefix_sibling. }
  (* step 4 *)
  destruct (writeFileSync_child dir "token.json"
              (JSON_stringify2 (number_to_string E) (VObject [("token", VString token)])
                 +:+ nl) root4)
    as (root5 & Hw5 & Hread5 & Hothers5 & Hlook5).
  { rewrite (stat_by_look _ root3) by (apply Hlook4, prefix_snoc_not).
    rewrite (stat_by_look _ root2) by (apply Hlook3, prefix_snoc_not).
    by eapply stat_find_dir. }
  { rewrite (stat_by_look _ root3), (stat_by_look _ root2).
    - apply (stat_child_of _ _ _ _ Hdir2). intros entries. apply Hplain. in_list.
    - apply Hlook3. rewrite <- (app_nil_r (dir ++ ["token.json"])), <- app_assoc.
      by apply not_prefix_sibling.
    - apply Hlook4. rewrite <- (app_nil_r (dir ++ ["token.json"])), <- app_assoc.
      by apply not_prefix_sibling. }
  (* the run *)
  exists {| fs := root5;
            cwd := cwd w;
            trace := trace w ++
              [ Stdout ("Creating directory '" +:+ name +:+ "'...");
                Stdout "Creating boilerplate...";
                Stdout "Updating package.json...";
                Stdout "Writing token.json..." ] |}.
  split.
  { unfold create_steps. cbn [take].
    rewrite run_steps_cons. cbn [ignoreDry message action orb negb]. cbn zeta.
    unfold fs_call at 1. cbn [fs emit]. rewrite Hmk.
    rewrite run_steps_cons. cbn [ignoreDry message action orb negb]. cbn zeta.
    rewrite fs_call_twice. cbn [fs emit set_fs]. rewrite Hcp, Hw3.
    rewrite run_steps_cons. cbn [ignoreDry message action orb negb]. cbn zeta.
    unfold fs_call at 1. cbn [fs emit set_fs]. rewrite Hw4.
    rewrite run_steps_cons. cbn [ignoreDry message action orb negb]. cbn zeta.
    unfold fs_call at 1. cbn [fs emit set_fs]. rewrite Hw5.
    unfold run_steps, set_fs, emit. cbn [forEach ret fs cwd trace]. unfold ret.
    rewrite <- !app_assoc. reflexivity. }
  cbn [fs cwd].
  split.
  { rewrite Hothers5, Hothers4; [exact Hread3 | |]; intros H; by apply app_inv_head in H. }
  split.
  { rewrite Hread5. f_equal. apply token_text. }
  split.
  { rewrite Hothers5; [exact Hread4 |]. intros H; by apply app_inv_head in H. }
  split. { intros H; by apply app_inv_head in H. }
  split. { unfold ignore_lines. in_list. }
  split. { unfold ignore_lines. in_list. }
  split.
  { intros rel data Hrel Hdata.
    assert (forall k, k ∈ [".gitignore"; "package.json"; "token.json"] ->
                     dir ++ rel <> dir ++ [k]) as Hk.
    { intros k Hk Heq. apply app_inv_head in Heq. subst rel. apply Hrel.
      repeat (apply elem_of_cons in Hk as [-> | Hk]; [in_list |]).
      by apply elem_of_nil in Hk. }
    rewrite Hothers5, Hothers4, Hothers3 by (apply Hk; in_list).
    unfold read_file in *. rewrite find_app in *. by rewrite Hdir2, <- Htemplate. }
  split; [| done].
  intros q Hq.
  rewrite (read_by_look q root4) by (by apply Hlook5, not_prefix_outside).
  rewrite (read_by_look q root3) by (by apply Hlook4, not_prefix_outside).
  rewrite (read_by_look q root2) by (by apply Hlook3, not_prefix_outside).
  rewrite (read_by_look q root1) by (by apply Hlook2).
  apply read_by_look. by apply Hlook1.
Qed.

Lemma create_run_files_witness :
  exists w4 : world,
    run_steps false
      (take 4 (create_steps (Sample.surroundings [] VUndefined Sample.accepting)
                 (VString "my-bot") ["home"; "me"; "my-bot"] (VString "s3cret")))
      (Sample.start Sample.disk) = (w4, Ret tt)
    /\ read_file ["home"; "me"; "my-bot"; ".gitignore"] (fs w4)
         = Some ("node_modules/" +:+ nl +:+ "token.json" +:+ nl)
    /\ read_file ["home"; "me"; "my-bot"; "token.json"] (fs w4)
         = Some ("{" +:+ nl +:+ "  " +:+ quote "token" +:+ ": " +:+ quote "s3cret" +:+ nl
                   +:+ "}" +:+ nl)
    /\ read_file ["home"; "me"; "my-bot"; "README.md"] (fs w4) = Some "# bot".
Proof.
  destruct (create_run_files (Sample.surroundings [] VUndefined Sample.accepting)
              "my-bot" "s3cret" ["home"; "me"; "my-bot"] (Sample.start Sample.disk)
              [ ("package.json",
                 File (JSON_stringify2 Sample.print_number (VObject Sample.manifest) +:+ nl));
                ("README.md", File "# bot");
                ("src", Dir [ ("index.js", File "require('./core');");
                              ("core", Dir [ ("client.js", File "module.exports = {};") ]) ]) ]
              eq_refl eq_refl eq_refl eq_refl)
    as (w4 & H1 & H2 & H3 & _ & _ & _ & _ & H8 & _).
  - compute_done.
  - intros k entries Hk.
    repeat (apply elem_of_cons in Hk as [-> | Hk]; [discriminate |]).
    by apply elem_of_nil in Hk.
  - exists w4. repeat split; try assumption.
    apply (H8 ["README.md"]); [| reflexivity].
    intros Hin.
    repeat (apply elem_of_cons in Hin as [Hin | Hin]; [discriminate |]).
    by apply elem_of_nil in Hin.
Defined.

(** * Further properties *)

(** ** The loop over the steps *)

(** X1: running a list of steps end to end is running its front and
    then, only if the front ended normally, its back: once an action
    throws, no later step prints its message or runs. *)
Theorem run_steps_app (dry : bool) (l1 l2 : list Step) (w : world) :
  run_steps dry (l1 ++ l2) w =
    match run_steps dry l1 w with
    | (w', Ret _) => run_steps dry l2 w'
    | (w', Throw e) => (w', Throw e)
    | (w', Exit code) => (w', Exit code)
    end.
Proof.
  revert w. induction l1 as [| s l1 IH]; intros w; [reflexivity |].
  cbn [app]. rewrite !run_steps_cons. cbn zeta.
  destruct (ignoreDry s || negb dry); [| apply IH].
  destruct (action s _) as [w2 [[] | e | code]]; [apply IH | reflexivity..].
Qed.

(** Under dry-run, steps that do not ignore it only print. *)
Lemma run_steps_dry_plain (steps : list Step) (w : world) :
  Forall (fun s => ignoreDry s = false) steps ->
  run_steps true steps w =
    ({| fs := fs w; cwd := cwd w; trace := trace w ++ map Stdout (map message steps) |},
     Ret tt).
Proof.
  revert w. induction steps as [| s steps IH]; intros w Hall.
  - destruct w. cbn. by rewrite app_nil_r.
  - apply List.Forall_cons_iff in Hall as [Hs Hall].
    rewrite run_steps_cons, Hs. cbn [orb negb]. cbn zeta.
    rewrite (IH _ Hall). cbn [emit fs cwd trace map].
    by rewrite <- app_assoc.
Qed.

(** The invite-link step, in any world. *)
(** ** The callback, once the steps are built *)

Lemma main_with_steps (E : env) (w w1 : world) (name : string) (steps : list Step) :
  answers E "name" = VString name ->
  build_steps E (VString name) (resolve E name) (after_first_question w) = (w1, Ret steps) ->
  main E w =
    match run_steps (isDryRun E) steps (emit (Stdout EmptyString) w1) with
    | (w2, Ret _) =>
        (emit (Stdout (done_message name)) (emit (Stdout EmptyString) w2), Exit 0%Z)
    | (w2, Throw e) => (emit (Stderr e) w2, Ret tt)
    | (w2, Exit code) => (w2, Exit code)
    end.
Proof.
  intros Hname Hb. rewrite main_cases, Hname. unfold try_catch, scaffold.
  unfold bind at 1. rewrite path_resolve_cases. unfold bind at 1. rewrite Hb.
  unfold bind at 1. cbn [console_log]. unfold bind at 1.
  destruct (run_steps (isDryRun E) steps (emit (Stdout EmptyString) w1))
    as [w2 [[] | e | code]]; reflexivity.
Qed.

Lemma main_without_name (E : env) (w : world) :
  (forall s, answers E "name" <> VString s) ->
  main E w =
    (emit (Stderr (ThrownError "TypeError" "The 'path' argument must be of type string."))
       (after_first_question w),
     Ret tt).
Proof.
  intros Hname. rewrite main_cases. unfold try_catch, scaffold. unfold bind at 1.
  rewrite path_resolve_cases.
  destruct (answers E "name") as [| | | | s | |]; try reflexivity. by destruct (Hname s).
Qed.

Lemma last_emit (ev : event) (w : world) : last (trace (emit ev w)) = Some ev.
Proof. cbn. apply last_snoc. Qed.

(** X3: however a run goes, it ends in one of two ways: it exits with
    status 0 through [process.exit] right after printing the lines that
    begin with [Done!], or it returns right after printing, with
    [console.error], what was thrown.  Nothing is thrown past the script,
    and [Done!] is never printed after a failure. *)
Theorem main_outcome (E : env) (w : world) :
  (exists w' name,
     answers E "name" = VString name
     /\ main E w = (w', Exit 0%Z)
     /\ last (trace w') = Some (Stdout (done_message name)))
  \/ (exists w' e,
        main E w = (w', Ret tt)
        /\ last (trace w') = Some (Stderr e)).
Proof.
  destruct (answers E "name") as [| | | | name | |] eqn:Hname.
  1-4, 6-7: right; eexists _, _; rewrite main_without_name by (intros s; congruence);
    split; [reflexivity | apply last_emit].
  destruct (build_steps E (VString name) (resolve E name) (after_first_question w))
    as [w1 [steps | e | code]] eqn:Hb.
  - rewrite (main_with_steps _ _ _ _ _ Hname Hb).
    pose proof (run_steps_quiet (isDryRun E) steps
                  (build_steps_quiet_actions _ _ _ _ _ _ Hb)) as Hquiet.
    destruct (run_steps (isDryRun E) steps (emit (Stdout EmptyString) w1))
      as [w2 [[] | e | code]] eqn:Hrun.
    + left. eexists _, name. split; [done |]. split; [reflexivity | apply last_emit].
    + right. eexists _, e. split; [reflexivity | apply last_emit].
    + destruct (Hquiet _ _ _ Hrun) as [_ Hx]. by destruct (Hx code).
  - right. exists (emit (Stderr e) w1), e. split; [| apply last_emit].
    rewrite main_cases, Hname. unfold try_catch, scaffold. unfold bind at 1.
    rewrite path_resolve_cases. unfold bind at 1. by rewrite Hb.
  - destruct (build_steps_never_exits _ _ _ _ _ _ Hb) as [_ Hx]. by destruct (Hx code).
Qed.

(** X4: when the first question is cancelled (or answered by anything
    but a string), [path.resolve] throws: the run prints the banner, asks
    the one question, prints a [TypeError] and returns; it asks nothing
    more, spawns nothing and leaves the file system and the working
    directory alone. *)
Theorem cancelled_name (E : env) (w : world) :
  (forall s, answers E "name" <> VString s) ->
  exists message,
    main E w =
      ({| fs := fs w;
          cwd := cwd w;
          trace :=
            trace w ++
              [ Stdout banner;
                Asked "text" "name" "Application name?";
                Stderr (ThrownError "TypeError" message) ] |},
       Ret tt).
Proof.
  intros Hname. eexists. rewrite (main_without_name _ _ Hname).
  unfold after_first_question, emit. cbn [fs cwd trace].
  by rewrite <- !app_assoc.
Qed.

Lemma cancelled_name_witness :
  exists message,
    main (with_answers (fun _ => VUndefined)
            (Sample.surroundings [] VUndefined Sample.accepting))
      (Sample.start Sample.disk) =
      ({| fs := Sample.disk;
          cwd := ["home"; "me"];
          trace :=
            [ Stdout banner;
              Asked "text" "name" "Application name?";
              Stderr (ThrownError "TypeError" message) ] |},
       Ret tt).
Proof.
  apply (cancelled_name
           (with_answers (fun _ => VUndefined)
              (Sample.surroundings [] VUndefined Sample.accepting))
           (Sample.start Sample.disk)).
  intros s H. discriminate H.
Defined.

(** ** A dry run *)











(** ** Operations that fail in place *)

Lemma assoc_set_same {A} k (v : A) l : assoc k l = Some v -> assoc_set k v l = l.
Proof.
  induction l as [| [k' v'] l IH]; cbn; [discriminate |].
  destruct (String.eqb_spec k k') as [-> | Hne].
  - by intros [= ->].
  - intros H. by rewrite IH.
Qed.

Lemma update_at_unreachable fail p f slot :
  reachable p slot = false ->
  exists e, update_at fail p f slot = (slot, Some e).
Proof.
  revert slot. induction p as [| k p IH]; intros slot Hr; [discriminate |].
  cbn in Hr |- *. destruct slot as [[data | entries] |]; [by eexists | | by eexists].
  destruct (IH _ Hr) as [e ->].
  destruct (assoc k entries) as [c |] eqn:Hk; [| by eexists].
  rewrite (assoc_set_same _ _ _ Hk). by eexists.
Qed.

Lemma reachable_parent dir k slot :
  reachable (dir ++ [k]) slot = true -> exists entries, find_in dir slot = Some (Dir entries).
Proof.
  revert slot. induction dir as [| k0 dir IH]; intros slot Hr; cbn in Hr.
  - destruct slot as [[data | entries] |]; try discriminate. rewrite find_in_nil. eauto.
  - destruct slot as [[data | entries] |]; try discriminate.
    cbn [find_in]. rewrite find_cons. by apply IH.
Qed.

Lemma path_snoc (p : path) (root : node) :
  existsSync p root = false -> exists k, p = parent p ++ [k].
Proof.
  destruct p as [| k p _] using rev_ind; [discriminate |].
  intros _. exists k. unfold parent. by rewrite removelast_snoc1.
Qed.

(** [mkdirSync] under something that is not a directory: an error and
    the same file system. *)
Lemma mkdirSync_fails (p : path) (root : node) :
  existsSync p root = false ->
  stat (parent p) root <> Some KDir ->
  exists e, mkdirSync p root = (root, Some e).
Proof.
  intros Hnew Hparent. destruct (path_snoc _ _ Hnew) as [k Hp].
  unfold mkdirSync, fs_update.
  match goal with
  | |- context [update_at ?fail p ?f (Some root)] =>
      destruct (update_at_unreachable fail p f (Some root)) as [e ->]
  end; [| by eexists].
  apply not_true_is_false. intros Hr. rewrite Hp in Hr.
  apply reachable_parent in Hr as [entries Hentries]. apply Hparent.
  by eapply stat_find_dir.
Qed.

Lemma mkdirs_at_under_file whole dir r slot data :
  find_in dir slot = Some (File data) ->
  exists e, mkdirs_at whole (dir ++ r) slot = inl e.
Proof.
  revert slot. induction dir as [| k dir IH]; intros slot H.
  - rewrite find_in_nil in H. subst slot. destruct r; by eexists.
  - destruct slot as [[data' | entries] |]; try discriminate.
    cbn [find_in] in H. rewrite find_cons in H.
    destruct (IH _ H) as [e He]. cbn.
    change ((fix app (l m : list string) {struct l} : list string :=
               match l with [] => m | a :: l1 => a :: app l1 m end) dir r)
      with (dir ++ r).
    rewrite He. by eexists.
Qed.

(** [copySync] to a place under a regular file: an error and the same
    file system. *)
Lemma copySync_under_file src dir a b root data :
  find dir root = Some (File data) ->
  exists e, copySync src (dir ++ [a; b]) root = (root, Some e).
Proof.
  intros Hfile. unfold copySync.
  destruct (find src root) as [s |]; [| by eexists].
  destruct (bool_decide (src = dir ++ [a; b])); [by eexists |].
  destruct (is_dir s && bool_decide (src `prefix_of` dir ++ [a; b])); [by eexists |].
  unfold parent. rewrite !removelast_snoc.
  assert (existsSync (dir ++ [a]) root = false) as ->.
  { unfold existsSync. by rewrite (find_file_below _ [a] _ _ Hfile). }
  unfold mkdirs.
  destruct (mkdirs_at_under_file (dir ++ [a]) dir [a] (Some root) data Hfile) as [e ->].
  by eexists.
Qed.

(** ** Runs that fail early *)

(** X5: in a run for a new project whose target cannot be made (its
    parent is missing or is not a directory), the first step throws:
    the run has asked for the name and the token, printed the message of
    the first step and the error, and returns; nothing is written, no
    later step prints or runs, no command is spawned. *)
Theorem create_stops_at_mkdir (E : env) (w : world) (name : string) :
  answers E "name" = VString name ->
  isDryRun E = false ->
  existsSync (resolve E name) (fs w) = false ->
  stat (parent (resolve E name)) (fs w) <> Some KDir ->
  exists e,
    main E w =
      ({| fs := fs w;
          cwd := cwd w;
          trace :=
            trace w ++ create_prelude
              ++ [ Stdout ("Creating directory '" +:+ name +:+ "'..."); Stderr e ] |},
       Ret tt).
Proof.
  intros Hname Hdry Hnew Hparent.
  destruct (mkdirSync_fails _ _ Hnew Hparent) as [e Hmk]. exists e.
  erewrite main_with_steps; [| exact Hname |].
  2: { rewrite build_steps_cases. cbn [fs after_first_question emit].
       rewrite Hnew. reflexivity. }
  rewrite Hdry. unfold create_steps. rewrite run_steps_cons.
  cbn [ignoreDry message action orb negb]. cbn zeta.
  unfold fs_call. cbn [fs emit after_first_question]. rewrite Hmk.
  unfold after_first_question, emit, set_fs, create_prelude. cbn [fs cwd trace].
  rewrite <- !app_assoc. reflexivity.
Qed.

Lemma create_stops_at_mkdir_witness :
  exists e,
    main (Sample.surroundings [] VUndefined Sample.accepting) (Sample.start (Dir [])) =
      ({| fs := Dir [];
          cwd := ["home"; "me"];
          trace :=
            create_prelude ++ [ Stdout "Creating directory 'my-bot'..."; Stderr e ] |},
       Ret tt).
Proof.
  apply (create_stops_at_mkdir (Sample.surroundings [] VUndefined Sample.accepting)
           (Sample.start (Dir [])) "my-bot"); [reflexivity.. |].
  discriminate.
Defined.

(** X9: when the target of an update is a regular file (it exists, so
    the run takes it for a project), the update step throws and the world
    is as before: neither copy writes anything. *)
Theorem update_of_a_file_fails (E : env) (name : value) (dir : path) (w : world)
    (data : string) :
  find dir (fs w) = Some (File data) ->
  exists step e,
    update_steps E name dir = [step] /\ action step w = (w, Throw e).
Proof.
  intros Hfile.
  destruct (copySync_under_file (appDir E ++ ["src"; "core"]) dir "src" "core"
              (fs w) data Hfile) as [e He].
  eexists _, e. split; [reflexivity |]. cbn [action].
  rewrite fs_call_twice, He. destruct w. reflexivity.
Qed.

Lemma update_of_a_file_fails_witness :
  exists step e,
    update_steps (Sample.surroundings [] (VBool true) Sample.accepting)
      (VString "my-bot") ["home"; "me"; "my-bot"] = [step]
    /\ action step (Sample.start (Dir [ ("home", Dir [ ("me", Dir [ ("my-bot", File "x") ]) ]) ]))
       = (Sample.start (Dir [ ("home", Dir [ ("me", Dir [ ("my-bot", File "x") ]) ]) ]),
          Throw e).
Proof.
  exact (update_of_a_file_fails (Sample.surroundings [] (VBool true) Sample.accepting)
           (VString "my-bot") ["home"; "me"; "my-bot"]
           (Sample.start (Dir [ ("home", Dir [ ("me", Dir [ ("my-bot", File "x") ]) ]) ]))
           "x" eq_refl).
Defined.

(** ** A whole update *)

(** X8: a confirmed update that is not a dry run asks for the name and
    the confirmation only (never the token), prints the message of its one
    step, runs the two copies and then either prints [Done!] and exits with
    status 0 or prints what a copy threw and returns.  It spawns no
    command (neither [npm ci] nor the probe) and stays in its working
    directory. *)
Theorem update_run (E : env) (w : world) (name : string) :
  answers E "name" = VString name ->
  isDryRun E = false ->
  existsSync (resolve E name) (fs w) = true ->
  truthy (answers E "update") = true ->
  main E w =
    let dir := resolve E name in
    let '(root, failure) :=
      match copySync (appDir E ++ ["src"; "core"]) (dir ++ ["src"; "core"]) (fs w) with
      | (root1, Some e) => (root1, Some e)
      | (root1, None) =>
          copySync (appDir E ++ ["src"; "index.js"]) (dir ++ ["src"; "index.js"]) root1
      end in
    ({| fs := root;
        cwd := cwd w;
        trace :=
          trace w ++ update_prelude dir
            ++ Stdout ("Updating core files in '" +:+ name +:+ "'...")
            :: match failure with
               | None => [Stdout EmptyString; Stdout (done_message name)]
               | Some e => [Stderr e]
               end |},
     match failure with None => Exit 0%Z | Some _ => Ret tt end).
Proof.
  intros Hname Hdry Hexists Hupdate. cbn zeta.
  erewrite main_with_steps; [| exact Hname |].
  2: { rewrite build_steps_cases. cbn [fs after_first_question emit].
       rewrite Hexists. cbn zeta. rewrite Hupdate. reflexivity. }
  rewrite Hdry. unfold update_steps. rewrite run_steps_cons.
  cbn [ignoreDry message action orb negb]. cbn zeta.
  rewrite fs_call_twice. cbn [fs emit after_first_question].
  destruct (copySync (appDir E ++ ["src"; "core"]) _ (fs w)) as [root1 [e1 |]].
  - unfold after_first_question, emit, set_fs, update_prelude. cbn [fs cwd trace].
    rewrite <- !app_assoc. reflexivity.
  - destruct (copySync (appDir E ++ ["src"; "index.js"]) _ root1) as [root2 [e2 |]].
    + unfold after_first_question, emit, set_fs, update_prelude. cbn [fs cwd trace].
      rewrite <- !app_assoc. reflexivity.
    + unfold run_steps, after_first_question, emit, set_fs, update_prelude. cbn [forEach ret fs cwd trace].
      unfold ret. cbn [fs cwd trace]. rewrite <- !app_assoc. reflexivity.
Qed.

Lemma update_run_witness :
  exists root,
    main (Sample.surroundings [] (VBool true) Sample.accepting)
      (Sample.start Sample.disk_with_project) =
      ({| fs := root;
          cwd := ["home"; "me"];
          trace :=
            update_prelude ["home"; "me"; "my-bot"]
              ++ [ Stdout "Updating core files in 'my-bot'...";
                   Stdout EmptyString;
                   Stdout (done_message "my-bot") ] |},
       Exit 0%Z)
    /\ read_file ["home"; "me"; "my-bot"; "src"; "index.js"] root
         = Some "require('./core');".
Proof.
  eexists. split.
  - exact (update_run (Sample.surroundings [] (VBool true) Sample.accepting)
             (Sample.start Sample.disk_with_project) "my-bot"
             eq_refl eq_refl eq_refl eq_refl).
  - reflexivity.
Defined.

(** ** A whole new project *)

(** The four writing steps of a new project, one file system after the
    other. *)
Lemma create_chain (E : env) (name token : value) (dir : path) (root : node)
    (items : list (string * node)) :
  existsSync dir root = false ->
  stat (parent dir) root = Some KDir ->
  find (appDir E) root = Some (Dir items) ->
  well_formed (Dir items) = true ->
  ~ appDir E `prefix_of` dir ->
  (forall k entries,
     k ∈ [".gitignore"; "package.json"; "token.json"] -> assoc k items <> Some (Dir entries)) ->
  exists root1 root2 root3 root4 root5,
    mkdirSync dir root = (root1, None)
    /\ copySync (appDir E) dir root1 = (root2, None)
    /\ writeFileSync (dir ++ [".gitignore"])
         ("node_modules/" +:+ nl +:+ "token.json" +:+ nl) root2 = (root3, None)
    /\ writeFileSync (dir ++ ["package.json"])
         (JSON_stringify2 (number_to_string E) (newPackage E name) +:+ nl) root3
       = (root4, None)
    /\ writeFileSync (dir ++ ["token.json"])
         (JSON_stringify2 (number_to_string E) (VObject [("token", token)]) +:+ nl) root4
       = (root5, None)
    /\ stat dir root5 = Some KDir
    /\ read_file (dir ++ [".gitignore"]) root5
         = Some ("node_modules/" +:+ nl +:+ "token.json" +:+ nl)
    /\ read_file (dir ++ ["package.json"]) root5
         = Some (JSON_stringify2 (number_to_string E) (newPackage E name) +:+ nl)
    /\ read_file (dir ++ ["token.json"]) root5
         = Some (JSON_stringify2 (number_to_string E) (VObject [("token", token)]) +:+ nl)
    /\ (forall q, ~ dir `prefix_of` q -> read_file q root5 = read_file q root).
Proof.
  intros Hnew Hparent Htemplate Hwf Hinside Hplain.
  destruct (path_snoc _ _ Hnew) as [leaf Hdir].
  set (base := parent dir) in *. clearbody base. subst dir.
  set (dir := base ++ [leaf]) in *.
  destruct (mkdirSync_child base leaf root Hparent Hnew)
    as (root1 & Hmk & Hdir1 & Hlook1 & Hfind1). fold dir in Hmk, Hdir1, Hlook1, Hfind1.
  assert (Hoff : ~ dir `prefix_of` appDir E).
  { intros Hpre. apply not_true_iff_false in Hnew. apply Hnew, existsSync_look.
    apply (look_prefix (appDir E)); [| done]. unfold look. rewrite Htemplate. by eexists. }
  assert (Htemplate1 : find (appDir E) root1 = Some (Dir items)) by (by rewrite Hfind1).
  assert (Hne : appDir E <> dir) by (intros Heq; apply Hoff; by rewrite Heq).
  destruct (copySync_empty (appDir E) dir root1 items Htemplate1 Hwf Hdir1 Hne Hinside)
    as (root2 & Hcp & Hdir2 & Hlook2).
  assert (Hchild : forall k, k ∈ [".gitignore"; "package.json"; "token.json"] ->
                             stat (dir ++ [k]) root2 <> Some KDir).
  { intros k Hk. apply (stat_child_of _ _ _ _ Hdir2). intros entries. by apply Hplain. }
  assert (Hsibling : forall (k k' : string), k <> k' ->
                                ~ (dir ++ [k]) `prefix_of` (dir ++ [k'])).
  { intros k k' Hkk. rewrite <- (app_nil_r (dir ++ [k'])), <- app_assoc.
    by apply not_prefix_sibling. }
  destruct (writeFileSync_child dir ".gitignore"
              ("node_modules/" +:+ nl +:+ "token.json" +:+ nl) root2)
    as (root3 & Hw3 & Hread3 & Hothers3 & Hlook3);
    [by eapply stat_find_dir | apply Hchild; in_list |].
  destruct (writeFileSync_child dir "package.json"
              (JSON_stringify2 (number_to_string E) (newPackage E name) +:+ nl) root3)
    as (root4 & Hw4 & Hread4 & Hothers4 & Hlook4).
  { rewrite (stat_by_look _ root2) by (apply Hlook3, prefix_snoc_not).
    by eapply stat_find_dir. }
  { rewrite (stat_by_look _ root2) by (by apply Hlook3, Hsibling).
    apply Hchild; in_list. }
  destruct (writeFileSync_child dir "token.json"
              (JSON_stringify2 (number_to_string E) (VObject [("token", token)]) +:+ nl)
              root4)
    as (root5 & Hw5 & Hread5 & Hothers5 & Hlook5).
  { rewrite (stat_by_look _ root3) by (apply Hlook4, prefix_snoc_not).
    rewrite (stat_by_look _ root2) by (apply Hlook3, prefix_snoc_not).
    by eapply stat_find_dir. }
  { rewrite (stat_by_look _ root3) by (by apply Hlook4, Hsibling).
    rewrite (stat_by_look _ root2) by (by apply Hlook3, Hsibling).
    apply Hchild; in_list. }
  exists root1, root2, root3, root4, root5.
  do 5 (split; [done |]).
  split.
  { rewrite (stat_by_look _ root4) by (apply Hlook5, prefix_snoc_not).
    rewrite (stat_by_look _ root3) by (apply Hlook4, prefix_snoc_not).
    rewrite (stat_by_look _ root2) by (apply Hlook3, prefix_snoc_not).
    by eapply stat_find_dir. }
  split.
  { rewrite Hothers5, Hothers4; [exact Hread3 | |]; intros H; by apply app_inv_head in H. }
  split.
  { rewrite Hothers5; [exact Hread4 |]. intros H; by apply app_inv_head in H. }
  split; [exact Hread5 |].
  intros q Hq.
  rewrite (read_by_look q root4) by (by apply Hlook5, not_prefix_outside).
  rewrite (read_by_look q root3) by (by apply Hlook4, not_prefix_outside).
  rewrite (read_by_look q root2) by (by apply Hlook3, not_prefix_outside).
  rewrite (read_by_look q root1) by (by apply Hlook2).
  apply read_by_look. by apply Hlook1.
Qed.

(** The run of a new project through its six steps, by what [npm ci]
    does in the target. *)
Lemma create_run_cases (E : env) (w : world) (name : string) (root1 root2 root3 root4 root5 : node) :
  let dir := resolve E name in
  let token := answers E "token" in
  answers E "name" = VString name ->
  isDryRun E = false ->
  existsSync dir (fs w) = false ->
  mkdirSync dir (fs w) = (root1, None) ->
  copySync (appDir E) dir root1 = (root2, None) ->
  writeFileSync (dir ++ [".gitignore"])
    ("node_modules/" +:+ nl +:+ "token.json" +:+ nl) root2 = (root3, None) ->
  writeFileSync (dir ++ ["package.json"])
    (JSON_stringify2 (number_to_string E) (newPackage E (VString name)) +:+ nl) root3
    = (root4, None) ->
  writeFileSync (dir ++ ["token.json"])
    (JSON_stringify2 (number_to_string E) (VObject [("token", token)]) +:+ nl) root4
    = (root5, None) ->
  stat dir root5 = Some KDir ->
  main E w =
    let written := trace w ++ create_prelude ++ create_progress name in
    match npm_ci E dir root5 with
    | (root6, None) =>
        let probed :=
          written ++ [ Stdout (nl +:+ "Generating bot invite link...");
                       Spawned (curl_command E token) ] in
        match invite_line E (probe E token) with
        | inr line =>
            ({| fs := shell E (curl_command E token) dir root6;
                cwd := dir;
                trace :=
                  probed ++ [ Stdout line; Stdout EmptyString; Stdout (done_message name) ] |},
             Exit 0%Z)
        | inl e =>
            ({| fs := shell E (curl_command E token) dir root6;
                cwd := dir;
                trace := probed ++ [Stderr e] |},
             Ret tt)
        end
    | (root6, Some e) =>
        ({| fs := root6; cwd := dir; trace := written ++ [Stderr e] |}, Ret tt)
    end.
Proof.
  intros dir token Hname Hdry Hnew Hmk Hcp Hw3 Hw4 Hw5 Hstat. cbn zeta.
  erewrite main_with_steps; [| exact Hname |].
  2: { rewrite build_steps_cases. cbn [fs after_first_question emit].
       fold dir. rewrite Hnew. reflexivity. }
  rewrite Hdry. fold dir token. unfold create_steps.
  rewrite run_steps_cons. cbn [ignoreDry message action orb negb]. cbn zeta.
  unfold fs_call at 1. cbn [fs emit after_first_question]. rewrite Hmk.
  rewrite run_steps_cons. cbn [ignoreDry message action orb negb]. cbn zeta.
  rewrite fs_call_twice. cbn [fs emit set_fs]. rewrite Hcp, Hw3.
  rewrite run_steps_cons. cbn [ignoreDry message action orb negb]. cbn zeta.
  unfold fs_call at 1. cbn [fs emit set_fs]. rewrite Hw4.
  rewrite run_steps_cons. cbn [ignoreDry message action orb negb]. cbn zeta.
  unfold fs_call at 1. cbn [fs emit set_fs]. rewrite Hw5.
  rewrite run_steps_cons. cbn [ignoreDry message action orb negb]. cbn zeta.
  unfold bind at 1. unfold process_chdir. cbn [fs emit set_fs]. rewrite Hstat.
  unfold execSync_npm_ci. cbn [fs cwd emit set_fs set_cwd].
  destruct (npm_ci E dir root5) as [root6 [e |]].
  - apply (f_equal2 pair); [| reflexivity].
    apply world_eq; cbn [fs cwd trace emit set_fs set_cwd after_first_question];
      [reflexivity | reflexivity |].
    unfold create_prelude, create_progress. rewrite <- !app_assoc. reflexivity.
  - rewrite run_steps_cons. cbn [ignoreDry message action orb negb]. cbn zeta.
    rewrite invite_action.
    destruct (invite_line E (probe E token)) as [e | line].
    + apply (f_equal2 pair); [| reflexivity].
      apply world_eq; unfold after_probe;
        cbn [fs cwd trace emit set_fs set_cwd after_first_question];
        [reflexivity | reflexivity |].
      unfold create_prelude, create_progress. rewrite <- !app_assoc. reflexivity.
    + unfold run_steps. cbn [forEach]. unfold ret.
      apply (f_equal2 pair); [| reflexivity].
      apply world_eq; unfold after_probe;
        cbn [fs cwd trace emit set_fs set_cwd after_first_question];
        [reflexivity | reflexivity |].
      unfold create_prelude, create_progress. rewrite <- !app_assoc. reflexivity.
Qed.

Lemma sample_install_succeeds (dir : path) (root : node) :
  stat dir root = Some KDir -> (Sample.install dir root).2 = None.
Proof.
  intros Hdir. destruct (stat_dir _ _ Hdir) as [entries Hentries].
  destruct (fs_update_ok "mkdir" (dir ++ ["node_modules"])
              (fun _ => (Some (Dir []), None)) root (Dir []))
    as (root' & H & _); [| by eexists | done |].
  - by apply (reachable_child dir "node_modules" (Some root) entries).
  - unfold Sample.install. by rewrite H.
Qed.

(** X6: a run for a new project in which the five steps that write and
    install do not fail goes through the six steps in their order and
    nothing else, and ends inside the new directory: after the two
    questions and the blank line come the five progress lines and
    [npm ci], then the heading of the invite link and the probe.  When
    the invite line can be written, it is printed, then a blank line and
    the closing message, and the run exits with status 0: what the
    service answered only changes that line.  When it cannot (the [id]
    is an object that has no text), the [TypeError] is printed on the
    error stream as the last thing and the run returns. *)
Theorem create_run_completes (E : env) (w : world) (name : string)
    (items : list (string * node)) :
  let dir := resolve E name in
  let token := answers E "token" in
  let probed :=
    trace w ++ create_prelude ++ create_progress name
      ++ [ Stdout (nl +:+ "Generating bot invite link...");
           Spawned (curl_command E token) ] in
  answers E "name" = VString name ->
  isDryRun E = false ->
  existsSync dir (fs w) = false ->
  stat (parent dir) (fs w) = Some KDir ->
  find (appDir E) (fs w) = Some (Dir items) ->
  well_formed (Dir items) = true ->
  ~ appDir E `prefix_of` dir ->
  (forall k entries,
     k ∈ [".gitignore"; "package.json"; "token.json"] -> assoc k items <> Some (Dir entries)) ->
  (forall root, stat dir root = Some KDir -> (npm_ci E dir root).2 = None) ->
  cwd (main E w).1 = dir
  /\ (forall line,
        invite_line E (probe E token) = inr line ->
        (main E w).2 = Exit 0%Z
        /\ trace (main E w).1 =
             probed ++ [ Stdout line; Stdout EmptyString; Stdout (done_message name) ])
  /\ (forall e,
        invite_line E (probe E token) = inl e ->
        (main E w).2 = Ret tt
        /\ trace (main E w).1 = probed ++ [Stderr e]).
Proof.
  intros dir token probed Hname Hdry Hnew Hparent Htemplate Hwf Hinside Hplain Hnpm.
  destruct (create_chain E (VString name) token dir (fs w) items
              Hnew Hparent Htemplate Hwf Hinside Hplain)
    as (root1 & root2 & root3 & root4 & root5 & Hmk & Hcp & Hw3 & Hw4 & Hw5 & Hstat & _).
  pose proof (create_run_cases E w name root1 root2 root3 root4 root5
                Hname Hdry Hnew Hmk Hcp Hw3 Hw4 Hw5 Hstat) as Hrun.
  cbn zeta in Hrun. fold dir token in Hrun.
  specialize (Hnpm root5 Hstat).
  destruct (npm_ci E dir root5) as [root6 [e |]]; [discriminate |].
  subst probed. rewrite Hrun.
  destruct (invite_line E (probe E token)) as [e | line]; cbn [fst snd cwd trace].
  - split; [reflexivity |]. split; [discriminate |].
    intros e' [= <-]. split; [reflexivity |]. by rewrite <- !app_assoc.
  - split; [reflexivity |]. split; [| discriminate].
    intros line' [= <-]. split; [reflexivity |]. by rewrite <- !app_assoc.
Qed.

Lemma create_run_completes_witness :
  let E := Sample.surroundings [] VUndefined Sample.rejecting in
  cwd (main E (Sample.start Sample.disk)).1 = ["home"; "me"; "my-bot"]
  /\ (main E (Sample.start Sample.disk)).2 = Exit 0%Z
  /\ last (trace (main E (Sample.start Sample.disk)).1) = Some (Stdout (done_message "my-bot"))
  /\ Stdout "The given bot token was invalid so no link was generated."
       ∈ trace (main E (Sample.start Sample.disk)).1.
Proof.
  destruct (create_run_completes (Sample.surroundings [] VUndefined Sample.rejecting)
              (Sample.start Sample.disk) "my-bot"
              [ ("package.json",
                 File (JSON_stringify2 Sample.print_number (VObject Sample.manifest) +:+ nl));
                ("README.md", File "# bot");
                ("src", Dir [ ("index.js", File "require('./core');");
                              ("core", Dir [ ("client.js", File "module.exports = {};") ]) ]) ]
              eq_refl eq_refl eq_refl eq_refl eq_refl eq_refl)
    as (Hcwd & Hline & _).
  - compute_done.
  - intros k entries Hk.
    repeat (apply elem_of_cons in Hk as [-> | Hk]; [discriminate |]).
    by apply elem_of_nil in Hk.
  - intros root. apply sample_install_succeeds.
  - destruct (Hline "The given bot token was invalid so no link was generated." eq_refl)
      as [Hexit Htrace].
    split; [exact Hcwd |]. split; [exact Hexit |].
    rewrite Htrace. split; [reflexivity |].
    unfold create_prelude, create_progress. cbn [app trace Sample.start]. in_list.
Defined.

(** X7: when [npm ci] fails in a new project, the run stops there: the
    four steps before it have run, the process has moved into the new
    directory, the error is printed on the error stream as the last
    thing, and neither the token is probed nor an invite line or the
    closing message printed. *)
Theorem create_run_install_fails (E : env) (w : world) (name : string)
    (items : list (string * node)) (e : thrown) :
  let dir := resolve E name in
  let token := answers E "token" in
  answers E "name" = VString name ->
  isDryRun E = false ->
  existsSync dir (fs w) = false ->
  stat (parent dir) (fs w) = Some KDir ->
  find (appDir E) (fs w) = Some (Dir items) ->
  well_formed (Dir items) = true ->
  ~ appDir E `prefix_of` dir ->
  (forall k entries,
     k ∈ [".gitignore"; "package.json"; "token.json"] -> assoc k items <> Some (Dir entries)) ->
  (forall root, (npm_ci E dir root).2 = Some e) ->
  exists w' : world,
    main E w = (w', Ret tt)
    /\ cwd w' = dir
    /\ trace w' = trace w ++ create_prelude ++ create_progress name ++ [Stderr e].
Proof.
  intros dir token Hname Hdry Hnew Hparent Htemplate Hwf Hinside Hplain Hnpm.
  destruct (create_chain E (VString name) token dir (fs w) items
              Hnew Hparent Htemplate Hwf Hinside Hplain)
    as (root1 & root2 & root3 & root4 & root5 & Hmk & Hcp & Hw3 & Hw4 & Hw5 & Hstat & _).
  pose proof (create_run_cases E w name root1 root2 root3 root4 root5
                Hname Hdry Hnew Hmk Hcp Hw3 Hw4 Hw5 Hstat) as Hrun.
  cbn zeta in Hrun. fold dir token in Hrun.
  specialize (Hnpm root5).
  destruct (npm_ci E dir root5) as [root6 [e' |]]; [| discriminate].
  cbn in Hnpm. injection Hnpm as ->.
  eexists. split; [exact Hrun |]. split; [reflexivity |].
  cbn [trace]. by rewrite <- !app_assoc.
Qed.

Lemma create_run_install_fails_witness :
  exists w' : world,
    main (with_npm_ci failing_npm_ci (Sample.surroundings [] VUndefined Sample.accepting))
      (Sample.start Sample.disk) = (w', Ret tt)
    /\ cwd w' = ["home"; "me"; "my-bot"]
    /\ last (trace w') = Some (Stderr (ThrownError "Error" "Command failed: npm ci")).
Proof.
  destruct (create_run_install_fails
              (with_npm_ci failing_npm_ci (Sample.surroundings [] VUndefined Sample.accepting))
              (Sample.start Sample.disk) "my-bot"
              [ ("package.json",
                 File (JSON_stringify2 Sample.print_number (VObject Sample.manifest) +:+ nl));
                ("README.md", File "# bot");
                ("src", Dir [ ("index.js", File "require('./core');");
                              ("core", Dir [ ("client.js", File "module.exports = {};") ]) ]) ]
              (ThrownError "Error" "Command failed: npm ci")
              eq_refl eq_refl eq_refl eq_refl eq_refl eq_refl)
    as (w' & Hrun & Hcwd & Htrace).
  - compute_done.
  - intros k entries Hk.
    repeat (apply elem_of_cons in Hk as [-> | Hk]; [discriminate |]).
    by apply elem_of_nil in Hk.
  - intros root. reflexivity.
  - exists w'. split; [exact Hrun |]. split; [exact Hcwd |].
    rewrite Htrace. reflexivity.
Defined.

(** ** Updating twice *)

(** Copying the items of a directory again onto what the copy left
    changes nothing. *)
Lemma copy_items_again items :
  Forall (fun kc => forall slot c, copy_node kc.2 slot = (c, None) ->
                                   copy_node kc.2 (Some c) = (c, None)) items ->
  unique (map fst items) = true ->
  forall entries entries',
    copy_items copy_node items entries = (entries', None) ->
    copy_items copy_node items entries' = (entries', None).
Proof.
  induction items as [| [k n] items IH]; intros Hall Hu entries entries' H; [done |].
  apply List.Forall_cons_iff in Hall as [Hn Hall]. cbn [snd] in Hn.
  cbn [copy_items] in H |- *.
  destruct (copy_node n (assoc k entries)) as [c [e |]] eqn:Hc; [discriminate |].
  cbn [map fst unique] in Hu. apply andb_prop in Hu as [Hk Hu].
  apply negb_true_iff in Hk.
  rewrite (copy_items_other _ _ _ _ _ k H Hk), assoc_set_eq, (Hn _ _ Hc).
  rewrite assoc_set_same.
  - by apply (IH Hall Hu (assoc_set k c entries)).
  - by rewrite (copy_items_other _ _ _ _ _ k H Hk), assoc_set_eq.
Qed.

Lemma copy_node_again s :
  well_formed s = true ->
  forall slot c, copy_node s slot = (c, None) -> copy_node s (Some c) = (c, None).
Proof.
  induction s as [data | items IH] using node_ind'; intros Hwf slot c Hc.
  - cbn in Hc. by destruct slot as [[] |]; injection Hc as <-.
  - cbn in Hwf. apply andb_prop in Hwf as [Hu Hall].
    cbn [copy_node] in Hc.
    assert (exists entries, copy_items copy_node items entries = (match c with Dir es => es | _ => [] end, None)
                            /\ exists es, c = Dir es) as (entries & Hitems & es & ->).
    { destruct slot as [[data | entries] |]; [discriminate | |].
      - destruct (copy_items copy_node items entries) as [es e] eqn:Hi.
        injection Hc as <- ->. eauto.
      - destruct (copy_items copy_node items []) as [es e] eqn:Hi.
        injection Hc as <- ->. eauto. }
    cbn [copy_node]. rewrite (copy_items_again items) with (entries := entries); try done.
    rewrite List.Forall_forall in IH. rewrite forallb_forall in Hall.
    apply List.Forall_forall. intros kc Hin. apply (IH kc Hin), Hall, Hin.
Qed.

(** An update that finds at its path what it would put there changes
    nothing. *)
Lemma update_at_same fail p f slot c :
  find_in p slot = Some c ->
  f (Some c) = (Some c, None) ->
  update_at fail p f slot = (slot, None).
Proof.
  revert slot. induction p as [| k p IH]; intros slot H Hf.
  - rewrite find_in_nil in H. by subst slot.
  - destruct slot as [[data | entries] |]; try discriminate.
    cbn [find_in] in H. rewrite find_cons in H. cbn [update_at].
    rewrite (IH _ H Hf).
    destruct (assoc k entries) as [c' |] eqn:Hk; [| discriminate].
    by rewrite assoc_set_same.
Qed.

(** What a copy that did not fail found and left. *)
Lemma copySync_result src dest root root' :
  copySync src dest root = (root', None) ->
  exists s slot c,
    find src root = Some s
    /\ bool_decide (src = dest) = false
    /\ is_dir s && bool_decide (src `prefix_of` dest) = false
    /\ copy_node s slot = (c, None)
    /\ find dest root' = Some c.
Proof.
  unfold copySync. intros H.
  destruct (find src root) as [s |]; [| discriminate].
  destruct (bool_decide (src = dest)) eqn:Hsame; [discriminate |].
  destruct (is_dir s && bool_decide (src `prefix_of` dest)) eqn:Hin; [discriminate |].
  destruct (if existsSync (parent dest) root then inr root else mkdirs (parent dest) root)
    as [e | root1]; [discriminate |].
  unfold fs_update in H.
  assert (forall x, is_Some (let '(c, e) := copy_node s x in (Some c, e)).1) as Hsome.
  { intros x. destruct (copy_node s x). by eexists. }
  destruct (update_at _ dest _ (Some root1)) as [[r' |] e] eqn:Hu; injection H as <- ->;
    apply update_at_hit in Hu as [Hfind Hnone]; try exact Hsome.
  - destruct (copy_node s (find_in dest (Some root1))) as [c e] eqn:Hc.
    cbn in Hnone. subst e. exists s, (find_in dest (Some root1)), c. by rewrite Hc.
  - destruct (copy_node s (find_in dest (Some root1))). discriminate.
Qed.

(** A copy that did not fail, made again where the source and the
    destination are as it found and left them, changes nothing. *)
Lemma copySync_settled src dest root0 root0' s root :
  copySync src dest root0 = (root0', None) ->
  find src root0 = Some s ->
  well_formed s = true ->
  find src root = find src root0 ->
  find dest root = find dest root0' ->
  copySync src dest root = (root, None).
Proof.
  intros H Hs Hwf Hsrc Hdest.
  destruct (copySync_result _ _ _ _ H) as (s' & slot & c & Hs' & Hsame & Hin & Hc & Hfound).
  rewrite Hs in Hs'. injection Hs' as <-.
  unfold copySync. rewrite Hsrc, Hs, Hsame, Hin.
  rewrite Hfound in Hdest.
  assert (existsSync (parent dest) root = true) as ->.
  { apply existsSync_look. apply (look_prefix dest); [| apply parent_prefix].
    unfold look. rewrite Hdest. by eexists. }
  unfold fs_update. erewrite update_at_same; [done | exact Hdest |].
  by rewrite (copy_node_again s Hwf _ _ Hc).
Qed.

(** X10: an update that went through, run again, goes through again
    and leaves the file system as the first run left it (the template
    and the project lying apart on a well-formed file system). *)
Theorem update_twice (E : env) (name : value) (dir : path) (w w1 : world) :
  well_formed (fs w) = true ->
  apart (appDir E) dir ->
  run_steps false (update_steps E name dir) w = (w1, Ret tt) ->
  exists w2 : world,
    run_steps false (update_steps E name dir) w1 = (w2, Ret tt)
    /\ fs w2 = fs w1
    /\ cwd w2 = cwd w1.
Proof.
  intros Hwf Hapart. unfold update_steps. rewrite !run_steps_cons.
  cbn [ignoreDry message action orb negb]. cbn zeta. rewrite !fs_call_twice.
  cbn [fs emit].
  set (src1 := appDir E ++ ["src"; "core"]). set (dest1 := dir ++ ["src"; "core"]).
  set (src2 := appDir E ++ ["src"; "index.js"]). set (dest2 := dir ++ ["src"; "index.js"]).
  destruct (copySync src1 dest1 (fs w)) as [rootA [e1 |]] eqn:H1; [discriminate |].
  destruct (copySync src2 dest2 rootA) as [rootB [e2 |]] eqn:H2; [discriminate |].
  unfold run_steps. cbn [forEach]. unfold ret. intros [= <-]. cbn [fs set_fs].
  assert (Hsib : apart dest1 dest2).
  { unfold dest1, dest2.
    replace (dir ++ ["src"; "core"]) with ((dir ++ ["src"]) ++ ["core"])
      by (by rewrite <- app_assoc).
    replace (dir ++ ["src"; "index.js"]) with ((dir ++ ["src"]) ++ ["index.js"])
      by (by rewrite <- app_assoc).
    by apply apart_siblings. }
  destruct (copySync_result _ _ _ _ H1) as (s1 & _ & _ & Hs1 & _).
  destruct (copySync_result _ _ _ _ H2) as (s2 & _ & _ & Hs2 & _).
  assert (HsrcA : forall r, find (appDir E ++ r) rootA = find (appDir E ++ r) (fs w)).
  { intros r. apply (copySync_apart _ _ _ _ _ _ H1). by apply apart_app. }
  assert (HsrcB : forall r, find (appDir E ++ r) rootB = find (appDir E ++ r) rootA).
  { intros r. apply (copySync_apart _ _ _ _ _ _ H2). by apply apart_app. }
  assert (Hagain1 : copySync src1 dest1 rootB = (rootB, None)).
  { apply (copySync_settled src1 dest1 (fs w) rootA s1 rootB H1 Hs1).
    - by apply (well_formed_find src1 (fs w)).
    - unfold src1. by rewrite HsrcB, HsrcA.
    - by apply (copySync_apart _ _ _ _ _ _ H2). }
  assert (Hagain2 : copySync src2 dest2 rootB = (rootB, None)).
  { apply (copySync_settled src2 dest2 rootA rootB s2 rootB H2 Hs2).
    - apply (well_formed_find src2 (fs w)); [done |]. unfold src2. by rewrite <- HsrcA.
    - unfold src2. by rewrite HsrcB.
    - done. }
  rewrite Hagain1, Hagain2. eexists. split; [reflexivity |]. done.
Qed.

Lemma update_twice_witness :
  exists w1 w2 : world,
    run_steps false
      (update_steps (Sample.surroundings [] (VBool true) Sample.accepting)
         (VString "my-bot") ["home"; "me"; "my-bot"])
      (Sample.start Sample.disk_with_project) = (w1, Ret tt)
    /\ run_steps false
         (update_steps (Sample.surroundings [] (VBool true) Sample.accepting)
            (VString "my-bot") ["home"; "me"; "my-bot"])
         w1 = (w2, Ret tt)
    /\ fs w2 = fs w1
    /\ read_file ["home"; "me"; "my-bot"; "src"; "core"; "client.js"] (fs w1)
         = Some "module.exports = {};".
Proof.
  pose (w1 := (run_steps false
                 (update_steps (Sample.surroundings [] (VBool true) Sample.accepting)
                    (VString "my-bot") ["home"; "me"; "my-bot"])
                 (Sample.start Sample.disk_with_project)).1).
  destruct (update_twice (Sample.surroundings [] (VBool true) Sample.accepting)
              (VString "my-bot") ["home"; "me"; "my-bot"]
              (Sample.start Sample.disk_with_project) w1 eq_refl)
    as (w2 & Hrun & Hfs & _).
  - split; intros H; by apply prefix_cons_inv_1 in H.
  - reflexivity.
  - exists w1, w2. split; [reflexivity |]. split; [exact Hrun |].
    split; [exact Hfs | reflexivity].
Defined.

(** ** An update only adds and replaces *)

Lemma assoc_none_keys {A} k (l : list (string * A)) :
  assoc k l = None -> existsb (String.eqb k) (map fst l) = false.
Proof.
  induction l as [| [k' v'] l IH]; cbn; [done |].
  destruct (String.eqb k k'); [discriminate | exact IH].
Qed.

(** Where the names of the items differ, each item is copied onto the
    entry that bore its name when the copy began. *)
Lemma copy_items_onto copy items entries entries' k n :
  copy_items copy items entries = (entries', None) ->
  unique (map fst items) = true ->
  assoc k items = Some n ->
  exists c, assoc k entries' = Some c /\ copy n (assoc k entries) = (c, None).
Proof.
  revert entries. induction items as [| [k0 n0] items IH]; intros entries H Hu Hk;
    [discriminate |].
  cbn [copy_items] in H. cbn [assoc] in Hk.
  destruct (copy n0 (assoc k0 entries)) as [c0 [e |]] eqn:Hc; [discriminate |].
  cbn [map fst unique] in Hu. apply andb_prop in Hu as [Hk0 Hu].
  apply negb_true_iff in Hk0.
  destruct (String.eqb_spec k k0) as [-> | Hne].
  - injection Hk as <-. exists c0. split; [| exact Hc].
    by rewrite (copy_items_other _ _ _ _ _ k0 H Hk0), assoc_set_eq.
  - destruct (IH _ H Hu Hk) as (c & Hfound & Hcopy). exists c. split; [exact Hfound |].
    rewrite assoc_set_ne in Hcopy; [exact Hcopy | congruence].
Qed.

(** A copy that does not fail keeps every file of the destination that
    the source has nothing for. *)
Lemma copy_node_spares s :
  well_formed s = true ->
  forall d c, copy_node s (Some d) = (c, None) ->
  forall r data, find r d = Some (File data) -> find r s = None ->
                 find r c = Some (File data).
Proof.
  induction s as [data0 | items IH] using node_ind'; intros Hwf d c Hc r data Hd Hs.
  - destruct r; [discriminate |]. by destruct d.
  - destruct r as [| k r]; [discriminate |].
    destruct d as [data' | entries]; [discriminate |].
    cbn [copy_node] in Hc.
    destruct (copy_items copy_node items entries) as [entries' e] eqn:Hitems.
    injection Hc as <- ->.
    cbn in Hwf. apply andb_prop in Hwf as [Hu Hall].
    rewrite find_cons in Hd, Hs |- *.
    destruct (assoc k items) as [n |] eqn:Hk.
    + destruct (copy_items_onto _ _ _ _ k n Hitems Hu Hk) as (c & Hfound & Hcopy).
      rewrite Hfound. cbn [find_in] in Hs |- *.
      destruct (assoc k entries) as [dk |]; [| discriminate]. cbn [find_in] in Hd.
      rewrite List.Forall_forall in IH. rewrite forallb_forall in Hall.
      pose proof (assoc_elem _ _ _ Hk) as Hin. apply list_elem_of_In in Hin.
      exact (IH (k, n) Hin (Hall _ Hin) dk c Hcopy r data Hd Hs).
    + by rewrite (copy_items_other _ _ _ _ _ k Hitems (assoc_none_keys _ _ Hk)).
Qed.

Lemma copySync_spares src dest root root' s r data :
  copySync src dest root = (root', None) ->
  find src root = Some s ->
  well_formed s = true ->
  read_file (dest ++ r) root = Some data ->
  find r s = None ->
  read_file (dest ++ r) root' = Some data.
Proof.
  unfold copySync. intros H Hs Hwf Hd Hr. rewrite Hs in H.
  destruct (bool_decide (src = dest)); [discriminate |].
  destruct (is_dir s && bool_decide (src `prefix_of` dest)); [discriminate |].
  unfold read_file in Hd. rewrite find_app in Hd.
  destruct (find dest root) as [d |] eqn:Hdest; [| discriminate]. cbn [find_in] in Hd.
  assert (existsSync (parent dest) root = true) as Hparent.
  { apply existsSync_look. apply (look_prefix dest); [| apply parent_prefix].
    unfold look. rewrite Hdest. by eexists. }
  rewrite Hparent in H. unfold fs_update in H.
  assert (forall x, is_Some (let '(c, e) := copy_node s x in (Some c, e)).1) as Hsome.
  { intros x. destruct (copy_node s x). by eexists. }
  destruct (update_at _ dest _ (Some root)) as [[r' |] e] eqn:Hu; injection H as <- ->;
    apply update_at_hit in Hu as [Hfind Hnone]; try exact Hsome.
  - cbn [find_in] in Hfind, Hnone. rewrite Hdest in Hfind, Hnone.
    destruct (copy_node s (Some d)) as [c e] eqn:Hc. cbn in Hnone, Hfind. subst e.
    unfold read_file. rewrite find_app, Hfind. cbn [find_in].
    destruct (find r d) as [[data' | es] |] eqn:Hfound; try discriminate.
    injection Hd as ->. by rewrite (copy_node_spares s Hwf d c Hc r data Hfound Hr).
  - cbn [find_in] in Hfind. destruct (copy_node s (find dest root)). discriminate.
Qed.

(** X11: an update merges, it does not mirror: when it goes through,
    every file under the project's [src/core] for which the template's
    [src/core] has nothing at the same relative path reads as before. *)
Theorem update_spares_other_files (E : env) (name : value) (dir : path) (w w' : world)
    (rel : path) (data : string) :
  well_formed (fs w) = true ->
  run_steps false (update_steps E name dir) w = (w', Ret tt) ->
  read_file (dir ++ ["src"; "core"] ++ rel) (fs w) = Some data ->
  find (appDir E ++ ["src"; "core"] ++ rel) (fs w) = None ->
  read_file (dir ++ ["src"; "core"] ++ rel) (fs w') = Some data.
Proof.
  intros Hwf. unfold update_steps. rewrite run_steps_cons.
  cbn [ignoreDry message action orb negb]. cbn zeta. rewrite fs_call_twice.
  cbn [fs emit]. rewrite !app_assoc.
  set (src1 := appDir E ++ ["src"; "core"]). set (dest1 := dir ++ ["src"; "core"]).
  set (src2 := appDir E ++ ["src"; "index.js"]). set (dest2 := dir ++ ["src"; "index.js"]).
  destruct (copySync src1 dest1 (fs w)) as [rootA [e1 |]] eqn:H1; [discriminate |].
  destruct (copySync src2 dest2 rootA) as [rootB [e2 |]] eqn:H2; [discriminate |].
  unfold run_steps. cbn [forEach]. unfold ret. intros [= <-] Hd Hs. cbn [fs set_fs].
  destruct (copySync_result _ _ _ _ H1) as (s1 & _ & _ & Hs1 & _).
  rewrite find_app, Hs1 in Hs. cbn [find_in] in Hs.
  assert (read_file (dest1 ++ rel) rootA = Some data) as HA.
  { apply (copySync_spares src1 dest1 (fs w) rootA s1 rel data H1 Hs1); try done.
    by apply (well_formed_find src1 (fs w)). }
  rewrite <- HA. apply read_by_look.
  destruct (copySync_frame _ _ _ _ _ (dest1 ++ rel) H2) as [Heq | (Hnone & _)]; [| done |].
  - unfold dest1, dest2.
    replace (dir ++ ["src"; "index.js"]) with ((dir ++ ["src"]) ++ ["index.js"])
      by (by rewrite <- app_assoc).
    replace ((dir ++ ["src"; "core"]) ++ rel) with ((dir ++ ["src"]) ++ ["core"] ++ rel)
      by (by rewrite <- !app_assoc).
    by apply not_prefix_sibling.
  - rewrite read_file_look, Hnone in HA. discriminate.
Qed.

Lemma update_spares_other_files_witness :
  exists w' : world,
    run_steps false
      (update_steps (Sample.surroundings [] (VBool true) Sample.accepting)
         (VString "my-bot") ["home"; "me"; "my-bot"])
      (Sample.start
         (Dir [ ("opt", Dir [ ("tool", Dir [ ("app", Sample.template) ]) ]);
                ("home", Dir [ ("me", Dir [ ("my-bot",
                   Dir [ ("src", Dir [ ("core", Dir [ ("legacy.js", File "old") ]) ]) ]) ]) ]) ]))
      = (w', Ret tt)
    /\ read_file ["home"; "me"; "my-bot"; "src"; "core"; "legacy.js"] (fs w') = Some "old"
    /\ read_file ["home"; "me"; "my-bot"; "src"; "core"; "client.js"] (fs w')
         = Some "module.exports = {};".
Proof.
  eexists. split; [vm_compute; reflexivity |]. split; [| reflexivity].
  apply (update_spares_other_files (Sample.surroundings [] (VBool true) Sample.accepting)
           (VString "my-bot") ["home"; "me"; "my-bot"]
           (Sample.start
              (Dir [ ("opt", Dir [ ("tool", Dir [ ("app", Sample.template) ]) ]);
                     ("home", Dir [ ("me", Dir [ ("my-bot",
                        Dir [ ("src", Dir [ ("core", Dir [ ("legacy.js", File "old") ]) ]) ]) ]) ]) ]))
           _ ["legacy.js"] "old"); reflexivity.
Defined.

(** ** The invite link and the token *)

(** X12: the last step of a new project spawns the probe, which
    leaves the working directory as it was and the file system as the
    shell of its command line left it, and then prints one line or
    throws.  The line is the invalid-token line when the command fails,
    when the body is not JSON, when the parsed value has no properties
    to read, and when the [id] is falsy.  For a truthy [id] it is the
    invite link ending in the text of the [id] (for a string, the string
    itself), unless the [id] has no text: for an object with a property
    [toString] of its own the template literal throws a [TypeError],
    past the [try] of the probe, and nothing is printed. *)
Theorem invite_step_line (E : env) (name : value) (dir : path) (token : value) (w : world) :
  let link := "Invite your bot: https://discordapp.com/oauth2/authorize?scope=bot&client_id=" in
  let invalid := "The given bot token was invalid so no link was generated." in
  let probed :=
    {| fs := shell E (curl_command E token) (cwd w) (fs w);
       cwd := cwd w;
       trace := trace w ++ [Spawned (curl_command E token)] |} in
  exists (step : Step) (result : thrown + string),
    last (create_steps E name dir token) = Some step
    /\ action step w =
         match result with
         | inr line => (emit (Stdout line) probed, Ret tt)
         | inl e => (probed, Throw e)
         end
    /\ (forall e, curl E (curl_command E token) = inl e -> result = inr invalid)
    /\ (forall response,
          curl E (curl_command E token) = inr response ->
          (forall e, JSON_parse E response = inl e -> result = inr invalid)
          /\ (forall parsed,
                JSON_parse E response = inr parsed ->
                (forall e, get_prop parsed "id" = inl e -> result = inr invalid)
                /\ (forall id,
                      get_prop parsed "id" = inr id -> truthy id = false ->
                      result = inr invalid)
                /\ (forall s,
                      get_prop parsed "id" = inr (VString s) -> s <> EmptyString ->
                      result = inr (link +:+ s))
                /\ (forall id text,
                      get_prop parsed "id" = inr id -> truthy id = true ->
                      to_string (number_to_string E) id = inr text ->
                      result = inr (link +:+ text))
                /\ (forall fields v,
                      get_prop parsed "id" = inr (VObject fields) ->
                      assoc "toString" fields = Some v ->
                      result =
                        inl (ThrownError "TypeError"
                               "Cannot convert object to primitive value")))).
Proof.
  cbn zeta. eexists _, (invite_line E (probe E token)).
  split; [reflexivity |]. cbn [action]. split; [apply invite_action |].
  unfold invite_line, probe. split.
  - by intros e ->.
  - intros response ->. split; [by intros e -> |].
    intros parsed ->. split; [by intros e -> |].
    split; [| split; [| split]].
    + intros id -> Hid. unfold js_or. by rewrite Hid.
    + intros s -> Hs. unfold js_or. cbn [truthy].
      destruct s as [| a s]; [done |]. reflexivity.
    + intros id text -> Hid Htext. unfold js_or. by rewrite Hid, Hid, Htext.
    + intros fields v -> Hv. unfold js_or. cbn [truthy to_string]. by rewrite Hv.
Qed.

(** X13: when the token question is cancelled, the token is
    [undefined] and a new project is made all the same: the fourth step
    writes a [token.json] that holds the empty object, and the probe is
    sent with the word [undefined] for a token. *)
Theorem cancelled_token (E : env) (name : value) (dir : path) (w : world) :
  stat dir (fs w) = Some KDir ->
  stat (dir ++ ["token.json"]) (fs w) <> Some KDir ->
  exists (step : Step) (w' : world),
    create_steps E name dir VUndefined !! 3%nat = Some step
    /\ action step w = (w', Ret tt)
    /\ read_file (dir ++ ["token.json"]) (fs w') = Some ("{}" +:+ nl)
    /\ (forall q, q <> dir ++ ["token.json"] -> read_file q (fs w') = read_file q (fs w))
    /\ curl_command E VUndefined =
         "curl -s -X GET -H " +:+ dquote +:+ "Authorization: Bot undefined" +:+ dquote
           +:+ " " +:+ dquote +:+ "https://discordapp.com/api/oauth2/applications/@me"
           +:+ dquote.
Proof.
  intros Hdir Hfile.
  destruct (writeFileSync_child dir "token.json" ("{}" +:+ nl) (fs w) Hdir Hfile)
    as (root' & Hw & Hread & Hothers & _).
  eexists _, (set_fs root' w). split; [reflexivity |]. cbn [action].
  split; [| split; [exact Hread | split; [exact Hothers | reflexivity]]].
  unfold fs_call.
  change (JSON_stringify2 (number_to_string E) (VObject [("token", VUndefined)]) +:+ nl)
    with ("{}" +:+ nl).
  by rewrite Hw.
Qed.

Lemma cancelled_token_witness :
  exists (step : Step) (w' : world),
    create_steps (Sample.surroundings [] VUndefined Sample.accepting)
      (VString "my-bot") ["home"; "me"; "my-bot"] VUndefined !! 3%nat = Some step
    /\ action step
         (Sample.start
            (Dir [ ("opt", Dir [ ("tool", Dir [ ("app", Sample.template) ]) ]);
                   ("home", Dir [ ("me", Dir [ ("my-bot", Dir []) ]) ]) ]))
       = (w', Ret tt)
    /\ read_file ["home"; "me"; "my-bot"; "token.json"] (fs w') = Some ("{}" +:+ nl).
Proof.
  destruct (cancelled_token (Sample.surroundings [] VUndefined Sample.accepting)
              (VString "my-bot") ["home"; "me"; "my-bot"]
              (Sample.start
                 (Dir [ ("opt", Dir [ ("tool", Dir [ ("app", Sample.template) ]) ]);
                        ("home", Dir [ ("me", Dir [ ("my-bot", Dir []) ]) ]) ])))
    as (step & w' & Hstep & Hrun & Hread & _).
  - reflexivity.
  - discriminate.
  - exists step, w'. split; [exact Hstep |]. split; [exact Hrun | exact Hread].
Defined.

(** ** The check of the name

    The library refuses a name with at least one error or warning. *)

(** X14: when the library keeps to that, the check of the name never
    throws; it answers [true] exactly for the names that are valid for new
    packages, and for the others a message that lists the errors when
    there are errors, and the warnings only when there are none. *)
Theorem validate_answer (validateName : string -> validation) (name : string) :
  let result := validateName name in
  (validForNewPackages result = false ->
   is_Some (errors result) \/ is_Some (warnings result)) ->
  exists v : value,
    validate validateName name = inr v
    /\ (v = VBool true <-> validForNewPackages result = true)
    /\ (validForNewPackages result = false ->
        exists l,
          v = VString ("Error: " +:+ join ", " l +:+ ".")
          /\ (errors result = Some l
              \/ (errors result = None /\ warnings result = Some l))).
Proof.
  cbn zeta. unfold validate. intros Hcontract.
  destruct (validForNewPackages (validateName name)).
  - exists (VBool true). split; [done |]. split; [done | discriminate].
  - destruct (errors (validateName name)) as [l |].
    + eexists. split; [reflexivity |]. split; [split; discriminate |]. eauto.
    + destruct (warnings (validateName name)) as [l |].
      * eexists. split; [reflexivity |]. split; [split; discriminate |]. eauto.
      * destruct (Hcontract eq_refl) as [[? ?] | [? ?]]; discriminate.
Qed.

Lemma validate_answer_witness :
  exists v : value,
    validate validateName_sample "http" = inr v
    /\ v = VString "Error: http is a core module name.".
Proof.
  destruct (validate_answer validateName_sample "http") as (v & Hv & _ & Hmessage).
  - intros _. right. by eexists.
  - exists v. split; [exact Hv |].
    destruct (Hmessage eq_refl) as (l & -> & [Herr | [_ Hwarn]]); [discriminate |].
    by injection Hwarn as <-.
Defined.

(** ** The probe on two unusual answers *)

(** A dry run against a service whose [id] has no text: the six
    messages, the probe, and then the [TypeError] of the template
    literal on the error stream; no invite line, no closing message. *)
Example sample_textless_id :
  let E :=
    with_probe (fun _ => inr "{}") (fun _ => inr textless_id) (fun _ _ root => root)
      (Sample.surroundings ["--dry-run"] VUndefined Sample.accepting) in
  let '(w, status) := run E (Sample.start Sample.disk) in
  status = 0%Z
  /\ fs w = Sample.disk
  /\ trace w =
       create_prelude
         ++ [ Stdout "Creating directory 'my-bot'...";
              Stdout "Creating boilerplate...";
              Stdout "Updating package.json...";
              Stdout "Writing token.json...";
              Stdout "Installing modules...";
              Stdout (nl +:+ "Generating bot invite link...");
              Spawned (curl_command E (VString "s3cret"));
              Stderr (ThrownError "TypeError" "Cannot convert object to primitive value") ].
Proof. repeat split. Qed.

(** A dry run with a token that holds a command substitution: the shell
    of the probe writes the disk, dry run or not. *)
Example sample_substituting_token :
  let E :=
    with_answers substituting_user
      (with_probe Sample.rejecting Sample.parse substituting_shell
         (Sample.surroundings ["--dry-run"] VUndefined Sample.accepting)) in
  let '(w, status) := run E (Sample.start Sample.disk) in
  status = 0%Z
  /\ stat ["home"; "me"; "made-by-token"] (fs w) = Some KDir
  /\ stat ["home"; "me"; "made-by-token"] Sample.disk = None
  /\ existsSync ["home"; "me"; "my-bot"] (fs w) = false.
Proof. repeat split. Qed.
